(** * Send-pacing controller of the bulk sender (server.js)

    A shallow embedding of the multi-session server: the helper functions
    (delay policy, batch scheduler, daily quota, address normalization,
    personalization), the HTTP handlers that update the settings and start
    or stop a run, and the sending loop [processBulkSend].

    Conventions of the embedding.
    - Numbers held in the settings and counters are integers ([Z]).
    - JavaScript strings are [string]s; a character is a code unit.
    - A value that may be [undefined] or [null] is an [option].
    - [Math.random()] is a rational in [0,1) handed in by the caller. The
      products and sums computed from it are rounded as the binary64
      arithmetic of JavaScript rounds them ([Double.round]: to the nearest
      double, ties to even); arithmetic on integers of magnitude below
      [2^53] is exact there and is written on [Z].
    - [new Date().toDateString()] is a string handed in by the caller.
    - What the outside world does while the loop is suspended in an [await]
      (transport answers, a stop request being served) is read from an
      environment indexed by the loop counter. The blocks of the loop
      come twice: first for the run during whose suspensions nothing but
      stop requests is served ([processBulkSend]), then for the run
      among whatever else the server does meanwhile, a second start
      request after a stop included ([processBulkSend_among]); the first
      is the second with stop requests only
      ([processBulkSend_among_stops]). Failures of logging or of the
      socket are not part of the model. *)

From Stdlib Require Import ZArith QArith Qround Qpower Qabs Ascii String List
  Bool Lia Lqa.
From stdpp Require Import base option gmap strings.

Local Open Scope Z_scope.

#[local] Arguments String.append !_ _ / : simpl nomatch.

(** * Part I: the program *)

(** ** Characters and strings *)

Module Str.

(** [/\d/]: the ten ASCII digits. *)
Definition is_digit (c : ascii) : bool :=
  let n := nat_of_ascii c in (48 <=? n)%nat && (n <=? 57)%nat.

(** [s.replace(/\D/g, '')] *)
Fixpoint strip_non_digits (s : string) : string :=
  match s with
  | EmptyString => EmptyString
  | String c s' =>
      if is_digit c then String c (strip_non_digits s')
      else strip_non_digits s'
  end.

(** [s.startsWith(c)] for a one-character argument. *)
Definition starts_with_char (c : ascii) (s : string) : bool :=
  match s with
  | EmptyString => false
  | String d _ => Ascii.eqb c d
  end.

(** [s.substring(1)] *)
Definition substring1 (s : string) : string :=
  match s with
  | EmptyString => EmptyString
  | String _ s' => s'
  end.

(** [s.includes(c)] for a one-character argument. *)
Fixpoint includes_char (c : ascii) (s : string) : bool :=
  match s with
  | EmptyString => false
  | String d s' => Ascii.eqb c d || includes_char c s'
  end.

Fixpoint all_digits (s : string) : bool :=
  match s with
  | EmptyString => true
  | String c s' => is_digit c && all_digits s'
  end.

End Str.

(** ** Address normalization *)

(** [formatPhoneNumber(phone)] on a string argument. *)
Definition formatPhoneNumber (phone : string) : string :=
  let cleaned := Str.strip_non_digits phone in
  let cleaned :=
    if Str.starts_with_char "0"%char cleaned
    then "62" +:+ Str.substring1 cleaned else cleaned in
  let cleaned :=
    if negb (Str.includes_char "@"%char cleaned)
    then cleaned +:+ "@c.us" else cleaned in
  cleaned.

(** ** Personalization *)

Module Regex.

(** Canonicalization under the [i] flag (no [u] flag): a code unit is
    compared through its upper-case form, and only the ASCII letters have
    one that is again a single ASCII code unit. *)
Definition canonicalize (c : ascii) : ascii :=
  let n := nat_of_ascii c in
  if (97 <=? n)%nat && (n <=? 122)%nat then ascii_of_nat (n - 32) else c.

(** Does the literal pattern [pat] match at the start of [s]? *)
Fixpoint matches_at (pat s : string) : bool :=
  match pat, s with
  | EmptyString, _ => true
  | String _ _, EmptyString => false
  | String p pat', String c s' =>
      Ascii.eqb (canonicalize p) (canonicalize c) && matches_at pat' s'
  end.

(** Does [pat] match anywhere in [s]? ([/pat/i.test(s)]) *)
Fixpoint occurs (pat s : string) : bool :=
  match s with
  | EmptyString => matches_at pat EmptyString
  | String _ s' => matches_at pat s || occurs pat s'
  end.

Fixpoint take (n : nat) (s : string) : string :=
  match n, s with
  | S k, String c s' => String c (take k s')
  | _, _ => EmptyString
  end.

Fixpoint drop (n : nat) (s : string) : string :=
  match n, s with
  | S k, String _ s' => drop k s'
  | _, _ => s
  end.

(** GetSubstitution for a regular expression without capture groups:
    [$$], [$&], [$`] and [$'] are expanded in the replacement text, every
    other character (a [$] before anything else too) is copied. *)
Fixpoint get_substitution (matched before after repl : string) : string :=
  match repl with
  | EmptyString => EmptyString
  | String c r =>
      let copy := String c (get_substitution matched before after r) in
      if Ascii.eqb c "$" then
        match r with
        | EmptyString => copy
        | String d r' =>
            let rest := get_substitution matched before after r' in
            if Ascii.eqb d "$" then String "$" rest
            else if Ascii.eqb d "&" then matched +:+ rest
            else if Ascii.eqb d "`" then before +:+ rest
            else if Ascii.eqb d "'" then after +:+ rest
            else copy
        end
      else copy
  end.

(** The scan of [s.replace(/pat/gi, repl)]: [before] is the part of the
    subject already passed, [skip] counts the characters of a match that
    are still to be passed over. *)
Fixpoint replace_go (pat repl : string) (skip : nat) (before s : string)
  : string :=
  match s with
  | EmptyString => EmptyString
  | String c s' =>
      let before' := before +:+ String c EmptyString in
      match skip with
      | S k => replace_go pat repl k before' s'
      | O =>
          if matches_at pat s then
            let n := String.length pat in
            get_substitution (take n s) before (drop n s) repl
              +:+ replace_go pat repl (n - 1) before' s'
          else String c (replace_go pat repl 0 before' s')
      end
  end.

(** [s.replace(/pat/gi, repl)] for a non-empty literal [pat]. *)
Definition replace_all (pat repl s : string) : string :=
  replace_go pat repl 0 EmptyString s.

End Regex.

(** A recipient as the request carries it; either field may be missing. *)
Record Contact := mkContact {
  c_phone : option string;
  c_name : option string
}.

(** [x || ''] *)
Definition or_empty (x : option string) : string := default EmptyString x.

Definition replaceVariables (template : string) (contact : Contact) : string :=
  let s := Regex.replace_all "{name}" (or_empty (c_name contact)) template in
  let s := Regex.replace_all "{nama}" (or_empty (c_name contact)) s in
  let s := Regex.replace_all "{phone}" (or_empty (c_phone contact)) s in
  Regex.replace_all "{nomor}" (or_empty (c_phone contact)) s.

(** Some recognized placeholder is left in [s]. *)
Definition has_placeholder (s : string) : bool :=
  Regex.occurs "{name}" s || Regex.occurs "{nama}" s
  || Regex.occurs "{phone}" s || Regex.occurs "{nomor}" s.

(** ** Data model *)

Module Settings.
Record t := mk {
  minDelay : Z;
  maxDelay : Z;
  batchSize : Z;
  batchRestMin : Z;
  batchRestMax : Z;
  warmupMessages : Z;
  warmupDelayMin : Z;
  warmupDelayMax : Z;
  dailyLimit : Z;
  simulateTyping : bool;
  addRandomPause : bool
}.

Definition with_batchSize (b : Z) (st : t) : t :=
  mk (minDelay st) (maxDelay st) b (batchRestMin st) (batchRestMax st)
     (warmupMessages st) (warmupDelayMin st) (warmupDelayMax st)
     (dailyLimit st) (simulateTyping st) (addRandomPause st).
End Settings.

Definition DEFAULT_SETTINGS : Settings.t :=
  {| Settings.minDelay := 8;
     Settings.maxDelay := 15;
     Settings.batchSize := 25;
     Settings.batchRestMin := 90;
     Settings.batchRestMax := 120;
     Settings.warmupMessages := 10;
     Settings.warmupDelayMin := 15;
     Settings.warmupDelayMax := 25;
     Settings.dailyLimit := 300;
     Settings.simulateTyping := true;
     Settings.addRandomPause := true |}.

Record DailyCounter := mkDaily { date : string; count : Z }.

Inductive Status := StatusSuccess | StatusFailed.

(** One entry of [currentJob.results]. *)
Record ResultEntry := mkResult {
  r_phone : option string;
  r_name : option string;
  r_status : Status;
  r_error : option string
}.

Record Job := mkJob {
  total : Z;
  sent : Z;
  failed : Z;
  results : list ResultEntry
}.

(** The fields of a session object that the controller reads or writes.
    [hasSocket] says whether [socketId] names a connected socket. *)
Record Session := mkSession {
  isReady : bool;
  settings : Settings.t;
  dailyCounter : DailyCounter;
  sessionCounter : Z;
  sendingInProgress : bool;
  currentJob : option Job;
  hasSocket : bool
}.

Definition set_isReady (b : bool) (s : Session) : Session :=
  mkSession b (settings s) (dailyCounter s) (sessionCounter s)
    (sendingInProgress s) (currentJob s) (hasSocket s).
Definition set_settings (st : Settings.t) (s : Session) : Session :=
  mkSession (isReady s) st (dailyCounter s) (sessionCounter s)
    (sendingInProgress s) (currentJob s) (hasSocket s).
Definition set_dailyCounter (d : DailyCounter) (s : Session) : Session :=
  mkSession (isReady s) (settings s) d (sessionCounter s)
    (sendingInProgress s) (currentJob s) (hasSocket s).
Definition set_sessionCounter (n : Z) (s : Session) : Session :=
  mkSession (isReady s) (settings s) (dailyCounter s) n
    (sendingInProgress s) (currentJob s) (hasSocket s).
Definition set_sendingInProgress (b : bool) (s : Session) : Session :=
  mkSession (isReady s) (settings s) (dailyCounter s) (sessionCounter s)
    b (currentJob s) (hasSocket s).
Definition set_currentJob (j : option Job) (s : Session) : Session :=
  mkSession (isReady s) (settings s) (dailyCounter s) (sessionCounter s)
    (sendingInProgress s) j (hasSocket s).
Definition set_hasSocket (b : bool) (s : Session) : Session :=
  mkSession (isReady s) (settings s) (dailyCounter s) (sessionCounter s)
    (sendingInProgress s) (currentJob s) b.

(** [createSession] before any saved data is loaded. *)
Definition createSession (today : string) : Session :=
  {| isReady := false;
     settings := DEFAULT_SETTINGS;
     dailyCounter := mkDaily today 0;
     sessionCounter := 0;
     sendingInProgress := false;
     currentJob := None;
     hasSocket := false |}.

(** ** Helper functions *)

(** [x < y] on rationals, as a boolean. *)
Definition Qlt_bool (x y : Q) : bool := negb (Qle_bool y x).

(** Binary64 arithmetic on the rationals. *)
Module Double.

(** The exponent of a positive rational [x]: [2^e <= x < 2^(e+1)]. *)
Definition exponent (x : Q) : Z :=
  let e := Z.log2 (Qnum x) - Z.log2 (Zpos (Qden x)) in
  if Qle_bool (2 ^ e) x then e else e - 1.

(** The integer nearest to [y], the even one of two that are as near. *)
Definition nearest_even (y : Q) : Z :=
  let f := Qfloor y in
  match (y - inject_Z f ?= 1 # 2)%Q with
  | Lt => f
  | Gt => f + 1
  | Eq => if Z.even f then f else f + 1
  end.

(** The double nearest to [x], ties to even: 53 significant bits, and
    below [2^-1022] the spacing of the subnormal numbers, [2^-1074].
    Numbers that round to magnitude [2^1024] or more, which give
    [Infinity], are outside what is modelled. *)
Definition round (x : Q) : Q :=
  if Qeq_bool x 0 then 0%Q
  else
    let k := 52 - Z.max (exponent (Qabs x)) (-1022) in
    (inject_Z (nearest_even (x * 2 ^ k)) * 2 ^ (- k))%Q.

(** [x * y] and [x + y] on doubles. *)
Definition mul (x y : Q) : Q := round (x * y).
Definition add (x y : Q) : Q := round (x + y).

End Double.

(** [getHumanizedDelay(session)]; [r1], [r2], [r3] are the values of the
    successive calls of [Math.random()] ([r2] is drawn only when
    [addRandomPause] is set, [r3] only when the pause is taken). *)
Definition getHumanizedDelay (r1 r2 r3 : Q) (session : Session) : Z :=
  let settings := settings session in
  let '(minDelay, maxDelay) :=
    if sessionCounter session <? Settings.warmupMessages settings
    then (Settings.warmupDelayMin settings, Settings.warmupDelayMax settings)
    else (Settings.minDelay settings, Settings.maxDelay settings) in
  let delay :=
    Qfloor (Double.add (Double.mul r1 (inject_Z (maxDelay - minDelay + 1)))
              (inject_Z minDelay)) in
  let delay :=
    if Settings.addRandomPause settings
       && Qlt_bool r2 (Double.round (1 # 10))
    then delay + (Qfloor (Double.mul r3 20) + 10)
    else delay in
  delay * 1000.

(** The remainder operator [%] on integers; [None] is [NaN]. *)
Definition js_rem (a b : Z) : option Z :=
  if b =? 0 then None else Some (Z.rem a b).

(** [x === 0] for the result of [%]. *)
Definition is_zero (x : option Z) : bool :=
  match x with
  | Some r => r =? 0
  | None => false
  end.

Definition needsBatchRest (session : Session) (messageIndex : Z) : bool :=
  (0 <? messageIndex)
  && is_zero (js_rem messageIndex (Settings.batchSize (settings session))).

Definition getBatchRestDuration (r : Q) (session : Session) : Z :=
  let min := Settings.batchRestMin (settings session) in
  let max := Settings.batchRestMax (settings session) in
  Qfloor (Double.add (Double.mul r (inject_Z (max - min + 1))) (inject_Z min))
  * 1000.

(** [checkDailyLimit(session)]: the answer and the session as it is left. *)
Definition checkDailyLimit (today : string) (session : Session)
  : bool * Session :=
  let session :=
    if negb (String.eqb (date (dailyCounter session)) today)
    then set_sessionCounter 0 (set_dailyCounter (mkDaily today 0) session)
    else session in
  (count (dailyCounter session) <? Settings.dailyLimit (settings session),
   session).

(** ** What the controller does to the outside world *)

(** The text of a [log(sessionId, ...)] call, by its template. *)
Inductive LogMessage :=
| LogStarting (contacts : Z)
| LogStopped
| LogLimitReached (limit : Z)
| LogBatchRest (seconds : Z)
| LogSent (recipient : option string)
| LogFailed (phone : option string) (reason : string)
| LogWaiting (seconds : Z) (isWarmup : bool)
| LogCompleted (sent failed : Z).

(** The events sent to the session's socket. *)
Inductive Event :=
| limit_reached (limit : Z)
| batch_rest (duration batch : Z)
| message_sent (result : ResultEntry) (progress : Job)
| message_failed (result : ResultEntry) (progress : Job)
| waiting (delay next total : Z) (isWarmup : bool)
| bulk_complete (job : option Job).

(** What [client.sendMessage] is given. *)
Inductive Content :=
| Text (body : string)
| Media (path caption : string).

Inductive Effect :=
| Log (message : LogMessage)
| Emit (event : Event)
| Sleep (ms : Z)
| CallIsRegisteredUser (phone : string)
| CallTyping (chatId : string)
| CallFromFilePath (path : string)
| CallSendMessage (phone : string) (content : Content)
| SaveSessionData (settings : Settings.t) (dailyCounter : DailyCounter).

(** ** The controller monad: session state, trace of effects, exceptions *)

(** How an evaluation ends: with a value, or with a thrown [Error] of
    which the message is kept. *)
Inductive Completion (A : Type) :=
| Normal (value : A)
| Thrown (message : string).
Arguments Normal {A} value.
Arguments Thrown {A} message.

Definition State : Type := Session * list Effect.

Definition M (A : Type) : Type := State -> Completion A * State.

#[global] Instance M_ret : MRet M :=
  fun A (a : A) st => (Normal a, st).

#[global] Instance M_bind : MBind M :=
  fun A B (k : A -> M B) (m : M A) st =>
    match m st with
    | (Normal a, st') => k a st'
    | (Thrown message, st') => (Thrown message, st')
    end.

Definition get : M Session := fun st => (Normal (fst st), st).

(** A function that only reads the session. *)
Definition gets {A} (f : Session -> A) : M A :=
  fun st => (Normal (f (fst st)), st).

Definition modify (f : Session -> Session) : M unit :=
  fun st => (Normal tt, (f (fst st), snd st)).

Definition effect (e : Effect) : M unit :=
  fun st => (Normal tt, (fst st, snd st ++ [e])).

Definition throw {A} (message : string) : M A :=
  fun st => (Thrown message, st).

(** [try { body } catch (error) { handler(error.message) }] *)
Definition try_catch {A} (body : M A) (handler : string -> M A) : M A :=
  fun st =>
    match body st with
    | (Normal a, st') => (Normal a, st')
    | (Thrown message, st') => handler message st'
    end.

(** A function on the session that also leaves it changed. *)
Definition lift {A} (f : Session -> A * Session) : M A :=
  fun st => let '(a, session) := f (fst st) in (Normal a, (session, snd st)).

(** [log(sessionId, message, type)] *)
Definition log (message : LogMessage) : M unit := effect (Log message).

(** [if (socket) socket.emit(...)] *)
Definition emit (socket : bool) (event : Event) : M unit :=
  if socket then effect (Emit event) else mret tt.

(** The body of [POST /api/session/:sessionId/stop], once the session is
    found. *)
Definition stop_request : M unit := modify (set_sendingInProgress false).

(** [await] of a call to the outside, in a run during whose suspensions
    nothing but stop requests is served: the call is made, the loop is
    suspended, a stop request that arrives meanwhile is served, and the
    loop resumes with the answer.  [await_among], further down, is the
    same with whatever else the server does meanwhile. *)
Definition await {A} (call : Effect) (stopRequested : bool)
  (answer : Completion A) : M A :=
  effect call ;;
  (if stopRequested then stop_request else mret tt) ;;
  match answer with
  | Normal a => mret a
  | Thrown message => throw message
  end.

(** [await new Promise(resolve => setTimeout(resolve, ms))] *)
Definition sleep (ms : Z) (stopRequested : bool) : M unit :=
  await (Sleep ms) stopRequested (Normal tt).

(** [session.currentJob], for a property access: reading a property of
    [null] throws. *)
Definition get_job : M Job :=
  session ← get;
  match currentJob session with
  | Some job => mret job
  | None => throw "Cannot read properties of null"
  end.

Definition modify_job (f : Job -> Job) : M unit :=
  job ← get_job;
  modify (set_currentJob (Some (f job))).

(** ** The environment of a run *)

(** What the outside world answers during the iteration for one index. *)
Record StepEnv := mkStepEnv {
  env_today : string;
  env_restDraw : Q;
  env_stopDuringRest : bool;
  env_isRegisteredUser : Completion bool;
  env_stopDuringSend : bool;
  env_typing : Completion unit;
  env_existsSync : bool;
  env_fromFilePath : Completion unit;
  env_sendMessage : Completion unit;
  env_delayDraws : Q * Q * Q;
  env_stopDuringDelay : bool
}.

Definition Env : Type := nat -> StepEnv.

(** ** The sending loop *)

(** Truthiness of a string that may be missing: [undefined], [null] and
    the empty string are falsy. *)
Definition truthy (x : option string) : bool :=
  match x with
  | Some (String _ _) => true
  | _ => false
  end.

(** [a || b] on strings that may be missing. *)
Definition js_or (a b : option string) : option string :=
  if truthy a then a else b.

(** The call [formatPhoneNumber(contact.phone)]: [phone.toString()] throws
    a [TypeError] when the field is missing. *)
Definition formatPhoneNumber_call (phone : option string) : M string :=
  match phone with
  | Some p => mret (formatPhoneNumber p)
  | None => throw "Cannot read properties of undefined (reading 'toString')"
  end.

(** The call [replaceVariables(messageTemplate, contact)]:
    [template.replace] throws a [TypeError] when the request had no
    [message]. *)
Definition replaceVariables_call (template : option string)
  (contact : Contact) : M string :=
  match template with
  | Some t => mret (replaceVariables t contact)
  | None => throw "Cannot read properties of undefined (reading 'replace')"
  end.

(** [simulateTyping(session, chatId)]; the call stands for [getChatById],
    [sendStateTyping], the two-second timer and [clearState]. *)
Definition simulateTyping (e : StepEnv) (chatId : string) : M unit :=
  session ← get;
  if negb (Settings.simulateTyping (settings session)) then mret tt
  else try_catch (await (CallTyping chatId) false (env_typing e))
                 (fun _ => mret tt).

Definition incr_sent (job : Job) : Job :=
  mkJob (total job) (sent job + 1) (failed job) (results job).
Definition incr_failed (job : Job) : Job :=
  mkJob (total job) (sent job) (failed job + 1) (results job).
Definition push_result (result : ResultEntry) (job : Job) : Job :=
  mkJob (total job) (sent job) (failed job) (results job ++ [result]).
Definition incr_count (session : Session) : Session :=
  set_dailyCounter
    (mkDaily (date (dailyCounter session)) (count (dailyCounter session) + 1))
    session.
Definition incr_sessionCounter (session : Session) : Session :=
  set_sessionCounter (sessionCounter session + 1) session.

(** The dispatch inside the [try]: with media and caption when
    [mediaPath] is set and the file exists, the text alone otherwise. *)
Definition dispatch (e : StepEnv) (mediaPath : option string)
  (phone personalizedMessage : string) : M unit :=
  match mediaPath with
  | Some path =>
      if truthy mediaPath && env_existsSync e then
        await (CallFromFilePath path) false (env_fromFilePath e) ;;
        await (CallSendMessage phone (Media path personalizedMessage))
          false (env_sendMessage e)
      else
        await (CallSendMessage phone (Text personalizedMessage))
          false (env_sendMessage e)
  | None =>
      await (CallSendMessage phone (Text personalizedMessage))
        false (env_sendMessage e)
  end.

(** The statements of the [try] block that follow the dispatch. *)
Definition record_success (socket : bool) (contact : Contact) : M unit :=
  modify_job incr_sent ;;
  modify incr_count ;;
  modify incr_sessionCounter ;;
  let result :=
    mkResult (c_phone contact) (c_name contact) StatusSuccess None in
  modify_job (push_result result) ;;
  log (LogSent (js_or (c_name contact) (c_phone contact))) ;;
  job ← get_job;
  emit socket (message_sent result job).

(** The [catch] block; [message] is [error.message]. *)
Definition record_failure (socket : bool) (contact : Contact)
  (message : string) : M unit :=
  modify_job incr_failed ;;
  let result :=
    mkResult (c_phone contact) (c_name contact) StatusFailed (Some message) in
  modify_job (push_result result) ;;
  log (LogFailed (c_phone contact) message) ;;
  job ← get_job;
  emit socket (message_failed result job).

(** The [try { ... } catch (error) { ... }] of one iteration. A stop
    request served while the block is suspended is taken at its first
    [await]; the flag is not read before the block is left. *)
Definition attempt (e : StepEnv) (socket : bool) (mediaPath : option string)
  (contact : Contact) (phone personalizedMessage : string) : M unit :=
  try_catch
    (isRegistered ← await (CallIsRegisteredUser phone)
                      (env_stopDuringSend e) (env_isRegisteredUser e);
     (if negb isRegistered then throw "Not registered on WhatsApp"
      else mret tt) ;;
     simulateTyping e phone ;;
     dispatch e mediaPath phone personalizedMessage ;;
     record_success socket contact)
    (record_failure socket contact).

(** [if (needsBatchRest(session, i)) { ... await timer }] *)
Definition restIfDue (e : StepEnv) (socket : bool) (i : nat) : M unit :=
  session ← get;
  if needsBatchRest session (Z.of_nat i) then
    restDuration ← gets (getBatchRestDuration (env_restDraw e));
    log (LogBatchRest (restDuration / 1000)) ;;
    emit socket
      (batch_rest (restDuration / 1000)
         (Z.of_nat i / Settings.batchSize (settings session))) ;;
    sleep restDuration (env_stopDuringRest e)
  else mret tt.

(** [if (i < contacts.length - 1 && session.sendingInProgress) { ... }] *)
Definition waitBeforeNext (e : StepEnv) (socket : bool) (i total : nat)
  : M unit :=
  session ← get;
  if (Z.of_nat i <? Z.of_nat total - 1) && sendingInProgress session then
    let '(r1, r2, r3) := env_delayDraws e in
    delay ← gets (getHumanizedDelay r1 r2 r3);
    let isWarmup :=
      sessionCounter session <=? Settings.warmupMessages (settings session) in
    log (LogWaiting (delay / 1000) isWarmup) ;;
    emit socket
      (waiting (delay / 1000) (Z.of_nat i + 2) (Z.of_nat total) isWarmup) ;;
    sleep delay (env_stopDuringDelay e)
  else mret tt.

(** The body of the loop for one index, below the two guards: the rest if
    one is due, normalization, personalization, the attempt and the wait
    before the next recipient. *)
Definition iteration (env : Env) (socket : bool) (total : nat)
  (messageTemplate mediaPath : option string) (i : nat) (contact : Contact)
  : M unit :=
  restIfDue (env i) socket i ;;
  phone ← formatPhoneNumber_call (c_phone contact);
  personalizedMessage ← replaceVariables_call messageTemplate contact;
  attempt (env i) socket mediaPath contact phone personalizedMessage ;;
  waitBeforeNext (env i) socket i total.

(** The way the [for] loop is left: its condition fails, or one of the two
    [break]s is taken. *)
Inductive Exit := Completed | Stopped | QuotaExhausted.

(** [for (let i = ...; i < contacts.length; i++) { ... }], from index [i]
    on; [rest] holds [contacts[i]], [contacts[i+1]], ... and [total] is
    [contacts.length]. *)
Fixpoint loop (env : Env) (socket : bool) (total : nat)
  (messageTemplate mediaPath : option string)
  (i : nat) (rest : list Contact) : M Exit :=
  match rest with
  | [] => mret Completed
  | contact :: rest' =>
      session ← get;
      if negb (sendingInProgress session) then
        log LogStopped ;; mret Stopped
      else
        allowed ← lift (checkDailyLimit (env_today (env i)));
        if negb allowed then
          session ← get;
          log (LogLimitReached (Settings.dailyLimit (settings session))) ;;
          emit socket
            (limit_reached (Settings.dailyLimit (settings session))) ;;
          mret QuotaExhausted
        else
          iteration env socket total messageTemplate mediaPath i contact ;;
          loop env socket total messageTemplate mediaPath (S i) rest'
  end.

(** [processBulkSend(sessionId, contacts, messageTemplate, mediaPath)] on
    the session found under [sessionId]. *)
Definition processBulkSend (env : Env) (contacts : list Contact)
  (messageTemplate mediaPath : option string) : M Exit :=
  session ← get;
  let socket := hasSocket session in
  log (LogStarting (Z.of_nat (length contacts))) ;;
  exit ← loop env socket (length contacts) messageTemplate mediaPath
           0 contacts;
  modify (set_sendingInProgress false) ;;
  session ← get;
  effect (SaveSessionData (settings session) (dailyCounter session)) ;;
  emit socket (bulk_complete (currentJob session)) ;;
  job ← get_job;
  log (LogCompleted (sent job) (failed job)) ;;
  mret exit.

(** ** The HTTP handlers *)

(** The sessions of the server, by session id ([userSessions]). *)
Abbreviation Sessions := (gmap string Session).

Inductive Response :=
| NotFound (error : string)
| BadRequest (error : string)
| SendingStarted (total : Z)
| SettingsUpdated (settings : Settings.t)
| Success.

(** The body of a start request. *)
Record BulkBody := mkBulkBody {
  contacts : option (list Contact);
  message : option string;
  mediaPath : option string
}.

(** [!contacts || contacts.length === 0] *)
Definition no_contacts (body : BulkBody) : bool :=
  match contacts body with
  | Some (_ :: _) => false
  | _ => true
  end.

(** [POST /api/session/:sessionId/send-bulk], up to the point where the
    loop is started in the background. *)
Definition post_send_bulk (sessionId : string) (body : BulkBody)
  (userSessions : Sessions) : Response * Sessions :=
  match userSessions !! sessionId with
  | None => (NotFound "Session not found", userSessions)
  | Some session =>
      if negb (isReady session) then
        (BadRequest "WhatsApp not connected", userSessions)
      else if sendingInProgress session then
        (BadRequest "Sending in progress", userSessions)
      else if no_contacts body then
        (BadRequest "No contacts", userSessions)
      else if negb (truthy (message body)) && negb (truthy (mediaPath body))
      then (BadRequest "Message or media required", userSessions)
      else
        let n := Z.of_nat (length (default [] (contacts body))) in
        let session :=
          set_currentJob (Some (mkJob n 0 0 []))
            (set_sendingInProgress true session) in
        (SendingStarted n, <[sessionId := session]> userSessions)
  end.

(** The run that an accepted start request sets off: the loop on the
    session as the handler left it, with an empty trace. *)
Definition background_run (env : Env) (sessionId : string) (body : BulkBody)
  (userSessions : Sessions) : option (Completion Exit * State) :=
  match post_send_bulk sessionId body userSessions with
  | (SendingStarted _, userSessions') =>
      match userSessions' !! sessionId with
      | Some session =>
          Some (processBulkSend env (default [] (contacts body))
                  (message body) (mediaPath body) (session, []))
      | None => None
      end
  | _ => None
  end.

(** The body of a settings request: each setting may be given or not. *)
Record SettingsBody := mkSettingsBody {
  b_minDelay : option Z;
  b_maxDelay : option Z;
  b_batchSize : option Z;
  b_batchRestMin : option Z;
  b_batchRestMax : option Z;
  b_warmupMessages : option Z;
  b_warmupDelayMin : option Z;
  b_warmupDelayMax : option Z;
  b_dailyLimit : option Z;
  b_simulateTyping : option bool;
  b_addRandomPause : option bool
}.

(** [{ ...settings, ...body }] *)
Definition spread (settings : Settings.t) (body : SettingsBody) : Settings.t :=
  {| Settings.minDelay := default (Settings.minDelay settings) (b_minDelay body);
     Settings.maxDelay := default (Settings.maxDelay settings) (b_maxDelay body);
     Settings.batchSize :=
       default (Settings.batchSize settings) (b_batchSize body);
     Settings.batchRestMin :=
       default (Settings.batchRestMin settings) (b_batchRestMin body);
     Settings.batchRestMax :=
       default (Settings.batchRestMax settings) (b_batchRestMax body);
     Settings.warmupMessages :=
       default (Settings.warmupMessages settings) (b_warmupMessages body);
     Settings.warmupDelayMin :=
       default (Settings.warmupDelayMin settings) (b_warmupDelayMin body);
     Settings.warmupDelayMax :=
       default (Settings.warmupDelayMax settings) (b_warmupDelayMax body);
     Settings.dailyLimit :=
       default (Settings.dailyLimit settings) (b_dailyLimit body);
     Settings.simulateTyping :=
       default (Settings.simulateTyping settings) (b_simulateTyping body);
     Settings.addRandomPause :=
       default (Settings.addRandomPause settings) (b_addRandomPause body) |}.

(** [POST /api/session/:sessionId/settings]: the response, the sessions
    and what [saveSessionData] writes. *)
Definition post_settings (sessionId : string) (body : SettingsBody)
  (userSessions : Sessions) : Response * Sessions * list Effect :=
  match userSessions !! sessionId with
  | None => (NotFound "Session not found", userSessions, [])
  | Some session =>
      let session := set_settings (spread (settings session) body) session in
      (SettingsUpdated (settings session),
       <[sessionId := session]> userSessions,
       [SaveSessionData (settings session) (dailyCounter session)])
  end.

(** [POST /api/session/:sessionId/stop] *)
Definition post_stop (sessionId : string) (userSessions : Sessions)
  : Response * Sessions :=
  match userSessions !! sessionId with
  | None => (NotFound "Session not found", userSessions)
  | Some session =>
      (Success,
       <[sessionId := set_sendingInProgress false session]> userSessions)
  end.

(** ** Vocabulary of the statements *)

(** The bounds the delay is drawn between: the warmup bounds while
    [sessionCounter < warmupMessages], the steady-state bounds after. *)
Definition delay_bounds (session : Session) : Z * Z :=
  let st := settings session in
  if sessionCounter session <? Settings.warmupMessages st
  then (Settings.warmupDelayMin st, Settings.warmupDelayMax st)
  else (Settings.minDelay st, Settings.maxDelay st).

(** [n] successive quota checks on the same day: the answers and the
    session as it is left. *)
Fixpoint checkDailyLimit_times (n : nat) (today : string) (session : Session)
  : list bool * Session :=
  match n with
  | O => ([], session)
  | S n' =>
      let '(allowed, session) := checkDailyLimit today session in
      let '(answers, session) := checkDailyLimit_times n' today session in
      (allowed :: answers, session)
  end.

(** The recipients attempted according to a trace: each attempt opens with
    one registration check. *)
Fixpoint attempts (trace : list Effect) : nat :=
  match trace with
  | [] => 0
  | CallIsRegisteredUser _ :: trace' => S (attempts trace')
  | _ :: trace' => attempts trace'
  end.

(** The messages handed to the transport according to a trace. *)
Fixpoint dispatched (trace : list Effect) : list string :=
  match trace with
  | [] => []
  | CallSendMessage phone _ :: trace' => phone :: dispatched trace'
  | _ :: trace' => dispatched trace'
  end.

(** A block that leaves the job alone, adds no registration check to the
    trace and does not raise the sending flag. *)
Definition quiet {A} (m : M A) : Prop :=
  forall st : State,
    currentJob (fst (snd (m st))) = currentJob (fst st)
    /\ (sendingInProgress (fst st) = false ->
        sendingInProgress (fst (snd (m st))) = false)
    /\ exists suffix,
         snd (snd (m st)) = snd st ++ suffix /\ attempts suffix = 0%nat.

(** The counter an outcome is counted under. *)
Definition bump (status : Status) (job : Job) : Job :=
  match status with
  | StatusSuccess => incr_sent job
  | StatusFailed => incr_failed job
  end.

(** Between two states, [k] recipients were attempted and accounted for. *)
Definition accounted (k : nat) (st st' : State) : Prop :=
  exists job job',
    currentJob (fst st) = Some job
    /\ currentJob (fst st') = Some job'
    /\ total job' = total job
    /\ sent job <= sent job'
    /\ failed job <= failed job'
    /\ sent job' + failed job' = sent job + failed job + Z.of_nat k
    /\ length (results job') = (length (results job) + k)%nat
    /\ attempts (snd st') = (attempts (snd st) + k)%nat.

(** How the dispatch of one iteration ends: loading the media file is
    tried first when [mediaPath] is set and the file exists. *)
Definition dispatch_outcome (e : StepEnv) (mediaPath : option string)
  : Completion unit :=
  if truthy mediaPath && env_existsSync e then
    match env_fromFilePath e with
    | Normal _ => env_sendMessage e
    | Thrown message => Thrown message
    end
  else env_sendMessage e.

(** The reason an attempt fails for, if it does: the registration check
    throws or answers no, or the dispatch throws. What the typing
    simulation does plays no part. *)
Definition attempt_failure (e : StepEnv) (mediaPath : option string)
  : option string :=
  match env_isRegisteredUser e with
  | Thrown message => Some message
  | Normal false => Some "Not registered on WhatsApp"
  | Normal true =>
      match dispatch_outcome e mediaPath with
      | Normal _ => None
      | Thrown message => Some message
      end
  end.

(** The result entry of a recipient whose attempt met [e]. *)
Definition expected_entry (e : StepEnv) (mediaPath : option string)
  (contact : Contact) : ResultEntry :=
  match attempt_failure e mediaPath with
  | None => mkResult (c_phone contact) (c_name contact) StatusSuccess None
  | Some reason =>
      mkResult (c_phone contact) (c_name contact) StatusFailed (Some reason)
  end.

(** The result entries of the recipients [contacts], the first of which
    has index [i]. *)
Fixpoint entries (env : Env) (mediaPath : option string) (i : nat)
  (contacts : list Contact) : list ResultEntry :=
  match contacts with
  | [] => []
  | contact :: contacts' =>
      expected_entry (env i) mediaPath contact
      :: entries env mediaPath (S i) contacts'
  end.

(** A session as the start handler leaves it: sending, with a fresh job
    for [n] recipients. *)
Definition started_session (n : Z) (session : Session) : Session :=
  set_currentJob (Some (mkJob n 0 0 [])) (set_sendingInProgress true session).

(** The conditions under which a start request is to be refused: message
    and media both absent, no recipients, a run in progress, or the
    transport not ready. *)
Definition refused (session : Session) (body : BulkBody) : bool :=
  (negb (truthy (message body)) && negb (truthy (mediaPath body)))
  || no_contacts body
  || sendingInProgress session
  || negb (isReady session).

(** Every recipient has a number and the request has a message text, so
    that normalization and personalization are defined. *)
Definition well_formed (contacts : list Contact) (template : option string)
  : bool :=
  forallb (fun c => bool_decide (is_Some (c_phone c))) contacts
  && bool_decide (is_Some template).

(** * Part I, continued: the rest of the server *)

(** ** Vocabulary of the further statements: personalization *)

(** [q] is a spelling of the placeholder [pat]: the same characters up to
    the case of the letters. *)
Definition spelling (pat q : string) : bool :=
  Regex.matches_at pat q && (String.length q =? String.length pat)%nat.

(** A text that contains neither [{] nor [$]. *)
Definition plain (s : string) : bool :=
  negb (Str.includes_char "{" s) && negb (Str.includes_char "$" s).

(** The two placeholders of each field. *)
Definition name_placeholder (q : string) : bool :=
  spelling "{name}" q || spelling "{nama}" q.

Definition phone_placeholder (q : string) : bool :=
  spelling "{phone}" q || spelling "{nomor}" q.

(** The field a placeholder stands for, if [q] spells one. *)
Definition placeholder_field (q : string) (contact : Contact)
  : option string :=
  if name_placeholder q then Some (or_empty (c_name contact))
  else if phone_placeholder q then Some (or_empty (c_phone contact))
  else None.


(** ** Vocabulary of the further statements: the run *)

(** The attempt under [e] hands a message to the transport: the
    registration check answered yes and the media file, if one is used,
    was loaded. *)
Definition handed_over (e : StepEnv) (mediaPath : option string) : bool :=
  match env_isRegisteredUser e with
  | Normal true =>
      if truthy mediaPath && env_existsSync e then
        match env_fromFilePath e with
        | Normal _ => true
        | Thrown _ => false
        end
      else true
  | _ => false
  end.

(** The numbers handed to the transport for the recipients [contacts],
    the first of which has index [i]. *)
Fixpoint handed (env : Env) (mediaPath : option string) (i : nat)
  (contacts : list Contact) : list string :=
  match contacts with
  | [] => []
  | contact :: contacts' =>
      (if handed_over (env i) mediaPath
       then [formatPhoneNumber (or_empty (c_phone contact))] else [])
      ++ handed env mediaPath (S i) contacts'
  end.

(** The session with the flag down. *)
Definition stopped (down : bool) (session : Session) : Session :=
  if down then set_sendingInProgress false session else session.

(** The session after the attempt on [contact] under [e], the job being
    [job] before it. *)
Definition after_attempt (e : StepEnv) (mediaPath : option string)
  (contact : Contact) (job : Job) (session : Session) : Session :=
  let session := stopped (env_stopDuringSend e) session in
  let entry := expected_entry e mediaPath contact in
  match attempt_failure e mediaPath with
  | None =>
      set_currentJob (Some (push_result entry (incr_sent job)))
        (incr_sessionCounter (incr_count session))
  | Some _ =>
      set_currentJob (Some (push_result entry (incr_failed job))) session
  end.

(** The session after the iteration for index [i]. *)
Definition after_iteration (e : StepEnv) (mediaPath : option string)
  (total i : nat) (contact : Contact) (job : Job) (session : Session)
  : Session :=
  let session :=
    stopped (needsBatchRest session (Z.of_nat i) && env_stopDuringRest e)
      session in
  let session := after_attempt e mediaPath contact job session in
  stopped ((Z.of_nat i <? Z.of_nat total - 1) && sendingInProgress session
           && env_stopDuringDelay e) session.

(** What a trace saves and announces as complete. *)
Fixpoint closing (trace : list Effect) : nat :=
  match trace with
  | [] => 0
  | SaveSessionData _ _ :: trace' => S (closing trace')
  | Emit (bulk_complete _) :: trace' => S (closing trace')
  | Log (LogCompleted _ _) :: trace' => S (closing trace')
  | _ :: trace' => closing trace'
  end.

(** What a block adds to the trace: no registration check, nothing
    handed to the transport, nothing saved or announced as complete. *)
Definition silent (suffix : list Effect) : Prop :=
  attempts suffix = 0%nat /\ dispatched suffix = [] /\ closing suffix = 0%nat.

(** The ledger of the loop entered at index [i] with [rest] to go, in
    state [st] with job [j], and left as [r]: [k] recipients were
    attempted and the job is [j'] at the end. *)
Definition ledger (env : Env) (mediaPath : option string) (i : nat)
  (rest : list Contact) (st : State) (j : Job)
  (r : Completion Exit * State) (k : nat) (j' : Job) : Prop :=
  let s := fst st in
  let s' := fst (snd r) in
  (k <= length rest)%nat
  /\ currentJob s' = Some j'
  /\ settings s' = settings s
  /\ isReady s' = isReady s
  /\ hasSocket s' = hasSocket s
  /\ attempts (snd (snd r)) = (attempts (snd st) + k)%nat
  /\ dispatched (snd (snd r))
     = dispatched (snd st) ++ handed env mediaPath i (firstn k rest)
  /\ (fst r = Normal Completed -> k = length rest)
  /\ (0 <= Settings.dailyLimit (settings s) ->
      count (dailyCounter s) <= Settings.dailyLimit (settings s) ->
      count (dailyCounter s') <= Settings.dailyLimit (settings s))
  /\ ((forall n, env_today (env n) = date (dailyCounter s)) ->
      date (dailyCounter s') = date (dailyCounter s)
      /\ count (dailyCounter s') - count (dailyCounter s) = sent j' - sent j
      /\ sessionCounter s' - sessionCounter s = sent j' - sent j).



(** ** Connection events and saved data *)



(** The settings and the counter of the document that [saveSessionData]
    writes and [JSON.parse] gives back to [loadSessionData]; in the
    document read each setting and the counter may be absent.  The
    contact list, which the model of the session leaves out, is not part
    of it. *)
Record SavedData := mkSavedData {
  saved_settings : SettingsBody;
  saved_dailyCounter : option DailyCounter
}.

(** The file [./data/session-<id>.json] as [loadSessionData] finds it. *)
Inductive SessionFile :=
| FileMissing
| FileUnreadable
| FileData (data : SavedData).

(** A settings object with every key present. *)
Definition all_settings (settings : Settings.t) : SettingsBody :=
  {| b_minDelay := Some (Settings.minDelay settings);
     b_maxDelay := Some (Settings.maxDelay settings);
     b_batchSize := Some (Settings.batchSize settings);
     b_batchRestMin := Some (Settings.batchRestMin settings);
     b_batchRestMax := Some (Settings.batchRestMax settings);
     b_warmupMessages := Some (Settings.warmupMessages settings);
     b_warmupDelayMin := Some (Settings.warmupDelayMin settings);
     b_warmupDelayMax := Some (Settings.warmupDelayMax settings);
     b_dailyLimit := Some (Settings.dailyLimit settings);
     b_simulateTyping := Some (Settings.simulateTyping settings);
     b_addRandomPause := Some (Settings.addRandomPause settings) |}.

(** [saveSessionData(sessionId, session)]: the document written. *)
Definition saveSessionData (session : Session) : SavedData :=
  {| saved_settings := all_settings (settings session);
     saved_dailyCounter := Some (dailyCounter session) |}.

(** [loadSessionData(sessionId, session)]: a file that is missing, or
    that [JSON.parse] rejects, leaves the session as it is. *)
Definition loadSessionData (file : SessionFile) (today : string)
  (session : Session) : Session :=
  match file with
  | FileData data =>
      set_dailyCounter
        (default (mkDaily today 0) (saved_dailyCounter data))
        (set_settings (spread DEFAULT_SETTINGS (saved_settings data)) session)
  | _ => session
  end.

(** [createSession(sessionId)] with the loading of the saved data. *)
Definition createSession_loaded (file : SessionFile) (today : string)
  : Session :=
  loadSessionData file today (createSession today).

(** ** Contact files *)

(** A record of the parsed file: the cells of a row by column header. *)
Abbreviation FileRow := (gmap string string).

(** The mapping of [parseContactsFile] from a record to a contact. *)
Definition contact_of_row (r : FileRow) : Contact :=
  {| c_phone :=
       js_or (js_or (js_or (js_or (js_or (r !! "phone") (r !! "nomor"))
                              (r !! "number"))
                       (r !! "Phone"))
                (r !! "Nomor"))
         (r !! "Number");
     c_name :=
       js_or (js_or (js_or (js_or (r !! "name") (r !! "nama")) (r !! "Name"))
                (r !! "Nama"))
         (Some "") |}.

(** [parseContactsFile(filePath)]: [ext] is the extension of the path in
    lower case and [records] what the reader for that kind of file
    returns, with text in every cell. *)
Definition parseContactsFile (ext : string) (records : list FileRow)
  : list Contact :=
  let contacts :=
    if String.eqb ext ".csv" then map contact_of_row records
    else if String.eqb ext ".xlsx" || String.eqb ext ".xls"
    then map contact_of_row records
    else [] in
  List.filter (fun c => truthy (c_phone c)) contacts.



(** ** Vocabulary of the further statements: how a run ends *)

(** A stop request is served during one of the suspensions of the
    iteration that meets [e]. *)
Definition stop_requested (e : StepEnv) : bool :=
  env_stopDuringRest e || env_stopDuringSend e || env_stopDuringDelay e.



(** * Part I, continued: the run among other requests *)

(** While the loop is suspended in an [await] the server goes on serving
    requests and events, and other runs take their steps.  Above, the only
    request served during a suspension is a stop request.  Here a
    suspension takes whatever happens meanwhile, as a function on the
    state of the session; the blocks of the loop are those of above but
    for that. *)

(** The suspensions of one iteration. *)
Inductive Suspension :=
| InRest
| InRegistration
| InTyping
| InMedia
| InSend
| InDelay.

(** What happens to the session during the suspensions of the run, by
    loop counter. *)
Definition Meanwhile : Type := nat -> Suspension -> State -> State.

(** [await] of a call to the outside, with what happens meanwhile. *)
Definition await_among {A} (call : Effect) (others : State -> State)
  (answer : Completion A) : M A :=
  effect call ;;
  (fun st => (Normal tt, others st)) ;;
  match answer with
  | Normal a => mret a
  | Thrown message => throw message
  end.

Definition simulateTyping_among (w : Suspension -> State -> State)
  (e : StepEnv) (chatId : string) : M unit :=
  session ← get;
  if negb (Settings.simulateTyping (settings session)) then mret tt
  else try_catch (await_among (CallTyping chatId) (w InTyping) (env_typing e))
                 (fun _ => mret tt).

Definition dispatch_among (w : Suspension -> State -> State) (e : StepEnv)
  (mediaPath : option string) (phone personalizedMessage : string) : M unit :=
  match mediaPath with
  | Some path =>
      if truthy mediaPath && env_existsSync e then
        await_among (CallFromFilePath path) (w InMedia) (env_fromFilePath e) ;;
        await_among (CallSendMessage phone (Media path personalizedMessage))
          (w InSend) (env_sendMessage e)
      else
        await_among (CallSendMessage phone (Text personalizedMessage))
          (w InSend) (env_sendMessage e)
  | None =>
      await_among (CallSendMessage phone (Text personalizedMessage))
        (w InSend) (env_sendMessage e)
  end.

Definition attempt_among (w : Suspension -> State -> State) (e : StepEnv)
  (socket : bool) (mediaPath : option string) (contact : Contact)
  (phone personalizedMessage : string) : M unit :=
  try_catch
    (isRegistered ← await_among (CallIsRegisteredUser phone)
                      (w InRegistration) (env_isRegisteredUser e);
     (if negb isRegistered then throw "Not registered on WhatsApp"
      else mret tt) ;;
     simulateTyping_among w e phone ;;
     dispatch_among w e mediaPath phone personalizedMessage ;;
     record_success socket contact)
    (record_failure socket contact).

Definition restIfDue_among (w : Suspension -> State -> State) (e : StepEnv)
  (socket : bool) (i : nat) : M unit :=
  session ← get;
  if needsBatchRest session (Z.of_nat i) then
    restDuration ← gets (getBatchRestDuration (env_restDraw e));
    log (LogBatchRest (restDuration / 1000)) ;;
    emit socket
      (batch_rest (restDuration / 1000)
         (Z.of_nat i / Settings.batchSize (settings session))) ;;
    await_among (Sleep restDuration) (w InRest) (Normal tt)
  else mret tt.

Definition waitBeforeNext_among (w : Suspension -> State -> State)
  (e : StepEnv) (socket : bool) (i total : nat) : M unit :=
  session ← get;
  if (Z.of_nat i <? Z.of_nat total - 1) && sendingInProgress session then
    let '(r1, r2, r3) := env_delayDraws e in
    delay ← gets (getHumanizedDelay r1 r2 r3);
    let isWarmup :=
      sessionCounter session <=? Settings.warmupMessages (settings session) in
    log (LogWaiting (delay / 1000) isWarmup) ;;
    emit socket
      (waiting (delay / 1000) (Z.of_nat i + 2) (Z.of_nat total) isWarmup) ;;
    await_among (Sleep delay) (w InDelay) (Normal tt)
  else mret tt.

Definition iteration_among (world : Meanwhile) (env : Env) (socket : bool)
  (total : nat) (messageTemplate mediaPath : option string) (i : nat)
  (contact : Contact) : M unit :=
  restIfDue_among (world i) (env i) socket i ;;
  phone ← formatPhoneNumber_call (c_phone contact);
  personalizedMessage ← replaceVariables_call messageTemplate contact;
  attempt_among (world i) (env i) socket mediaPath contact phone
    personalizedMessage ;;
  waitBeforeNext_among (world i) (env i) socket i total.

Fixpoint loop_among (world : Meanwhile) (env : Env) (socket : bool)
  (total : nat) (messageTemplate mediaPath : option string)
  (i : nat) (rest : list Contact) : M Exit :=
  match rest with
  | [] => mret Completed
  | contact :: rest' =>
      session ← get;
      if negb (sendingInProgress session) then
        log LogStopped ;; mret Stopped
      else
        allowed ← lift (checkDailyLimit (env_today (env i)));
        if negb allowed then
          session ← get;
          log (LogLimitReached (Settings.dailyLimit (settings session))) ;;
          emit socket
            (limit_reached (Settings.dailyLimit (settings session))) ;;
          mret QuotaExhausted
        else
          iteration_among world env socket total messageTemplate mediaPath
            i contact ;;
          loop_among world env socket total messageTemplate mediaPath
            (S i) rest'
  end.

(** [processBulkSend] among other requests. *)
Definition processBulkSend_among (world : Meanwhile) (env : Env)
  (contacts : list Contact) (messageTemplate mediaPath : option string)
  : M Exit :=
  session ← get;
  let socket := hasSocket session in
  log (LogStarting (Z.of_nat (length contacts))) ;;
  exit ← loop_among world env socket (length contacts) messageTemplate
           mediaPath 0 contacts;
  modify (set_sendingInProgress false) ;;
  session ← get;
  effect (SaveSessionData (settings session) (dailyCounter session)) ;;
  emit socket (bulk_complete (currentJob session)) ;;
  job ← get_job;
  log (LogCompleted (sent job) (failed job)) ;;
  mret exit.

(** The suspensions of a run during which nothing but stop requests is
    served, as [env] has them. *)
Definition stop_if (stopRequested : bool) (st : State) : State :=
  if stopRequested then (set_sendingInProgress false (fst st), snd st)
  else st.

Definition stops_only (env : Env) : Meanwhile :=
  fun i suspension =>
    match suspension with
    | InRest => stop_if (env_stopDuringRest (env i))
    | InRegistration => stop_if (env_stopDuringSend (env i))
    | InDelay => stop_if (env_stopDuringDelay (env i))
    | _ => fun st => st
    end.

(** A stop request served for the session of the run, which is the one
    under [sessionId]. *)
Definition serve_stop (sessionId : string) (st : State) : State :=
  match snd (post_stop sessionId {[ sessionId := fst st ]}) !! sessionId with
  | Some session => (session, snd st)
  | None => st
  end.

(** A start request served for it; when it is accepted, the run that it
    sets off goes to its end, with nothing else served meanwhile. *)
Definition serve_start (env : Env) (sessionId : string) (body : BulkBody)
  (st : State) : State :=
  match background_run env sessionId body {[ sessionId := fst st ]} with
  | Some (_, (session, trace)) => (session, snd st ++ trace)
  | None => st
  end.

(** What happens meanwhile leaves the daily counter and the settings
    alone. *)
Definition keeps_quota (world : Meanwhile) : Prop :=
  forall i suspension st,
    dailyCounter (fst (world i suspension st)) = dailyCounter (fst st)
    /\ settings (fst (world i suspension st)) = settings (fst st).

(** Two blocks that do the same on every state. *)
Definition same {A} (m m' : M A) : Prop := forall st, m st = m' st.

(** A block that leaves the settings and the date of the daily counter
    alone and adds at most [k] to its count, however it ends. *)
Definition steady {A} (k : Z) (m : M A) : Prop :=
  forall st : State,
    settings (fst (snd (m st))) = settings (fst st)
    /\ date (dailyCounter (fst (snd (m st)))) = date (dailyCounter (fst st))
    /\ count (dailyCounter (fst st)) <= count (dailyCounter (fst (snd (m st))))
       <= count (dailyCounter (fst st)) + k.


(** ** Sample data used by the instances below *)

Definition sample_contact : Contact := mkContact (Some "0812") (Some "Sari").
Definition sample_template : string := "Halo {Nama}, nomor {NOMOR}!".

Definition sample_today : string := "Mon Nov 02 2026".
Definition sample_tomorrow : string := "Tue Nov 03 2026".

(** A connected session with the default settings and a live socket. *)
Definition sample_session : Session :=
  set_hasSocket true (set_isReady true (createSession sample_today)).

(** The same with the day's quota used up. *)
Definition sample_session_at_limit : Session :=
  set_dailyCounter (mkDaily sample_today 300) sample_session.

(** An iteration in which the number is registered, the message is
    delivered and no stop request arrives. *)
Definition quiet_step : StepEnv :=
  {| env_today := sample_today;
     env_restDraw := 1 # 2;
     env_stopDuringRest := false;
     env_isRegisteredUser := Normal true;
     env_stopDuringSend := false;
     env_typing := Normal tt;
     env_existsSync := false;
     env_fromFilePath := Normal tt;
     env_sendMessage := Normal tt;
     env_delayDraws := (1 # 2, 1 # 2, 1 # 2);
     env_stopDuringDelay := false |}.

Definition quiet_env : Env := fun _ => quiet_step.

Definition three_contacts : list Contact :=
  [mkContact (Some "0811") (Some "Ani");
   mkContact (Some "0812") (Some "Budi");
   mkContact (Some "0813") None].

(** The server with that one session, under the id ["s1"]. *)
Definition sample_sessions : Sessions := {[ "s1" := sample_session ]}.

Definition sample_body : BulkBody :=
  mkBulkBody (Some three_contacts) (Some "Hi {name}") None.

(** A start request whose only recipient has no number. *)
Definition body_without_phone : BulkBody :=
  mkBulkBody (Some [mkContact None (Some "Ani")]) (Some "Hi {name}") None.

(** A start request with media and no message text. *)
Definition body_without_message : BulkBody :=
  mkBulkBody (Some three_contacts) None (Some "uploads/promo.png").

(** A settings request that carries only [batchSize]. *)
Definition batchSize_body (b : Z) : SettingsBody :=
  mkSettingsBody None None (Some b) None None None None None None None None.

(** The server after a settings request with [batchSize = b]. *)
Definition sessions_with_batchSize (b : Z) : Sessions :=
  snd (fst (post_settings "s1" (batchSize_body b) sample_sessions)).


(** The second recipient is not registered. *)
Definition unregistered_second_env : Env :=
  fun i =>
    match i with
    | 1%nat =>
        {| env_today := sample_today;
           env_restDraw := 1 # 2;
           env_stopDuringRest := false;
           env_isRegisteredUser := Normal false;
           env_stopDuringSend := false;
           env_typing := Normal tt;
           env_existsSync := false;
           env_fromFilePath := Normal tt;
           env_sendMessage := Normal tt;
           env_delayDraws := (1 # 2, 1 # 2, 1 # 2);
           env_stopDuringDelay := false |}
    | _ => quiet_step
    end.


(** The final state of a run, when it has one. *)
Definition final_state (run : option (Completion Exit * State))
  : option State :=
  match run with
  | Some (_, st) => Some st
  | None => None
  end.

(** The final job of a run: its counters and the number of its result
    entries. *)
Definition final_counts (run : option (Completion Exit * State))
  : option (Z * Z * Z * nat) :=
  match final_state run with
  | Some st =>
      match currentJob (fst st) with
      | Some job =>
          Some (total job, sent job, failed job, length (results job))
      | None => None
      end
  | None => None
  end.


(** Every typing simulation fails; everything else goes well. *)
Definition typing_fails_env : Env :=
  fun _ =>
    {| env_today := sample_today;
       env_restDraw := 1 # 2;
       env_stopDuringRest := false;
       env_isRegisteredUser := Normal true;
       env_stopDuringSend := false;
       env_typing := Thrown "Evaluation failed";
       env_existsSync := false;
       env_fromFilePath := Normal tt;
       env_sendMessage := Normal tt;
       env_delayDraws := (1 # 2, 1 # 2, 1 # 2);
       env_stopDuringDelay := false |}.

(** The final state of the run on [sample_body] under that environment. *)
Definition typing_failed_state : State :=
  Eval vm_compute in
    default (sample_session, [])
      (final_state
         (background_run typing_fails_env "s1" sample_body sample_sessions)).


(** A stop request is served while the first attempt is suspended, and
    nothing else happens. *)
Definition stop_in_send_env : Env :=
  fun i =>
    match i with
    | 0%nat =>
        {| env_today := sample_today;
           env_restDraw := 1 # 2;
           env_stopDuringRest := false;
           env_isRegisteredUser := Normal true;
           env_stopDuringSend := true;
           env_typing := Normal tt;
           env_existsSync := false;
           env_fromFilePath := Normal tt;
           env_sendMessage := Normal tt;
           env_delayDraws := (1 # 2, 1 # 2, 1 # 2);
           env_stopDuringDelay := false |}
    | _ => quiet_step
    end.

(** The server whose one session has used up the day's quota. *)
Definition sessions_at_limit : Sessions :=
  {[ "s1" := sample_session_at_limit ]}.



(** Three rows of a contact file: the number under [phone], under
    [Nomor], and under a header that is not looked at. *)
Definition sample_rows : list FileRow :=
  [ {[ "phone" := "0811"; "name" := "Ani" ]};
    {[ "Nomor" := "0812"; "nomor" := ""; "Nama" := "Budi" ]};
    {[ "PHONE" := "0813"; "name" := "Cici" ]} ].



(** A start request for one recipient. *)
Definition second_body : BulkBody :=
  mkBulkBody (Some [mkContact (Some "0899") (Some "Dewi")])
    (Some "Hi {name}") None.

(** While the registration check of the first recipient is pending, a stop
    request and then a start request for one recipient are served, and
    the run of that second request goes to its end. *)
Definition second_start : Meanwhile :=
  fun i suspension st =>
    match i, suspension with
    | 0%nat, InRegistration =>
        serve_start quiet_env "s1" second_body (serve_stop "s1" st)
    | _, _ => st
    end.

(** The sample session with one message left of the day's quota. *)
Definition sample_session_near_limit : Session :=
  set_dailyCounter (mkDaily sample_today 299) sample_session.


(** The first run of the two, on the session as the first start request
    leaves it. *)
Definition second_start_run : Completion Exit * State :=
  processBulkSend_among second_start quiet_env three_contacts
    (Some "Hi {name}") None (started_session 3 sample_session, []).

(** The job that it leaves. *)
Definition second_start_job : Job :=
  Eval vm_compute in
    default (mkJob 0 0 0 []) (currentJob (fst (snd second_start_run))).

(** * Part II: properties *)

(** ** The program on small inputs *)

Example formatPhoneNumber_local :
  formatPhoneNumber "0812-3456 789" = "628123456789@c.us".
Proof. reflexivity. Qed.

Example formatPhoneNumber_intl :
  formatPhoneNumber "+62 812 3456" = "628123456@c.us".
Proof. reflexivity. Qed.

Example replaceVariables_both :
  replaceVariables "Halo {Nama}, nomor {NOMOR}!"
    (mkContact (Some "0812") (Some "Sari")) = "Halo Sari, nomor 0812!".
Proof. reflexivity. Qed.

Example replaceVariables_no_name :
  replaceVariables "Hi {name}{nama}." (mkContact (Some "1") None) = "Hi .".
Proof. reflexivity. Qed.

Example replaceVariables_dollar :
  replaceVariables "a {name} b" (mkContact None (Some "<$&|$`|$'|$$|$1>"))
  = "a <{name}|a | b|$|$1> b".
Proof. reflexivity. Qed.

Example getHumanizedDelay_warmup_low :
  getHumanizedDelay 0 (1 # 2) 0 (createSession "Mon Nov 02 2026") = 15000.
Proof. reflexivity. Qed.

Example getHumanizedDelay_warmup_high_pause :
  getHumanizedDelay (99 # 100) 0 (99 # 100) (createSession "Mon Nov 02 2026")
  = 54000.
Proof. reflexivity. Qed.

Example needsBatchRest_25 :
  map (needsBatchRest (createSession "d")) [0; 1; 24; 25; 26; 50]
  = [false; false; false; true; false; true].
Proof. reflexivity. Qed.

(** ** Address normalization *)

Section StrFacts.
Import Str.

Lemma strip_all_digits s : all_digits (strip_non_digits s) = true.
Proof.
  induction s as [|c s IH]; simpl; [reflexivity|].
  destruct (is_digit c) eqn:E; simpl; [rewrite E|]; auto.
Qed.

Lemma strip_app s t :
  strip_non_digits (s +:+ t) = strip_non_digits s +:+ strip_non_digits t.
Proof.
  induction s as [|c s IH]; simpl; [reflexivity|].
  destruct (is_digit c); simpl; now rewrite IH.
Qed.

Lemma strip_digits_id s : all_digits s = true -> strip_non_digits s = s.
Proof.
  induction s as [|c s IH]; simpl; [reflexivity|].
  intros [Hc Hs]%andb_prop. rewrite Hc, IH; auto.
Qed.

Lemma digits_no_at s : all_digits s = true -> includes_char "@"%char s = false.
Proof.
  induction s as [|c s IH]; cbn [includes_char all_digits]; [reflexivity|].
  intros [Hc Hs]%andb_prop. rewrite IH by assumption.
  rewrite orb_false_r.
  destruct (Ascii.eqb_spec "@"%char c) as [<-|]; [|reflexivity].
  discriminate Hc.
Qed.

Lemma append_empty_r s : s +:+ "" = s.
Proof. induction s; simpl; congruence. Qed.

End StrFacts.

(** The shape of every normalized address: a digit string that does not
    start with [0], followed by the domain suffix. *)
Lemma formatPhoneNumber_shape phone :
  exists d, formatPhoneNumber phone = d +:+ "@c.us"
            /\ Str.all_digits d = true
            /\ Str.starts_with_char "0"%char d = false.
Proof.
  unfold formatPhoneNumber.
  pose proof (strip_all_digits phone) as Hd.
  destruct (Str.strip_non_digits phone) as [|c s] eqn:E.
  - exists ""; simpl; auto.
  - cbn [Str.starts_with_char]. destruct (Ascii.eqb "0"%char c) eqn:E0.
    + apply Ascii.eqb_eq in E0. subst c. cbn [Str.substring1].
      exists ("62" +:+ s).
      assert (Hall : Str.all_digits ("62" +:+ s) = true) by exact Hd.
      rewrite (digits_no_at _ Hall). cbn [negb Str.starts_with_char]. auto.
    + exists (String c s). rewrite (digits_no_at _ Hd).
      cbn [negb Str.starts_with_char]. auto.
Qed.

(** C10. Normalization is idempotent: normalizing a normalized address
    gives the same address back, for every input string. *)
Theorem formatPhoneNumber_idempotent (s : string) :
  formatPhoneNumber (formatPhoneNumber s) = formatPhoneNumber s.
Proof.
  destruct (formatPhoneNumber_shape s) as (d & -> & Hd & H0).
  unfold formatPhoneNumber.
  rewrite strip_app, (strip_digits_id d Hd).
  change (Str.strip_non_digits "@c.us") with "".
  rewrite append_empty_r, H0, (digits_no_at d Hd). reflexivity.
Qed.

(** ** Personalization *)

Section RegexFacts.
Import Regex.

Lemma replace_go_no_match pat repl s :
  occurs pat s = false ->
  forall before, replace_go pat repl 0 before s = s.
Proof.
  induction s as [|c s IH]; intros Hocc before; [reflexivity|].
  cbn [occurs] in Hocc. apply orb_false_elim in Hocc as [Hm Hs].
  cbn [replace_go]. rewrite Hm. f_equal. now apply IH.
Qed.

Lemma replace_all_no_match pat repl s :
  occurs pat s = false -> replace_all pat repl s = s.
Proof. intros H. now apply replace_go_no_match. Qed.

End RegexFacts.

(** Without a placeholder in it, a template is left as it is. *)
Lemma replaceVariables_fixed s contact :
  has_placeholder s = false -> replaceVariables s contact = s.
Proof.
  unfold has_placeholder, replaceVariables. intros H.
  apply orb_false_elim in H as [H H4].
  apply orb_false_elim in H as [H H3].
  apply orb_false_elim in H as [H1 H2].
  cbv zeta.
  rewrite (replace_all_no_match "{name}") by assumption.
  rewrite (replace_all_no_match "{nama}") by assumption.
  rewrite (replace_all_no_match "{phone}") by assumption.
  now apply replace_all_no_match.
Qed.

(** C9. Substitution is idempotent on its own output: when one application
    leaves no recognized placeholder, a second application with the same
    contact returns that result unchanged. *)
Theorem replaceVariables_idempotent (template : string) (contact : Contact) :
  has_placeholder (replaceVariables template contact) = false ->
  replaceVariables (replaceVariables template contact) contact
  = replaceVariables template contact.
Proof. apply replaceVariables_fixed. Qed.

Lemma replaceVariables_idempotent_witness :
  has_placeholder (replaceVariables sample_template sample_contact) = false
  /\ replaceVariables (replaceVariables sample_template sample_contact)
       sample_contact
     = replaceVariables sample_template sample_contact.
Proof.
  split; [reflexivity|].
  apply (replaceVariables_idempotent sample_template sample_contact).
  reflexivity.
Defined.

(** ** Batch scheduler *)

(** C6. For a positive batch size the predicate holds exactly at the
    positive indices that are multiples of the batch size, and at index 0
    it is false under every configuration. *)
Theorem needsBatchRest_spec (session : Session) (i : Z) :
  (0 < Settings.batchSize (settings session) ->
   needsBatchRest session i
   = (0 <? i) && (i mod Settings.batchSize (settings session) =? 0))
  /\ needsBatchRest session 0 = false.
Proof.
  split; [|reflexivity].
  intros Hb. unfold needsBatchRest, js_rem.
  destruct (Z.ltb_spec 0 i) as [Hi|Hi]; [|reflexivity].
  cbn [andb]. destruct (Z.eqb_spec (Settings.batchSize (settings session)) 0);
    [lia|].
  cbn [is_zero]. rewrite Z.rem_mod_nonneg by lia. reflexivity.
Qed.

Lemma needsBatchRest_spec_witness :
  0 < Settings.batchSize (settings sample_session)
  /\ needsBatchRest sample_session 50
     = (0 <? 50) && (50 mod Settings.batchSize (settings sample_session) =? 0).
Proof.
  split; [reflexivity|].
  apply (proj1 (needsBatchRest_spec sample_session 50)). reflexivity.
Defined.

(** ** Daily quota *)

Lemma checkDailyLimit_same_day today session :
  date (dailyCounter session) = today ->
  checkDailyLimit today session
  = (count (dailyCounter session) <? Settings.dailyLimit (settings session),
     session).
Proof.
  intros <-. unfold checkDailyLimit. now rewrite String.eqb_refl.
Qed.

Lemma checkDailyLimit_times_at_limit n today session :
  date (dailyCounter session) = today ->
  count (dailyCounter session) = Settings.dailyLimit (settings session) ->
  checkDailyLimit_times n today session = (repeat false n, session).
Proof.
  intros Hd Hc. induction n as [|n IH]; [reflexivity|].
  cbn [checkDailyLimit_times]. rewrite checkDailyLimit_same_day by assumption.
  rewrite IH, Hc, Z.ltb_irrefl. reflexivity.
Qed.

(** C4. The quota check. On a new day it resets the daily counter to
    [{date: today, count: 0}] and the session counter to 0; on the stored
    day it leaves the session as it is. Its answer is whether the count,
    after the reset if any, is below the limit. Hence with the count at
    the limit every call on the stored day answers false, and the first
    call on another day answers true when the limit is positive. *)
Theorem checkDailyLimit_spec (today : string) (session : Session) :
  let allowed := fst (checkDailyLimit today session) in
  let session' := snd (checkDailyLimit today session) in
  (date (dailyCounter session) <> today ->
   dailyCounter session' = mkDaily today 0 /\ sessionCounter session' = 0)
  /\ (date (dailyCounter session) = today -> session' = session)
  /\ settings session' = settings session
  /\ allowed
     = (count (dailyCounter session') <? Settings.dailyLimit (settings session))
  /\ (count (dailyCounter session) = Settings.dailyLimit (settings session) ->
      date (dailyCounter session) = today ->
      forall n, checkDailyLimit_times n today session
                = (repeat false n, session))
  /\ (0 < Settings.dailyLimit (settings session) ->
      date (dailyCounter session) <> today ->
      allowed = true /\ count (dailyCounter session') = 0).
Proof.
  cbv zeta. unfold checkDailyLimit.
  destruct (String.eqb_spec (date (dailyCounter session)) today) as [E|E];
    cbn [negb fst snd].
  - repeat split; try easy.
    intros Hc _ n. now apply checkDailyLimit_times_at_limit.
  - repeat split; try easy.
    cbn. now apply Z.ltb_lt.
Qed.

Lemma checkDailyLimit_spec_witness :
  checkDailyLimit_times 3 sample_today sample_session_at_limit
  = ([false; false; false], sample_session_at_limit)
  /\ fst (checkDailyLimit sample_tomorrow sample_session_at_limit) = true
  /\ count (dailyCounter
              (snd (checkDailyLimit sample_tomorrow sample_session_at_limit)))
     = 0.
Proof.
  pose proof (checkDailyLimit_spec sample_today sample_session_at_limit)
    as (_ & _ & _ & _ & Hsame & _).
  pose proof (checkDailyLimit_spec sample_tomorrow sample_session_at_limit)
    as (_ & _ & _ & _ & _ & Hnext).
  split.
  - apply (Hsame eq_refl eq_refl 3%nat).
  - apply Hnext; [reflexivity | discriminate].
Defined.

(** ** Binary64 rounding *)

Section DoubleFacts.
Import Double.

Lemma two_pos (e : Z) : (0 < 2 ^ e)%Q.
Proof. apply Qpower_0_lt. reflexivity. Qed.

Lemma two_inject (n : Z) : 0 <= n -> (2 ^ n == inject_Z (2 ^ n))%Q.
Proof. intros H. symmetry. exact (Zpower_Qpower 2 n H). Qed.

Lemma two_succ (e : Z) : (2 ^ (e + 1) == 2 * 2 ^ e)%Q.
Proof.
  rewrite Qpower_plus by discriminate. rewrite Qpower_1_r. ring.
Qed.

Lemma two_minus (a b : Z) : (2 ^ (a - b) == 2 ^ a / 2 ^ b)%Q.
Proof. apply Qpower_minus. discriminate. Qed.

Lemma Qdiv_lt_le (p p' q q' : Q) :
  (0 < p -> p < p' -> 0 < q' -> q' <= q -> p / q < p' / q')%Q.
Proof.
  intros Hp Hpp Hq' Hq.
  assert (H0 : (0 < q)%Q) by lra.
  apply Qlt_shift_div_r; [exact H0|].
  assert (E : (p' / q' * q == p' * (q / q'))%Q) by (field; lra).
  rewrite E.
  assert (H1 : (1 <= q / q')%Q) by (apply Qle_shift_div_l; lra).
  assert (H2 : (p' * 1 <= p' * (q / q'))%Q).
  { apply Qmult_le_l; [lra | exact H1]. }
  lra.
Qed.

Lemma Qdiv_le_lt (p p' q q' : Q) :
  (0 < p -> p <= p' -> 0 < q' -> q' < q -> p / q < p' / q')%Q.
Proof.
  intros Hp Hpp Hq' Hq.
  assert (H0 : (0 < q)%Q) by lra.
  apply Qlt_shift_div_r; [exact H0|].
  assert (E : (p' / q' * q == p' * (q / q'))%Q) by (field; lra).
  rewrite E.
  assert (H1 : (1 < q / q')%Q) by (apply Qlt_shift_div_l; lra).
  assert (H2 : (p' * 1 < p' * (q / q'))%Q).
  { apply Qmult_lt_l; [lra | exact H1]. }
  lra.
Qed.

(** The exponent brackets a positive number between two powers of 2. *)
Lemma exponent_spec (x : Q) :
  (0 < x)%Q -> (2 ^ exponent x <= x /\ x < 2 ^ (exponent x + 1))%Q.
Proof.
  intros Hx. destruct x as [p q]. unfold exponent. cbn [Qnum Qden].
  assert (Hp : 0 < p) by (unfold Qlt in Hx; cbn in Hx; lia).
  destruct (Z.log2_spec p Hp) as [Ha1 Ha2].
  destruct (Z.log2_spec (Zpos q) ltac:(lia)) as [Hb1 Hb2].
  set (a := Z.log2 p) in *. set (b := Z.log2 (Zpos q)) in *.
  assert (Ha : 0 <= a) by apply Z.log2_nonneg.
  assert (Hb : 0 <= b) by apply Z.log2_nonneg.
  assert (Ex : (p # q == inject_Z p / inject_Z (Zpos q))%Q)
    by apply Qmake_Qdiv.
  assert (P0 : (0 < inject_Z p)%Q)
    by (change 0%Q with (inject_Z 0); now rewrite <- Zlt_Qlt).
  assert (Q0 : (0 < inject_Z (Zpos q))%Q) by reflexivity.
  assert (Hup : (p # q < 2 ^ (a - b + 1))%Q).
  { replace (a - b + 1) with ((a + 1) - b) by lia.
    rewrite two_minus, Ex.
    apply Qdiv_lt_le; [exact P0 | | apply two_pos |].
    - rewrite two_inject by lia. rewrite <- Zlt_Qlt.
      replace (a + 1) with (Z.succ a) by lia. exact Ha2.
    - rewrite two_inject by lia. now rewrite <- Zle_Qle. }
  assert (Hlo : (2 ^ (a - b - 1) < p # q)%Q).
  { replace (a - b - 1) with (a - (b + 1)) by lia.
    rewrite two_minus, Ex.
    apply Qdiv_le_lt; [apply two_pos | | exact Q0 |].
    - rewrite two_inject by lia. now rewrite <- Zle_Qle.
    - rewrite two_inject by lia. rewrite <- Zlt_Qlt.
      replace (b + 1) with (Z.succ b) by lia. exact Hb2. }
  destruct (Qle_bool (2 ^ (a - b)) (p # q)) eqn:E.
  - apply Qle_bool_iff in E. split; assumption.
  - split; [now apply Qlt_le_weak|].
    replace (a - b - 1 + 1) with (a - b) by lia.
    apply Qnot_le_lt. intros H. apply Qle_bool_iff in H. congruence.
Qed.

Lemma exponent_le (x : Q) (n : Z) :
  (0 < x)%Q -> (x < 2 ^ n)%Q -> exponent x < n.
Proof.
  intros Hx Hn. destruct (exponent_spec x Hx) as [Hlo _].
  destruct (Z.lt_ge_cases (exponent x) n) as [H|H]; [exact H|].
  exfalso. assert (H2 : (2 ^ n <= 2 ^ exponent x)%Q).
  { apply Qpower_le_compat_l; [exact H | discriminate]. }
  lra.
Qed.

Lemma exponent_ge (x : Q) (n : Z) :
  (2 ^ n <= x)%Q -> n <= exponent x.
Proof.
  intros Hn.
  assert (Hx : (0 < x)%Q) by (pose proof (two_pos n); lra).
  destruct (exponent_spec x Hx) as [_ Hhi].
  destruct (Z.le_gt_cases n (exponent x)) as [H|H]; [exact H|].
  exfalso. assert (H2 : (2 ^ (exponent x + 1) <= 2 ^ n)%Q).
  { apply Qpower_le_compat_l; [lia | discriminate]. }
  lra.
Qed.

(** Rounding to the nearest integer stays between the integers around. *)
Lemma nearest_even_ge (y : Q) (a : Z) :
  (inject_Z a <= y)%Q -> a <= nearest_even y.
Proof.
  intros H. unfold nearest_even.
  assert (Hf : a <= Qfloor y).
  { rewrite <- (Qfloor_Z a). now apply Qfloor_resp_le. }
  destruct (_ ?= _)%Q; [destruct (Z.even _)| |]; lia.
Qed.

Lemma nearest_even_lt_half (y : Q) (b : Z) :
  (y < inject_Z b - (1 # 2))%Q -> nearest_even y <= b - 1.
Proof.
  intros H. unfold nearest_even.
  pose proof (Qfloor_le y) as Hlo.
  assert (Hf : Qfloor y <= b - 1).
  { assert (H1 : (inject_Z (Qfloor y) < inject_Z b)%Q) by lra.
    rewrite <- Zlt_Qlt in H1. lia. }
  assert (Hup : (1 # 2 <= y - inject_Z (Qfloor y))%Q -> Qfloor y + 1 <= b - 1).
  { intros Hd.
    assert (H1 : (inject_Z (Qfloor y) < inject_Z (b - 1))%Q).
    { unfold Z.sub. rewrite inject_Z_plus, inject_Z_opp.
      change (inject_Z 1) with 1%Q. lra. }
    rewrite <- Zlt_Qlt in H1. lia. }
  destruct (Qcompare_spec (y - inject_Z (Qfloor y)) (1 # 2)) as [E|E|E].
  - destruct (Z.even _); [lia | apply Hup; lra].
  - lia.
  - apply Hup. lra.
Qed.

Lemma nearest_even_le (y : Q) (b : Z) :
  (y <= inject_Z b)%Q -> nearest_even y <= b.
Proof.
  intros H. unfold nearest_even.
  pose proof (Qfloor_le y) as Hlo.
  assert (Hf : Qfloor y <= b).
  { assert (H1 : (inject_Z (Qfloor y) <= inject_Z b)%Q) by lra.
    now rewrite <- Zle_Qle in H1. }
  assert (Hup : (1 # 2 <= y - inject_Z (Qfloor y))%Q -> Qfloor y + 1 <= b).
  { intros Hd.
    assert (H1 : (inject_Z (Qfloor y) < inject_Z b)%Q) by lra.
    rewrite <- Zlt_Qlt in H1. lia. }
  destruct (Qcompare_spec (y - inject_Z (Qfloor y)) (1 # 2)) as [E|E|E].
  - destruct (Z.even _); [lia | apply Hup; lra].
  - lia.
  - apply Hup. lra.
Qed.

(** The rounded value, for a number that is not 0, on the grid of its
    exponent. *)
Lemma round_nonzero (x : Q) :
  ~ (x == 0)%Q ->
  round x
  = (inject_Z (nearest_even
                 (x * 2 ^ (52 - Z.max (exponent (Qabs x)) (-1022))))
     * 2 ^ (- (52 - Z.max (exponent (Qabs x)) (-1022))))%Q.
Proof.
  intros H. unfold round.
  destruct (Qeq_bool x 0) eqn:E; [|reflexivity].
  apply Qeq_bool_iff in E. contradiction.
Qed.

Lemma round_zero (x : Q) : (x == 0)%Q -> round x = 0%Q.
Proof.
  intros H. unfold round. apply Qeq_bool_iff in H. now rewrite H.
Qed.

Lemma scale_back (m : Z) (k : Z) (c : Q) :
  (inject_Z m <= c * 2 ^ k -> inject_Z m * 2 ^ (- k) <= c)%Q.
Proof.
  intros H. pose proof (two_pos k) as Hk.
  rewrite Qpower_opp.
  apply Qle_shift_div_r in H; [|exact Hk]. exact H.
Qed.

Lemma scale_back_ge (m : Z) (k : Z) (c : Q) :
  (c * 2 ^ k <= inject_Z m -> c <= inject_Z m * 2 ^ (- k))%Q.
Proof.
  intros H. pose proof (two_pos k) as Hk.
  rewrite Qpower_opp.
  apply Qle_shift_div_l in H; [|exact Hk]. exact H.
Qed.

(** On numbers of magnitude below [2^53] rounding does not cross an
    integer: between two integers the rounded value stays between
    them. *)
Lemma round_between (x : Q) (a b : Z) :
  (Qabs x < 2 ^ 53)%Q ->
  (inject_Z a <= x)%Q -> (x <= inject_Z b)%Q ->
  (inject_Z a <= round x /\ round x <= inject_Z b)%Q.
Proof.
  intros Hx Ha Hb.
  destruct (Qeq_dec x 0) as [E|E].
  { rewrite (round_zero x E). rewrite E in Ha, Hb. now split. }
  rewrite (round_nonzero x E).
  assert (Hpos : (0 < Qabs x)%Q).
  { destruct (Qlt_le_dec 0 (Qabs x)) as [H|H]; [exact H|].
    exfalso. apply E. apply Qabs_Qle_condition in H. lra. }
  pose proof (exponent_le (Qabs x) 53 Hpos Hx) as He.
  set (k := 52 - Z.max (exponent (Qabs x)) (-1022)).
  assert (Hk : 0 <= k) by (unfold k; lia).
  pose proof (two_pos k) as H2.
  pose proof (two_inject k Hk) as EQ.
  assert (Hlo : a * 2 ^ k <= nearest_even (x * 2 ^ k)).
  { apply nearest_even_ge. rewrite inject_Z_mult, <- EQ.
    apply Qmult_le_compat_r; [exact Ha | lra]. }
  assert (Hhi : nearest_even (x * 2 ^ k) <= b * 2 ^ k).
  { apply nearest_even_le. rewrite inject_Z_mult, <- EQ.
    apply Qmult_le_compat_r; [exact Hb | lra]. }
  set (m := nearest_even (x * 2 ^ k)) in *. clearbody m.
  rewrite Zle_Qle, inject_Z_mult, <- EQ in Hlo, Hhi.
  split; [now apply scale_back_ge | now apply scale_back].
Qed.

Lemma Qabs_eq (x : Q) : (0 <= x)%Q -> Qabs x = x.
Proof.
  destruct x as [p q]. unfold Qle, Qabs. cbn. intros H.
  f_equal. apply Z.abs_eq. lia.
Qed.

Lemma Qfloor_lt (x : Q) (n : Z) : (x < inject_Z n)%Q -> Qfloor x < n.
Proof.
  intros H. pose proof (Qfloor_le x) as Hlo.
  rewrite Zlt_Qlt. lra.
Qed.

Lemma Qfloor_ge (x : Q) (n : Z) : (inject_Z n <= x)%Q -> n <= Qfloor x.
Proof.
  intros H. rewrite <- (Qfloor_Z n). now apply Qfloor_resp_le.
Qed.

(** [Math.floor(r * 20)] on a draw below 1: a double below 1 is at most
    [1 - 2^-53], and the product stays below 20 after rounding. *)
Lemma floor_mul_20 (r : Q) :
  (0 <= r)%Q -> (r <= 1 - (1 # 2 ^ 53))%Q ->
  0 <= Qfloor (mul r 20) <= 19.
Proof.
  intros H0 H1. unfold mul.
  assert (Hx0 : (inject_Z 0 <= r * 20)%Q) by (change (inject_Z 0) with 0%Q; lra).
  assert (Hx20 : (r * 20 <= 20 - (20 # 2 ^ 53))%Q).
  { assert (E : (20 - (20 # 2 ^ 53) == (1 - (1 # 2 ^ 53)) * 20)%Q)
      by reflexivity.
    rewrite E. lra. }
  assert (Habs : (Qabs (r * 20) < 2 ^ 53)%Q).
  { rewrite Qabs_pos by (change (inject_Z 0) with 0%Q in Hx0; exact Hx0).
    apply Qle_lt_trans with (1 := Hx20). reflexivity. }
  split.
  - apply Qfloor_ge. apply (round_between (r * 20) 0 20 Habs Hx0).
    apply Qle_trans with (1 := Hx20). discriminate.
  - assert (Hgoal : Qfloor (round (r * 20)) < 20); [|lia].
    destruct (Qlt_le_dec (r * 20) 16) as [Hs|Hs].
    + assert (Hr : (round (r * 20) <= inject_Z 16)%Q).
      { apply (round_between (r * 20) 0 16 Habs Hx0).
        now apply Qlt_le_weak. }
      apply Qfloor_lt. apply Qle_lt_trans with (1 := Hr). reflexivity.
    + assert (Hne : ~ (r * 20 == 0)%Q) by (intros E; rewrite E in Hs; exact (Hs eq_refl)).
      rewrite (round_nonzero _ Hne).
      rewrite Qabs_eq by (change (inject_Z 0) with 0%Q in Hx0; exact Hx0).
      assert (He : exponent (r * 20) = 4).
      { assert (A : 4 <= exponent (r * 20)) by (apply exponent_ge; exact Hs).
        assert (B : exponent (r * 20) < 5).
        { apply exponent_le; [|].
          - apply Qlt_le_trans with (2 := Hs). reflexivity.
          - apply Qle_lt_trans with (1 := Hx20). reflexivity. }
        lia. }
      rewrite He. change (52 - Z.max 4 (-1022)) with 48.
      assert (Hm : nearest_even (r * 20 * 2 ^ 48) <= 20 * 2 ^ 48 - 1).
      { apply nearest_even_lt_half.
        apply Qle_lt_trans with ((20 - (20 # 2 ^ 53)) * 2 ^ 48)%Q.
        - apply Qmult_le_compat_r; [exact Hx20 | discriminate].
        - reflexivity. }
      set (m := nearest_even _) in *. clearbody m.
      apply Qfloor_lt.
      apply Qle_lt_trans with (inject_Z (20 * 2 ^ 48 - 1) * 2 ^ (-48))%Q.
      * apply Qmult_le_compat_r; [now rewrite <- Zle_Qle | discriminate].
      * reflexivity.
Qed.

(** [Math.floor(r * n + lo)] with [n = hi - lo + 1] on a draw in [0,1):
    the product and the sum are rounded, and the result lies between
    [lo] and [hi + 1]. *)
Lemma floor_draw_between (r : Q) (lo hi : Z) :
  (0 <= r)%Q -> (r < 1)%Q -> lo <= hi -> - 2 ^ 52 < lo -> hi < 2 ^ 52 ->
  lo <= Qfloor (add (mul r (inject_Z (hi - lo + 1))) (inject_Z lo)) <= hi + 1.
Proof.
  intros H0 H1 Hle Hlo Hhi. unfold add, mul.
  set (n := hi - lo + 1).
  assert (Hn : 0 < n) by (unfold n; lia).
  assert (HN : (0 < inject_Z n)%Q)
    by (change 0%Q with (inject_Z 0); now rewrite <- Zlt_Qlt).
  assert (Hx0 : (inject_Z 0 <= r * inject_Z n)%Q).
  { change (inject_Z 0) with 0%Q. apply Qmult_le_0_compat; lra. }
  assert (Hxn : (r * inject_Z n <= inject_Z n)%Q).
  { rewrite <- (Qmult_1_l (inject_Z n)) at 2.
    apply Qmult_le_compat_r; lra. }
  assert (Hbig : (inject_Z n < 2 ^ 53)%Q).
  { change (2 ^ 53)%Q with (inject_Z (2 ^ 53)). rewrite <- Zlt_Qlt.
    unfold n. lia. }
  assert (Hax : (Qabs (r * inject_Z n) < 2 ^ 53)%Q).
  { rewrite Qabs_pos by (change (inject_Z 0) with 0%Q in Hx0; exact Hx0).
    lra. }
  destruct (round_between _ 0 n Hax Hx0 Hxn) as [Hy0 Hyn].
  set (y := round (r * inject_Z n)) in *. clearbody y.
  change (inject_Z 0) with 0%Q in Hy0.
  assert (Hz0 : (inject_Z lo <= y + inject_Z lo)%Q) by lra.
  assert (Hz1 : (y + inject_Z lo <= inject_Z (hi + 1))%Q).
  { replace (hi + 1) with (n + lo) by (unfold n; lia).
    rewrite inject_Z_plus. lra. }
  assert (Haz : (Qabs (y + inject_Z lo) < 2 ^ 53)%Q).
  { apply Qabs_Qlt_condition.
    assert (B1 : (inject_Z (- 2 ^ 52) < inject_Z lo)%Q)
      by (now rewrite <- Zlt_Qlt).
    assert (B2 : (inject_Z (hi + 1) <= inject_Z (2 ^ 52))%Q)
      by (rewrite <- Zle_Qle; lia).
    change (inject_Z (- 2 ^ 52)) with (- (2 ^ 52))%Q in B1.
    change (inject_Z (2 ^ 52)) with (2 ^ 52)%Q in B2.
    assert (B3 : (2 ^ 52 < 2 ^ 53)%Q) by reflexivity.
    split; lra. }
  destruct (round_between _ lo (hi + 1) Haz Hz0 Hz1) as [Hr0 Hr1].
  split.
  - now apply Qfloor_ge.
  - rewrite <- (Qfloor_Z (hi + 1)). now apply Qfloor_resp_le.
Qed.

End DoubleFacts.

(** ** Delay policy *)

Lemma Qlt_bool_iff (x y : Q) : Qlt_bool x y = true <-> (x < y)%Q.
Proof.
  unfold Qlt_bool. rewrite negb_true_iff, <- not_true_iff_false, Qle_bool_iff.
  split; [apply Qnot_le_lt | apply Qlt_not_le].
Qed.

(** The delay policy under rounding. With the first draw in [0,1), the
    third a double below 1 and the bounds in force ordered, the result is
    [(base + extra) * 1000] milliseconds, where [base] lies between the
    lower bound in force and the upper bound plus one, and [extra] is a
    value in [10, 29] when [addRandomPause] is set and the second draw is
    below the double [0.1], and 0 otherwise. *)
Lemma getHumanizedDelay_range (r1 r2 r3 : Q) (session : Session) :
  (0 <= r1 /\ r1 < 1)%Q ->
  (0 <= r3 /\ r3 <= 1 - (1 # 2 ^ 53))%Q ->
  fst (delay_bounds session) <= snd (delay_bounds session) ->
  - 2 ^ 52 < fst (delay_bounds session) ->
  snd (delay_bounds session) < 2 ^ 52 ->
  exists base extra : Z,
    getHumanizedDelay r1 r2 r3 session = (base + extra) * 1000
    /\ fst (delay_bounds session) <= base <= snd (delay_bounds session) + 1
    /\ (Settings.addRandomPause (settings session) = true ->
        (r2 < Double.round (1 # 10))%Q -> 10 <= extra <= 29)
    /\ (Settings.addRandomPause (settings session) = false
        \/ (Double.round (1 # 10) <= r2)%Q -> extra = 0).
Proof.
  intros [H1a H1b] [H3a H3b] Hle Hlo Hhi.
  unfold getHumanizedDelay, delay_bounds in *. cbv zeta.
  destruct (sessionCounter session
            <? Settings.warmupMessages (settings session));
    cbn [fst snd] in *;
    (eexists;
     destruct (Settings.addRandomPause (settings session)
               && Qlt_bool r2 (Double.round (1 # 10))) eqn:Hcoin;
     [ apply andb_prop in Hcoin as [Hon Hcoin];
       apply Qlt_bool_iff in Hcoin;
       exists (Qfloor (Double.mul r3 20) + 10);
       split; [reflexivity|];
       split; [now apply floor_draw_between|];
       split;
       [ intros _ _; pose proof (floor_mul_20 r3 H3a H3b); lia
       | intros [Hoff|Hge]; [congruence | exfalso; lra] ]
     | exists 0; rewrite Z.add_0_r;
       split; [reflexivity|];
       split; [now apply floor_draw_between|];
       split; [|reflexivity];
       intros Hon Hlt; exfalso; apply Qlt_bool_iff in Hlt;
       rewrite Hon, Hlt in Hcoin; discriminate ]).
Qed.

(** C5. The policy does not keep to the upper bound: at the draw
    [1 - 2^-52], a double below 1, the product [r * 11] rounds to
    [11 - 2^-49] and the sum with 15 to 26, so that under the default
    warm-up bounds 15 and 25 the delay is 26 seconds. *)
Theorem getHumanizedDelay_above_max :
  (0 <= 1 - (1 # 2 ^ 52) /\ 1 - (1 # 2 ^ 52) < 1)%Q
  /\ (Double.round (1 - (1 # 2 ^ 52)) == 1 - (1 # 2 ^ 52))%Q
  /\ delay_bounds sample_session = (15, 25)
  /\ getHumanizedDelay (1 - (1 # 2 ^ 52)) (1 # 2) (1 # 2) sample_session
     = 26000.
Proof.
  split; [split; [discriminate | reflexivity]|].
  split; [vm_compute; reflexivity|].
  split; [reflexivity | vm_compute; reflexivity].
Qed.

(** ** The controller monad and the blocks of the loop *)


Lemma attempts_app tr1 tr2 :
  attempts (tr1 ++ tr2) = (attempts tr1 + attempts tr2)%nat.
Proof.
  induction tr1 as [|e tr1 IH]; [reflexivity|].
  destruct e; cbn [attempts app]; rewrite ?IH; reflexivity.
Qed.

Lemma bind_run {A B} (m : M A) (k : A -> M B) st :
  (m ≫= k) st
  = match m st with
    | (Normal a, st') => k a st'
    | (Thrown message, st') => (Thrown message, st')
    end.
Proof. reflexivity. Qed.

Section Quiet.

Lemma quiet_unchanged {A} (m : M A) :
  (forall st, snd (m st) = st) -> quiet m.
Proof.
  intros H st. rewrite H. split; [reflexivity|]. split; [auto|].
  exists []. now rewrite app_nil_r.
Qed.

Lemma quiet_ret {A} (a : A) : quiet (mret a).
Proof. now apply quiet_unchanged. Qed.

Lemma quiet_throw {A} message : quiet (@throw A message).
Proof. now apply quiet_unchanged. Qed.

Lemma quiet_get : quiet get.
Proof. now apply quiet_unchanged. Qed.

Lemma quiet_gets {A} (f : Session -> A) : quiet (gets f).
Proof. now apply quiet_unchanged. Qed.

Lemma quiet_bind {A B} (m : M A) (k : A -> M B) :
  quiet m -> (forall a, quiet (k a)) -> quiet (m ≫= k).
Proof.
  intros Hm Hk st. rewrite bind_run. specialize (Hm st).
  destruct (m st) as [[a|message] st1]; cbn [fst snd] in *; [|exact Hm].
  specialize (Hk a st1).
  destruct Hm as (Hj & Hf & s1 & Ht & Ha), Hk as (Hj' & Hf' & s2 & Ht' & Ha').
  split; [congruence|]. split; [auto|].
  exists (s1 ++ s2). rewrite Ht', Ht, app_assoc, attempts_app. split; [easy|lia].
Qed.

Lemma quiet_try_catch {A} (m : M A) (h : string -> M A) :
  quiet m -> (forall message, quiet (h message)) -> quiet (try_catch m h).
Proof.
  intros Hm Hh st. unfold try_catch. specialize (Hm st).
  destruct (m st) as [[a|message] st1]; cbn [fst snd] in *; [exact Hm|].
  specialize (Hh message st1).
  destruct Hm as (Hj & Hf & s1 & Ht & Ha), Hh as (Hj' & Hf' & s2 & Ht' & Ha').
  split; [congruence|]. split; [auto|].
  exists (s1 ++ s2). rewrite Ht', Ht, app_assoc, attempts_app. split; [easy|lia].
Qed.

Lemma quiet_effect e :
  attempts [e] = 0%nat -> quiet (effect e).
Proof.
  intros He st. cbn [effect fst snd]. split; [reflexivity|]. split; [auto|].
  now exists [e].
Qed.

Lemma quiet_log message : quiet (log message).
Proof. now apply quiet_effect. Qed.

Lemma quiet_emit socket event : quiet (emit socket event).
Proof. destruct socket; [now apply quiet_effect | apply quiet_ret]. Qed.

Lemma quiet_stop_request : quiet stop_request.
Proof.
  intros st. cbn. split; [reflexivity|]. split; [auto|].
  exists []. now rewrite app_nil_r.
Qed.

Lemma quiet_await {A} call stop (answer : Completion A) :
  attempts [call] = 0%nat -> quiet (await call stop answer).
Proof.
  intros Hc. unfold await.
  apply quiet_bind; [now apply quiet_effect|intros _].
  apply quiet_bind.
  - destruct stop; [apply quiet_stop_request | apply quiet_ret].
  - intros _. destruct answer; [apply quiet_ret | apply quiet_throw].
Qed.

Lemma quiet_simulateTyping e chatId : quiet (simulateTyping e chatId).
Proof.
  unfold simulateTyping. apply quiet_bind; [apply quiet_get|intros session].
  destruct (negb _); [apply quiet_ret|].
  apply quiet_try_catch; [now apply quiet_await | intros _; apply quiet_ret].
Qed.

Lemma quiet_dispatch e mediaPath phone text :
  quiet (dispatch e mediaPath phone text).
Proof.
  unfold dispatch. destruct mediaPath as [path|]; [|now apply quiet_await].
  destruct (truthy (Some path) && env_existsSync e); [|now apply quiet_await].
  apply quiet_bind; [now apply quiet_await | intros _; now apply quiet_await].
Qed.

End Quiet.

Lemma await_run {A} call stop (answer : Completion A) (st : State) :
  await call stop answer st
  = (answer,
     ((if stop then set_sendingInProgress false (fst st) else fst st),
      snd st ++ [call])).
Proof. destruct st, stop, answer; reflexivity. Qed.

(** One step through a bind whose first block is a primitive. *)
Ltac run_step :=
  rewrite bind_run;
  cbn [get gets log effect emit modify mret M_ret fst snd];
  cbv beta.

Lemma restIfDue_run e socket i st :
  exists suffix,
    restIfDue e socket i st
    = (Normal tt,
       ((if needsBatchRest (fst st) (Z.of_nat i) && env_stopDuringRest e
         then set_sendingInProgress false (fst st) else fst st),
        snd st ++ suffix))
    /\ attempts suffix = 0%nat.
Proof.
  destruct st as [s tr]. unfold restIfDue. rewrite bind_run.
  cbn [get fst snd]. destruct (needsBatchRest s (Z.of_nat i)); cbn [andb].
  - destruct socket; repeat run_step;
      unfold sleep; rewrite await_run; cbn [fst snd];
      rewrite <- ?app_assoc; eexists; (split; [reflexivity|]); reflexivity.
  - exists []. now rewrite app_nil_r.
Qed.

Lemma waitBeforeNext_run e socket i total st :
  exists suffix,
    waitBeforeNext e socket i total st
    = (Normal tt,
       ((if (Z.of_nat i <? Z.of_nat total - 1) && sendingInProgress (fst st)
            && env_stopDuringDelay e
         then set_sendingInProgress false (fst st) else fst st),
        snd st ++ suffix))
    /\ attempts suffix = 0%nat
    /\ (sendingInProgress (fst st) = false -> suffix = []).
Proof.
  destruct st as [s tr]. unfold waitBeforeNext. rewrite bind_run.
  cbn [get fst snd].
  destruct ((Z.of_nat i <? Z.of_nat total - 1) && sendingInProgress s) eqn:Hc;
    cbn [andb].
  - destruct (env_delayDraws e) as [[r1 r2] r3].
    apply andb_prop in Hc as [_ Hflag].
    destruct socket; repeat run_step;
      unfold sleep; rewrite await_run; cbn [fst snd];
      rewrite <- ?app_assoc; eexists; (split; [reflexivity|]);
      (split; [reflexivity | congruence]).
  - exists []. now rewrite app_nil_r.
Qed.

Lemma record_success_run socket contact st j :
  currentJob (fst st) = Some j ->
  exists suffix,
    record_success socket contact st
    = (Normal tt,
       (set_currentJob
          (Some (push_result
                   (mkResult (c_phone contact) (c_name contact)
                      StatusSuccess None)
                   (incr_sent j)))
          (incr_sessionCounter (incr_count (fst st))),
        snd st ++ suffix))
    /\ attempts suffix = 0%nat.
Proof.
  destruct st as [[ready st0 daily n flag job0 sock] tr].
  cbn [fst snd currentJob]. intros ->.
  destruct socket;
    cbv [record_success modify_job get_job mbind M_bind mret
         M_ret get modify effect log emit throw fst snd currentJob
         set_currentJob incr_sessionCounter incr_count set_sessionCounter
         set_dailyCounter];
    rewrite <- ?app_assoc; eexists; (split; [reflexivity|]); reflexivity.
Qed.

Lemma record_failure_run socket contact message st j :
  currentJob (fst st) = Some j ->
  exists suffix,
    record_failure socket contact message st
    = (Normal tt,
       (set_currentJob
          (Some (push_result
                   (mkResult (c_phone contact) (c_name contact)
                      StatusFailed (Some message))
                   (incr_failed j)))
          (fst st),
        snd st ++ suffix))
    /\ attempts suffix = 0%nat.
Proof.
  destruct st as [[ready st0 daily n flag job0 sock] tr].
  cbn [fst snd currentJob]. intros ->.
  destruct socket;
    cbv [record_failure modify_job get_job mbind M_bind mret
         M_ret get modify effect log emit throw fst snd currentJob
         set_currentJob incr_sessionCounter incr_count set_sessionCounter
         set_dailyCounter];
    rewrite <- ?app_assoc; eexists; (split; [reflexivity|]); reflexivity.
Qed.

Lemma simulateTyping_run e chatId st :
  exists st', simulateTyping e chatId st = (Normal tt, st').
Proof.
  unfold simulateTyping. rewrite bind_run. cbn [get fst snd].
  destruct (negb _); [now eexists|].
  unfold try_catch. rewrite await_run.
  destruct (env_typing e) as [[]|message]; now eexists.
Qed.

Lemma dispatch_run e mediaPath phone text st :
  exists st',
    dispatch e mediaPath phone text st = (dispatch_outcome e mediaPath, st').
Proof.
  unfold dispatch, dispatch_outcome.
  destruct mediaPath as [path|];
    [|cbn [truthy andb]; rewrite await_run; now eexists].
  destruct (truthy (Some path) && env_existsSync e);
    [|rewrite await_run; now eexists].
  rewrite bind_run, await_run.
  destruct (env_fromFilePath e) as [[]|message]; [|now eexists].
  rewrite await_run. now eexists.
Qed.

(** One attempt, whatever the transport answers: it ends normally, with
    one more result entry, the expected one, counted under its status. *)
Lemma attempt_run e socket mediaPath contact phone text st j :
  currentJob (fst st) = Some j ->
  exists st' suffix,
    attempt e socket mediaPath contact phone text st = (Normal tt, st')
    /\ currentJob (fst st')
       = Some (push_result (expected_entry e mediaPath contact)
                 (bump (r_status (expected_entry e mediaPath contact)) j))
    /\ snd st' = snd st ++ CallIsRegisteredUser phone :: suffix
    /\ attempts suffix = 0%nat
    /\ (sendingInProgress (fst st) = false ->
        sendingInProgress (fst st') = false).
Proof.
  intros Hj. unfold attempt, try_catch.
  rewrite bind_run, await_run.
  set (st1 := (_, snd st ++ [CallIsRegisteredUser phone])).
  assert (Hj1 : currentJob (fst st1) = Some j).
  { subst st1. cbn [fst]. now destruct (env_stopDuringSend e). }
  assert (Ht1 : snd st1 = snd st ++ [CallIsRegisteredUser phone])
    by reflexivity.
  assert (Hf1 : sendingInProgress (fst st) = false ->
                sendingInProgress (fst st1) = false).
  { subst st1. cbn [fst]. now destruct (env_stopDuringSend e). }
  clearbody st1.
  assert (Hfail : forall message st2 s2,
             attempt_failure e mediaPath = Some message ->
             currentJob (fst st2) = Some j ->
             snd st2 = snd st1 ++ s2 -> attempts s2 = 0%nat ->
             (sendingInProgress (fst st1) = false ->
              sendingInProgress (fst st2) = false) ->
             exists st' suffix,
               record_failure socket contact message st2 = (Normal tt, st')
               /\ currentJob (fst st')
                  = Some (push_result (expected_entry e mediaPath contact)
                            (bump (r_status
                                     (expected_entry e mediaPath contact)) j))
               /\ snd st' = snd st ++ CallIsRegisteredUser phone :: suffix
               /\ attempts suffix = 0%nat
               /\ (sendingInProgress (fst st) = false ->
                   sendingInProgress (fst st') = false)).
  { intros message st2 s2 Hwhy E2 T2 A2 F2.
    destruct (record_failure_run socket contact message st2 j E2)
      as (s3 & Hrun & Hs3).
    eexists _, (s2 ++ s3). split; [exact Hrun|]. cbn [fst snd].
    unfold expected_entry. rewrite Hwhy. cbn [r_status bump].
    split; [reflexivity|].
    split; [rewrite T2, Ht1, <- !app_assoc; reflexivity|].
    split; [rewrite attempts_app; lia|].
    intros H0. cbn. auto. }
  destruct (env_isRegisteredUser e) as [[|]|message] eqn:Hreg.
  - cbn [negb]. rewrite bind_run. cbn [mret M_ret].
    rewrite bind_run.
    destruct (quiet_simulateTyping e phone st1) as (Hj2 & Hf2 & s2 & Ht2 & Ha2).
    destruct (simulateTyping_run e phone st1) as (st2 & Htyping).
    rewrite Htyping in *. cbn [fst snd] in *.
    rewrite bind_run.
    destruct (quiet_dispatch e mediaPath phone text st2)
      as (Hj3 & Hf3 & s3 & Ht3 & Ha3).
    destruct (dispatch_run e mediaPath phone text st2) as (st3 & Hdispatch).
    rewrite Hdispatch in *. cbn [fst snd] in *.
    destruct (dispatch_outcome e mediaPath) as [[]|message] eqn:Hout.
    + destruct (record_success_run socket contact st3 j) as (s4 & Hrun & Hs4);
        [congruence|].
      cbv beta. rewrite Hrun.
      eexists _, (s2 ++ s3 ++ s4).
      split; [reflexivity|]. cbn [fst snd].
      unfold expected_entry, attempt_failure. rewrite Hreg, Hout.
      cbn [r_status bump].
      split; [reflexivity|].
      split; [rewrite Ht3, Ht2, Ht1, <- !app_assoc; reflexivity|].
      split; [rewrite !attempts_app; lia|].
      intros H0. cbn. auto.
    + apply (Hfail message st3 (s2 ++ s3));
        [unfold attempt_failure; now rewrite Hreg, Hout
        | congruence | rewrite Ht3, Ht2, app_assoc; reflexivity
        | rewrite attempts_app; lia | auto].
  - cbn [negb]. rewrite bind_run. cbn [throw].
    apply (Hfail "Not registered on WhatsApp" st1 []);
      [unfold attempt_failure; now rewrite Hreg
      | assumption | now rewrite app_nil_r | reflexivity | auto].
  - apply (Hfail message st1 []);
      [unfold attempt_failure; now rewrite Hreg
      | assumption | now rewrite app_nil_r | reflexivity | auto].
Qed.

Lemma checkDailyLimit_frame today s :
  currentJob (snd (checkDailyLimit today s)) = currentJob s
  /\ sendingInProgress (snd (checkDailyLimit today s)) = sendingInProgress s
  /\ settings (snd (checkDailyLimit today s)) = settings s.
Proof.
  unfold checkDailyLimit. now destruct (negb _).
Qed.

Lemma loop_cons env socket total tmpl media i contact rest st :
  loop env socket total tmpl media i (contact :: rest) st
  = if negb (sendingInProgress (fst st)) then
      (Normal Stopped, (fst st, snd st ++ [Log LogStopped]))
    else
      let session := snd (checkDailyLimit (env_today (env i)) (fst st)) in
      if negb (fst (checkDailyLimit (env_today (env i)) (fst st))) then
        (Normal QuotaExhausted,
         (session,
          (snd st
           ++ [Log (LogLimitReached (Settings.dailyLimit (settings session)))])
          ++ (if socket
              then [Emit (limit_reached
                            (Settings.dailyLimit (settings session)))]
              else [])))
      else
        match iteration env socket total tmpl media i contact
                (session, snd st) with
        | (Normal _, st') => loop env socket total tmpl media (S i) rest st'
        | (Thrown message, st') => (Thrown message, st')
        end.
Proof.
  destruct st as [s tr]. cbn [loop]. run_step.
  destruct (sendingInProgress s); cbn [negb]; [|reflexivity].
  rewrite bind_run. unfold lift at 1. cbn [fst snd].
  destruct (checkDailyLimit (env_today (env i)) s) as [[|] s1];
    cbn [negb fst snd].
  - reflexivity.
  - destruct socket; repeat run_step; [reflexivity | now rewrite app_nil_r].
Qed.


(** One iteration on a recipient with a number, under a request with a
    message text: it ends normally with the expected result entry for the
    recipient. An iteration on a recipient without a number, or under a
    request without a message text, throws before the attempt. *)
Lemma iteration_run env socket total tmpl media i contact st j :
  currentJob (fst st) = Some j ->
  match c_phone contact, tmpl with
  | Some p, Some t =>
      exists st' suffix,
        iteration env socket total tmpl media i contact st = (Normal tt, st')
        /\ currentJob (fst st')
           = Some (push_result (expected_entry (env i) media contact)
                     (bump (r_status (expected_entry (env i) media contact))
                        j))
        /\ snd st' = snd st ++ suffix
        /\ attempts suffix = 1%nat
        /\ In (CallIsRegisteredUser (formatPhoneNumber p)) suffix
        /\ (sendingInProgress (fst st) = false ->
            sendingInProgress (fst st') = false)
        /\ (needsBatchRest (fst st) (Z.of_nat i) = true ->
            env_stopDuringRest (env i) = true ->
            sendingInProgress (fst st') = false)
  | _, _ =>
      exists message st',
        iteration env socket total tmpl media i contact st
        = (Thrown message, st')
        /\ currentJob (fst st') = Some j
        /\ attempts (snd st') = attempts (snd st)
  end.
Proof.
  intros Hj. unfold iteration. rewrite bind_run.
  destruct (restIfDue_run (env i) socket i st) as (s1 & -> & Ha1).
  set (st1 := (_, snd st ++ s1)).
  assert (Hj1 : currentJob (fst st1) = Some j).
  { subst st1. cbn [fst]. now destruct (_ && _). }
  assert (Hf1 : sendingInProgress (fst st) = false ->
                sendingInProgress (fst st1) = false).
  { subst st1. cbn [fst]. now destruct (_ && _). }
  assert (Hr1 : needsBatchRest (fst st) (Z.of_nat i) = true ->
                env_stopDuringRest (env i) = true ->
                sendingInProgress (fst st1) = false).
  { subst st1. cbn [fst]. now intros -> ->. }
  assert (Ht1 : snd st1 = snd st ++ s1) by reflexivity.
  clearbody st1.
  destruct (c_phone contact) as [p|] eqn:Hp.
  2:{ exists "Cannot read properties of undefined (reading 'toString')", st1.
      split; [reflexivity|]. split; [assumption|].
      rewrite Ht1, attempts_app. lia. }
  rewrite bind_run. cbn [formatPhoneNumber_call mret M_ret].
  destruct tmpl as [t|].
  2:{ exists "Cannot read properties of undefined (reading 'replace')", st1.
      split; [reflexivity|]. split; [assumption|].
      rewrite Ht1, attempts_app. lia. }
  rewrite bind_run. cbn [replaceVariables_call mret M_ret]. rewrite bind_run.
  destruct (attempt_run (env i) socket media contact (formatPhoneNumber p)
              (replaceVariables t contact) st1 j Hj1)
    as (st2 & s2 & -> & Hj2 & Ht2 & Ha2 & Hf2).
  destruct (waitBeforeNext_run (env i) socket i total st2)
    as (s3 & -> & Ha3 & _).
  eexists _, (s1 ++ CallIsRegisteredUser (formatPhoneNumber p) :: s2 ++ s3).
  split; [reflexivity|]. cbn [fst snd].
  split; [rewrite <- Hj2; now destruct (_ && _)|].
  split; [rewrite Ht2, Ht1, <- !app_assoc; reflexivity|].
  split; [rewrite attempts_app; cbn [attempts]; rewrite attempts_app; lia|].
  split; [apply in_or_app; right; now left|].
  split; [intros H0|intros Hn Hs];
    (destruct (_ && _); cbn [set_sendingInProgress sendingInProgress]; auto).
Qed.

Lemma accounted_refl st st' j :
  currentJob (fst st) = Some j -> currentJob (fst st') = Some j ->
  attempts (snd st') = attempts (snd st) ->
  accounted 0 st st'.
Proof.
  intros Hj Hj' Ha. exists j, j. repeat split; try assumption; lia.
Qed.

Lemma accounted_step k st st1 st' j result status :
  currentJob (fst st) = Some j ->
  currentJob (fst st1) = Some (push_result result (bump status j)) ->
  attempts (snd st1) = S (attempts (snd st)) ->
  accounted k st1 st' ->
  accounted (S k) st st'.
Proof.
  intros Hj Hj1 Ha1 (j1 & j' & E1 & E' & Ht & Hs & Hf & Hsum & Hlen & Hatt).
  rewrite Hj1 in E1. injection E1 as <-.
  exists j, j'. split; [assumption|]. split; [assumption|].
  destruct status; cbn [bump push_result incr_sent incr_failed total sent
                        failed results] in *;
    rewrite ?length_app in Hlen; cbn [length] in Hlen;
    repeat split; lia.
Qed.

(** The accounting of the loop: if it is left normally, the recipients
    attempted since it was entered are those with a result entry, each
    counted as sent or as failed; if its condition failed, they are all
    the recipients that were left. *)
Lemma loop_accounted env socket total tmpl media rest :
  forall i st j exit st',
    currentJob (fst st) = Some j ->
    loop env socket total tmpl media i rest st = (Normal exit, st') ->
    exists k,
      (k <= length rest)%nat
      /\ accounted k st st'
      /\ (exit = Completed -> k = length rest).
Proof.
  induction rest as [|contact rest IH]; intros i st j exit st' Hj Hrun.
  - injection Hrun as <- <-. exists 0%nat.
    split; [lia|]. split; [now apply (accounted_refl _ _ j)|reflexivity].
  - rewrite loop_cons in Hrun.
    destruct (sendingInProgress (fst st)); cbn [negb] in Hrun.
    + destruct (checkDailyLimit_frame (env_today (env i)) (fst st))
        as (Hj1 & _ & _).
      cbv zeta in Hrun.
      destruct (fst (checkDailyLimit (env_today (env i)) (fst st)));
        cbn [negb] in Hrun.
      * pose proof (iteration_run env socket total tmpl media i contact
                      (snd (checkDailyLimit (env_today (env i)) (fst st)),
                       snd st) j) as Hit.
        cbn [fst snd] in Hit. specialize (Hit ltac:(congruence)).
        destruct (c_phone contact) as [p|], tmpl as [t|];
          try (destruct Hit as (m & st1 & Hit & _); rewrite Hit in Hrun;
               discriminate).
        destruct Hit as (st1 & suffix & Hit & Hj2 & Ht & Ha & _).
        rewrite Hit in Hrun.
        destruct (IH _ _ _ _ _ Hj2 Hrun) as (k & Hk & Hacc & Hdone).
        exists (S k). split; [cbn [length]; lia|].
        split; [|intros E; cbn [length]; auto].
        eapply accounted_step; [exact Hj | exact Hj2 | | exact Hacc].
        rewrite Ht, attempts_app. cbn [snd]. lia.
      * injection Hrun as <- <-. exists 0%nat.
        split; [lia|]. split; [|discriminate].
        apply (accounted_refl _ _ j);
          [exact Hj | exact (eq_trans Hj1 Hj) |].
        unfold snd at 1. rewrite !attempts_app. destruct socket; cbn; lia.
    + injection Hrun as <- <-. exists 0%nat.
      split; [lia|]. split; [|discriminate].
      apply (accounted_refl _ _ j); [exact Hj | exact Hj |].
      unfold snd at 1. rewrite attempts_app. cbn. lia.
Qed.

(** On well-formed input the loop is always left normally. *)
Lemma loop_total env socket total tmpl media rest :
  well_formed rest tmpl = true ->
  forall i st j,
    currentJob (fst st) = Some j ->
    exists exit st',
      loop env socket total tmpl media i rest st = (Normal exit, st').
Proof.
  unfold well_formed. intros [Hall Htmpl]%andb_prop.
  apply bool_decide_eq_true in Htmpl as [t ->].
  induction rest as [|contact rest IH]; intros i st j Hj.
  - now exists Completed, st.
  - cbn [forallb] in Hall. apply andb_prop in Hall as [Hc Hall].
    apply bool_decide_eq_true in Hc as [p Hp].
    rewrite loop_cons.
    destruct (sendingInProgress (fst st)); cbn [negb]; [|eauto].
    destruct (checkDailyLimit_frame (env_today (env i)) (fst st))
      as (Hj1 & _ & _).
    cbv zeta.
    destruct (fst (checkDailyLimit (env_today (env i)) (fst st)));
      cbn [negb]; [|eauto].
    pose proof (iteration_run env socket total (Some t) media i contact
                  (snd (checkDailyLimit (env_today (env i)) (fst st)),
                   snd st) j) as Hit.
    cbn [fst snd] in Hit. specialize (Hit ltac:(congruence)).
    rewrite Hp in Hit.
    destruct Hit as (st1 & suffix & -> & Hj2 & _).
    exact (IH Hall _ _ _ Hj2).
Qed.

(** Once the flag is down the loop is left at its next check. *)
Lemma loop_stopped env socket total tmpl media i rest st :
  sendingInProgress (fst st) = false ->
  loop env socket total tmpl media i rest st
  = match rest with
    | [] => (Normal Completed, st)
    | _ :: _ => (Normal Stopped, (fst st, snd st ++ [Log LogStopped]))
    end.
Proof.
  intros Hflag. destruct rest as [|contact rest]; [reflexivity|].
  rewrite loop_cons, Hflag. reflexivity.
Qed.

(** ** The run as a whole *)


(** The statements of [processBulkSend] around the loop. *)
Lemma processBulkSend_run env contacts tmpl media st :
  processBulkSend env contacts tmpl media st
  = match loop env (hasSocket (fst st)) (length contacts) tmpl media 0
            contacts
            (fst st, snd st ++ [Log (LogStarting (Z.of_nat (length contacts)))])
    with
    | (Thrown message, st1) => (Thrown message, st1)
    | (Normal exit, st1) =>
        let session := set_sendingInProgress false (fst st1) in
        let trace :=
          (snd st1
           ++ [SaveSessionData (settings session) (dailyCounter session)])
          ++ (if hasSocket (fst st)
              then [Emit (bulk_complete (currentJob session))] else []) in
        match currentJob session with
        | Some job =>
            (Normal exit,
             (session, trace ++ [Log (LogCompleted (sent job) (failed job))]))
        | None => (Thrown "Cannot read properties of null", (session, trace))
        end
    end.
Proof.
  destruct st as [s tr]. unfold processBulkSend. cbn [fst snd].
  run_step. cbv zeta. run_step. rewrite bind_run.
  destruct (loop _ _ _ _ _ _ _ _) as [[exit|message] [s1 tr1]];
    [|reflexivity].
  run_step. run_step.
  destruct (hasSocket s); repeat run_step; rewrite ?app_nil_r;
    unfold get_job; run_step;
    (destruct (currentJob (set_sendingInProgress false s1)) as [job|];
     [repeat run_step; reflexivity | reflexivity]).
Qed.

(** A run that reaches the end of [processBulkSend]: the accounting of
    the loop holds of the final state, the flag is down, and the final
    job is the one saved and announced. *)
Lemma processBulkSend_accounted env contacts tmpl media st j exit st' :
  currentJob (fst st) = Some j ->
  processBulkSend env contacts tmpl media st = (Normal exit, st') ->
  exists k job',
    (k <= length contacts)%nat
    /\ accounted k st st'
    /\ (exit = Completed -> k = length contacts)
    /\ currentJob (fst st') = Some job'
    /\ sendingInProgress (fst st') = false
    /\ In (SaveSessionData (settings (fst st')) (dailyCounter (fst st')))
         (snd st')
    /\ (hasSocket (fst st) = true ->
        In (Emit (bulk_complete (Some job'))) (snd st'))
    /\ In (Log (LogCompleted (sent job') (failed job'))) (snd st').
Proof.
  intros Hj Hrun. rewrite processBulkSend_run in Hrun.
  destruct (loop _ _ _ _ _ _ _ _) as [[exit1|message] st1] eqn:Hloop;
    [|discriminate].
  destruct (loop_accounted _ _ _ _ _ _ _
              (fst st,
               snd st ++ [Log (LogStarting (Z.of_nat (length contacts)))])
              j _ _ Hj Hloop)
    as (k & Hk & (j0 & j1 & E0 & E1 & Ht & Hs & Hf & Hsum & Hlen & Hatt)
        & Hdone).
  cbv zeta in Hrun.
  change (currentJob (set_sendingInProgress false (fst st1)))
    with (currentJob (fst st1)) in Hrun.
  rewrite E1 in Hrun. injection Hrun as <- <-.
  exists k, j1. split; [exact Hk|]. split.
  { exists j0, j1. cbn [fst snd] in *. repeat split; try assumption.
    rewrite !attempts_app, Hatt, attempts_app.
    destruct (hasSocket (fst st)); cbn; lia. }
  split; [exact Hdone|]. split; [exact E1|]. split; [reflexivity|].
  cbn [fst snd].
  split; [apply in_or_app; left; apply in_or_app; left; apply in_or_app;
          right; now left|].
  split; [intros ->; apply in_or_app; left; apply in_or_app; right; now left|].
  apply in_or_app; right; now left.
Qed.

(** On well-formed input [processBulkSend] always reaches its end. *)
Lemma processBulkSend_total env contacts tmpl media st j :
  well_formed contacts tmpl = true ->
  currentJob (fst st) = Some j ->
  exists exit st', processBulkSend env contacts tmpl media st = (Normal exit, st').
Proof.
  intros Hwf Hj. rewrite processBulkSend_run.
  destruct (loop_total env (hasSocket (fst st)) (length contacts) tmpl media
              contacts Hwf 0%nat
              (fst st,
               snd st ++ [Log (LogStarting (Z.of_nat (length contacts)))])
              j Hj)
    as (exit & st1 & Hloop).
  rewrite Hloop.
  destruct (loop_accounted _ _ _ _ _ _ _
              (fst st,
               snd st ++ [Log (LogStarting (Z.of_nat (length contacts)))])
              j _ _ Hj Hloop)
    as (k & _ & (j0 & j1 & _ & E1 & _) & _).
  cbv zeta.
  change (currentJob (set_sendingInProgress false (fst st1)))
    with (currentJob (fst st1)).
  rewrite E1. eauto.
Qed.

(** ** Starting a run *)

Lemma refused_false session body :
  refused session body = false ->
  isReady session = true
  /\ sendingInProgress session = false
  /\ no_contacts body = false
  /\ negb (truthy (message body)) && negb (truthy (mediaPath body)) = false.
Proof.
  unfold refused. intros H.
  apply orb_false_elim in H as [H Hr].
  apply orb_false_elim in H as [H Hs].
  apply orb_false_elim in H as [Hm Hc].
  apply negb_false_iff in Hr. auto.
Qed.

(** An accepted start request: the answer and the sessions after it. *)
Lemma post_send_bulk_accepted sessionId body userSessions session :
  userSessions !! sessionId = Some session ->
  refused session body = false ->
  post_send_bulk sessionId body userSessions
  = (SendingStarted (Z.of_nat (length (default [] (contacts body)))),
     <[sessionId :=
         started_session
           (Z.of_nat (length (default [] (contacts body)))) session]>
       userSessions).
Proof.
  intros Hs (Hready & Hidle & Hsome & Hcontent)%refused_false.
  unfold post_send_bulk. now rewrite Hs, Hready, Hidle, Hsome, Hcontent.
Qed.

(** A refused start request is never answered as started. *)
Lemma post_send_bulk_refused sessionId body userSessions session :
  userSessions !! sessionId = Some session ->
  refused session body = true ->
  exists error,
    post_send_bulk sessionId body userSessions
    = (BadRequest error, userSessions).
Proof.
  intros Hs. unfold post_send_bulk, refused. rewrite Hs.
  destruct (isReady session), (sendingInProgress session), (no_contacts body),
    (negb (truthy (message body)) && negb (truthy (mediaPath body)));
    cbn; try discriminate; eauto.
Qed.



Lemma post_send_bulk_started sessionId body userSessions n userSessions' :
  post_send_bulk sessionId body userSessions
  = (SendingStarted n, userSessions') ->
  exists session,
    userSessions !! sessionId = Some session
    /\ refused session body = false
    /\ n = Z.of_nat (length (default [] (contacts body)))
    /\ userSessions' !! sessionId = Some (started_session n session).
Proof.
  destruct (userSessions !! sessionId) as [session|] eqn:Hs.
  - destruct (refused session body) eqn:Href.
    + destruct (post_send_bulk_refused _ _ _ _ Hs Href) as (e & ->).
      discriminate.
    + rewrite (post_send_bulk_accepted _ _ _ _ Hs Href).
      intros [= <- <-]. exists session.
      split; [reflexivity|]. split; [assumption|]. split; [reflexivity|].
      apply lookup_insert_eq.
  - unfold post_send_bulk. rewrite Hs. discriminate.
Qed.

Lemma background_run_unfold env sessionId body userSessions run :
  background_run env sessionId body userSessions = Some run ->
  exists session,
    userSessions !! sessionId = Some session
    /\ refused session body = false
    /\ run
       = processBulkSend env (default [] (contacts body)) (message body)
           (mediaPath body)
           (started_session
              (Z.of_nat (length (default [] (contacts body)))) session,
            []).
Proof.
  unfold background_run.
  destruct (post_send_bulk sessionId body userSessions)
    as [response userSessions'] eqn:Hpost.
  destruct response; try discriminate.
  destruct (post_send_bulk_started _ _ _ _ _ Hpost)
    as (session & Hs & Href & -> & ->).
  intros [= <-]. eauto.
Qed.

(** ** Runs *)

(** A start request that is accepted with well-formed recipients and a
    message text sets off a run that reaches its end, whatever the
    transport answers and whenever a stop request arrives. *)
Lemma background_run_total env sessionId body userSessions session :
  userSessions !! sessionId = Some session ->
  refused session body = false ->
  well_formed (default [] (contacts body)) (message body) = true ->
  exists exit st',
    background_run env sessionId body userSessions = Some (Normal exit, st').
Proof.
  intros Hs Href Hwf. unfold background_run.
  rewrite (post_send_bulk_accepted _ _ _ _ Hs Href), lookup_insert_eq.
  destruct (processBulkSend_total env (default [] (contacts body))
              (message body) (mediaPath body)
              (started_session
                 (Z.of_nat (length (default [] (contacts body)))) session,
               [])
              _ Hwf eq_refl)
    as (exit & st' & ->).
  eauto.
Qed.

(** The accounting of a run during whose suspensions nothing but stop
    requests is served. At every terminal halt (normal completion, stop
    or quota exhaustion) the final job, which is the one announced, has
    [total] equal to the number of recipients of the start request,
    [sent + failed] equal to the number of its result entries, and
    [total - sent - failed] equal to the number of recipients never
    attempted, which is zero when the loop completed. *)
Lemma final_job_accounting (env : Env) (sessionId : string)
  (body : BulkBody) (userSessions : Sessions) (exit : Exit) (st' : State) :
  background_run env sessionId body userSessions = Some (Normal exit, st') ->
  exists job,
    currentJob (fst st') = Some job
    /\ total job = Z.of_nat (length (default [] (contacts body)))
    /\ 0 <= sent job /\ 0 <= failed job
    /\ sent job + failed job = Z.of_nat (length (results job))
    /\ (attempts (snd st') <= length (default [] (contacts body)))%nat
    /\ total job - sent job - failed job
       = Z.of_nat (length (default [] (contacts body)) - attempts (snd st'))
    /\ (exit = Completed -> total job - sent job - failed job = 0)
    /\ In (SaveSessionData (settings (fst st')) (dailyCounter (fst st')))
         (snd st')
    /\ In (Log (LogCompleted (sent job) (failed job))) (snd st').
Proof.
  intros Hrun.
  destruct (background_run_unfold _ _ _ _ _ Hrun) as (session & Hs & Href & E).
  symmetry in E.
  destruct (processBulkSend_accounted env _ _ _
              (started_session
                 (Z.of_nat (length (default [] (contacts body)))) session,
               [])
              (mkJob (Z.of_nat (length (default [] (contacts body)))) 0 0 [])
              exit st' eq_refl E)
    as (k & job & Hk
        & (j0 & j1 & E0 & E1 & Ht & Hsent & Hfailed & Hsum & Hlen & Hatt)
        & Hdone & Hjob & _ & Hsave & _ & Hlog).
  rewrite Hjob in E1. injection E1 as <-.
  cbn [fst snd started_session set_currentJob currentJob] in E0.
  injection E0 as <-.
  cbn [fst snd total sent failed results length attempts] in *.
  exists job. split; [exact Hjob|]. split; [exact Ht|].
  split; [lia|]. split; [lia|]. split; [lia|]. split; [lia|].
  split; [lia|]. split; [|split; assumption].
  intros Hc. specialize (Hdone Hc). lia.
Qed.

(** The result entries the loop appends are the expected entries of the
    recipients it attempted, in order. *)
Lemma loop_results env socket total tmpl media rest :
  forall i st j exit st',
    currentJob (fst st) = Some j ->
    loop env socket total tmpl media i rest st = (Normal exit, st') ->
    exists k job',
      (k <= length rest)%nat
      /\ currentJob (fst st') = Some job'
      /\ results job' = results j ++ entries env media i (firstn k rest)
      /\ attempts (snd st') = (attempts (snd st) + k)%nat.
Proof.
  induction rest as [|contact rest IH]; intros i st j exit st' Hj Hrun.
  - injection Hrun as <- <-. exists 0%nat, j.
    split; [lia|]. split; [exact Hj|].
    split; [now rewrite app_nil_r | lia].
  - rewrite loop_cons in Hrun.
    destruct (sendingInProgress (fst st)); cbn [negb] in Hrun.
    + destruct (checkDailyLimit_frame (env_today (env i)) (fst st))
        as (Hj1 & _ & _).
      cbv zeta in Hrun.
      destruct (fst (checkDailyLimit (env_today (env i)) (fst st)));
        cbn [negb] in Hrun.
      * pose proof (iteration_run env socket total tmpl media i contact
                      (snd (checkDailyLimit (env_today (env i)) (fst st)),
                       snd st) j) as Hit.
        cbn [fst snd] in Hit. specialize (Hit ltac:(congruence)).
        destruct (c_phone contact) as [p|], tmpl as [t|];
          try (destruct Hit as (m & st1 & Hit & _); rewrite Hit in Hrun;
               discriminate).
        destruct Hit as (st1 & suffix & Hit & Hj2 & Ht & Ha & _).
        rewrite Hit in Hrun.
        destruct (IH _ _ _ _ _ Hj2 Hrun) as (k & job' & Hk & Hjob & Hres & Hatt).
        exists (S k), job'. split; [cbn [length]; lia|].
        split; [exact Hjob|]. split.
        { rewrite Hres. cbn [firstn entries].
          destruct (r_status (expected_entry (env i) media contact));
            cbn [bump push_result incr_sent incr_failed results];
            now rewrite <- app_assoc. }
        change (snd st1 = snd st ++ suffix) in Ht.
        rewrite Hatt, Ht, attempts_app. lia.
      * injection Hrun as <- <-. exists 0%nat, j.
        split; [lia|]. split; [exact (eq_trans Hj1 Hj)|].
        split; [now rewrite app_nil_r|].
        unfold snd at 1. rewrite !attempts_app. destruct socket; cbn; lia.
    + injection Hrun as <- <-. exists 0%nat, j.
      split; [lia|]. split; [exact Hj|]. split; [now rewrite app_nil_r|].
      unfold snd at 1. rewrite attempts_app. cbn. lia.
Qed.

Lemma processBulkSend_results env contacts tmpl media st j exit st' :
  currentJob (fst st) = Some j ->
  processBulkSend env contacts tmpl media st = (Normal exit, st') ->
  exists job',
    currentJob (fst st') = Some job'
    /\ results job'
       = results j
         ++ entries env media 0
              (firstn (attempts (snd st') - attempts (snd st)) contacts).
Proof.
  intros Hj Hrun. rewrite processBulkSend_run in Hrun.
  destruct (loop _ _ _ _ _ _ _ _) as [[exit1|message] st1] eqn:Hloop;
    [|discriminate].
  destruct (loop_results _ _ _ _ _ _ _
              (fst st,
               snd st ++ [Log (LogStarting (Z.of_nat (length contacts)))])
              j _ _ Hj Hloop)
    as (k & job' & Hk & Hjob & Hres & Hatt).
  cbv zeta in Hrun.
  change (currentJob (set_sendingInProgress false (fst st1)))
    with (currentJob (fst st1)) in Hrun.
  rewrite Hjob in Hrun. injection Hrun as <- <-.
  exists job'. split; [exact Hjob|]. cbn [fst snd] in *.
  rewrite Hres. f_equal. f_equal. f_equal.
  rewrite !attempts_app, Hatt, attempts_app.
  destruct (hasSocket (fst st)); cbn; lia.
Qed.

(** ** Failures while a recipient is processed *)

(** C1, as stated, fails: a failure of the typing simulation is caught
    inside [simulateTyping] and leaves no mark in the result entry. With
    typing enabled and every typing simulation failing, all three
    recipients are recorded as sent, without an error. *)
Lemma typing_failure_counterexample :
  Settings.simulateTyping (settings sample_session) = true
  /\ env_typing (typing_fails_env 0%nat) = Thrown "Evaluation failed"
  /\ background_run typing_fails_env "s1" sample_body sample_sessions
     = Some (Normal Completed, typing_failed_state)
  /\ In (CallTyping "62811@c.us") (snd typing_failed_state)
  /\ results <$> currentJob (fst typing_failed_state)
     = Some [mkResult (Some "0811") (Some "Ani") StatusSuccess None;
             mkResult (Some "0812") (Some "Budi") StatusSuccess None;
             mkResult (Some "0813") None StatusSuccess None].
Proof.
  split; [reflexivity|]. split; [reflexivity|].
  split; [vm_compute; reflexivity|]. split; [|reflexivity].
  vm_compute. tauto.
Qed.

(** What the amended statement leaves out: normalization is evaluated
    before the [try] block is entered. On a start request whose only
    recipient has no number the run ends with the [TypeError] of
    normalization; no result entry is recorded, the sending flag stays
    up, and neither the saved snapshot nor the completion event is
    produced. *)
Lemma missing_phone_aborts_run :
  background_run quiet_env "s1" body_without_phone sample_sessions
  = Some (Thrown "Cannot read properties of undefined (reading 'toString')",
          (started_session 1 sample_session, [Log (LogStarting 1)])).
Proof. vm_compute. reflexivity. Qed.

(** The same happens at the first recipient when the request carries
    media and no message text. *)
Lemma missing_message_aborts_run :
  background_run quiet_env "s1" body_without_message sample_sessions
  = Some (Thrown "Cannot read properties of undefined (reading 'replace')",
          (started_session 3 sample_session, [Log (LogStarting 3)])).
Proof. vm_compute. reflexivity. Qed.

(** ** Stop requests during a batch rest *)




(** ** Settings requests *)

(** C3, as stated, fails: a settings request with [batchSize] 0 or -5 is
    accepted, the stored configuration takes the value, and a start
    request is then accepted under it. *)
Lemma nonpositive_batchSize_counterexample :
  post_settings "s1" (batchSize_body 0) sample_sessions
  = (SettingsUpdated (Settings.with_batchSize 0 DEFAULT_SETTINGS),
     <["s1" := set_settings (Settings.with_batchSize 0 DEFAULT_SETTINGS)
                 sample_session]> sample_sessions,
     [SaveSessionData (Settings.with_batchSize 0 DEFAULT_SETTINGS)
        (dailyCounter sample_session)])
  /\ fst (post_send_bulk "s1" sample_body (sessions_with_batchSize 0))
     = SendingStarted 3
  /\ fst (fst (post_settings "s1" (batchSize_body (-5)) sample_sessions))
     = SettingsUpdated (Settings.with_batchSize (-5) DEFAULT_SETTINGS)
  /\ fst (post_send_bulk "s1" sample_body (sessions_with_batchSize (-5)))
     = SendingStarted 3.
Proof. repeat split; vm_compute; reflexivity. Qed.

Lemma refused_set_settings settings session body :
  refused (set_settings settings session) body = refused session body.
Proof. reflexivity. Qed.

(** C3, amended. A settings request is not validated: whatever
    [batchSize] it carries, zero and negative values included, the request
    to an existing session is accepted, the stored configuration takes the
    value and is saved, and a later start request is accepted under it
    whenever the other conditions hold; with [batchSize] 0 no batch rest
    is ever due. *)
Theorem post_settings_stores_any_batchSize (sessionId : string)
  (body : SettingsBody) (userSessions : Sessions) (session : Session)
  (b : Z) :
  userSessions !! sessionId = Some session ->
  b_batchSize body = Some b ->
  exists session',
    post_settings sessionId body userSessions
    = (SettingsUpdated (settings session'),
       <[sessionId := session']> userSessions,
       [SaveSessionData (settings session') (dailyCounter session')])
    /\ Settings.batchSize (settings session') = b
    /\ (forall start : BulkBody,
          refused session start = false ->
          fst (post_send_bulk sessionId start
                 (<[sessionId := session']> userSessions))
          = SendingStarted
              (Z.of_nat (length (default [] (contacts start)))))
    /\ (b = 0 -> forall i, needsBatchRest session' i = false).
Proof.
  intros Hs Hb.
  exists (set_settings (spread (settings session) body) session).
  split; [unfold post_settings; now rewrite Hs|].
  split; [cbn; now rewrite Hb|].
  split.
  - intros start Href.
    rewrite (post_send_bulk_accepted sessionId start
               (<[sessionId :=
                    set_settings (spread (settings session) body)
                      session]> userSessions)
               (set_settings (spread (settings session) body) session)
               (lookup_insert_eq _ _ _) Href).
    reflexivity.
  - intros -> i. unfold needsBatchRest. cbn. rewrite Hb. cbn.
    apply andb_false_r.
Qed.

Lemma post_settings_stores_any_batchSize_witness :
  exists session',
    post_settings "s1" (batchSize_body 0) sample_sessions
    = (SettingsUpdated (settings session'),
       <["s1" := session']> sample_sessions,
       [SaveSessionData (settings session') (dailyCounter session')])
    /\ Settings.batchSize (settings session') = 0
    /\ (forall start : BulkBody,
          refused sample_session start = false ->
          fst (post_send_bulk "s1" start
                 (<["s1" := session']> sample_sessions))
          = SendingStarted
              (Z.of_nat (length (default [] (contacts start)))))
    /\ (0 = 0 -> forall i, needsBatchRest session' i = false).
Proof.
  apply (post_settings_stores_any_batchSize "s1" (batchSize_body 0)
           sample_sessions sample_session 0);
    reflexivity.
Defined.

(** ** Whole runs on small inputs *)

(** Three deliverable recipients: all sent, the loop completes. *)
Example run_all_delivered :
  final_counts (background_run quiet_env "s1" sample_body sample_sessions)
  = Some (3, 3, 0, 3%nat).
Proof. vm_compute. reflexivity. Qed.

(** The second of three recipients is not registered: it is recorded as
    failed and the run goes on to the third. *)
Example run_second_unregistered :
  final_counts
    (background_run unregistered_second_env "s1" sample_body sample_sessions)
  = Some (3, 2, 1, 3%nat).
Proof. vm_compute. reflexivity. Qed.

(** With the day's quota used up nothing is attempted. *)
Example run_at_limit :
  final_counts
    (background_run quiet_env "s1" sample_body
       {[ "s1" := sample_session_at_limit ]})
  = Some (3, 0, 0, 0%nat).
Proof. vm_compute. reflexivity. Qed.

(** * Part III: further properties of the code *)



(** ** Address normalization, further *)

Lemma append_length s t :
  String.length (s +:+ t) = (String.length s + String.length t)%nat.
Proof. induction s as [|c s IH]; simpl; [reflexivity | now rewrite IH]. Qed.

Lemma append_suffix_only d x : d +:+ x = x -> d = "".
Proof.
  intros H. apply (f_equal String.length) in H. rewrite append_length in H.
  destruct d; [reflexivity | simpl in H; lia].
Qed.

(** X1. Every input has a normalized address, and it has one shape: the
    digits of the input, a leading [0] replaced by [62], followed by
    [@c.us]. The [@] guard never keeps the suffix from being appended. *)
Theorem formatPhoneNumber_normal_form (s : string) :
  exists d,
    formatPhoneNumber s = d +:+ "@c.us"
    /\ Str.all_digits d = true
    /\ Str.starts_with_char "0" d = false
    /\ (Str.starts_with_char "0" (Str.strip_non_digits s) = false
        /\ d = Str.strip_non_digits s
        \/ exists t, Str.strip_non_digits s = String "0" t
                     /\ d = "62" +:+ t).
Proof.
  unfold formatPhoneNumber.
  pose proof (strip_all_digits s) as Hd.
  destruct (Str.strip_non_digits s) as [|c t] eqn:E.
  - exists "". cbn. repeat split. left. split; reflexivity.
  - cbn [Str.starts_with_char]. destruct (Ascii.eqb "0" c) eqn:E0.
    + apply Ascii.eqb_eq in E0. subst c. cbn [Str.substring1].
      exists ("62" +:+ t).
      assert (Hall : Str.all_digits ("62" +:+ t) = true) by exact Hd.
      rewrite (digits_no_at _ Hall). cbn [negb].
      split; [reflexivity|]. split; [exact Hall|]. split; [reflexivity|].
      right. now exists t.
    + exists (String c t). rewrite (digits_no_at _ Hd). cbn [negb].
      split; [reflexivity|]. split; [exact Hd|].
      cbn [Str.starts_with_char]. auto.
Qed.

(** X2. A number written with the trunk prefix [0] and the same number
    written with the country code [62] normalize to the same address,
    whatever characters other than digits come before them. *)
Theorem formatPhoneNumber_trunk_prefix (a b s : string) :
  Str.strip_non_digits a = "" ->
  Str.strip_non_digits b = "" ->
  formatPhoneNumber (a +:+ String "0" s)
  = formatPhoneNumber (b +:+ "62" +:+ s).
Proof.
  intros Ha Hb. unfold formatPhoneNumber.
  rewrite !strip_app, Ha, Hb. reflexivity.
Qed.

Lemma formatPhoneNumber_trunk_prefix_witness :
  formatPhoneNumber ("" +:+ String "0" "812-3456")
  = formatPhoneNumber ("+" +:+ "62" +:+ "812-3456").
Proof.
  apply (formatPhoneNumber_trunk_prefix "" "+" "812-3456"); reflexivity.
Defined.

(** X3. An input without a digit is not refused: it normalizes to the
    bare suffix [@c.us], and no other input does. *)
Theorem formatPhoneNumber_no_digits (s : string) :
  formatPhoneNumber s = "@c.us" <-> Str.strip_non_digits s = "".
Proof.
  split; [|intros H; unfold formatPhoneNumber; now rewrite H].
  unfold formatPhoneNumber.
  pose proof (strip_all_digits s) as Hd.
  destruct (Str.strip_non_digits s) as [|c t]; [reflexivity|].
  intros H. exfalso. cbn [Str.starts_with_char] in H.
  destruct (Ascii.eqb "0" c) eqn:E0.
  - apply Ascii.eqb_eq in E0. subst c. cbn [Str.substring1] in H.
    assert (Hall : Str.all_digits ("62" +:+ t) = true) by exact Hd.
    rewrite (digits_no_at _ Hall) in H. cbn [negb] in H.
    apply append_suffix_only in H. discriminate.
  - rewrite (digits_no_at _ Hd) in H. cbn [negb] in H.
    apply append_suffix_only in H. discriminate.
Qed.

(** ** Batch scheduler, further *)

(** X4. Under any batch size the rest is due exactly at the positive
    indices that are multiples of its absolute value: a negative batch
    size schedules the rests of its absolute value, and batch size 0
    schedules none. *)
Theorem needsBatchRest_any_batchSize (session : Session) (i : Z) :
  needsBatchRest session i
  = (0 <? i)
    && negb (Settings.batchSize (settings session) =? 0)
    && (i mod Z.abs (Settings.batchSize (settings session)) =? 0).
Proof.
  unfold needsBatchRest, js_rem.
  set (b := Settings.batchSize (settings session)).
  destruct (Z.ltb_spec 0 i) as [Hi|Hi]; [|reflexivity]. cbn [andb].
  destruct (Z.eqb_spec b 0) as [Hb|Hb]; [reflexivity|]. cbn [is_zero negb andb].
  destruct (Z.eqb_spec (Z.rem i b) 0) as [Hr|Hr];
    destruct (Z.eqb_spec (i mod Z.abs b) 0) as [Hm|Hm]; try reflexivity;
    exfalso.
  - apply Hm. apply Z.mod_divide; [lia|]. apply Z.divide_abs_l.
    now apply Z.rem_divide.
  - apply Hr. apply Z.rem_divide; [assumption|]. apply Z.divide_abs_l.
    apply Z.mod_divide; [lia | assumption].
Qed.



(** Under the default bounds 90 and 120 the draw [1 - 2^-52] gives a rest
    of 121 seconds, and the draw [1/2] one of 105 seconds. *)
Example getBatchRestDuration_above_max :
  getBatchRestDuration (1 - (1 # 2 ^ 52)) sample_session = 121000
  /\ getBatchRestDuration (1 # 2) sample_session = 105000.
Proof. split; vm_compute; reflexivity. Qed.

(** ** Personalization, further *)

Section Replace.
Import Regex.

Lemma append_assoc (a b c : string) : (a +:+ b) +:+ c = a +:+ b +:+ c.
Proof. induction a as [|x a IH]; simpl; [reflexivity | now rewrite IH]. Qed.

Lemma includes_char_app c s t :
  Str.includes_char c (s +:+ t)
  = Str.includes_char c s || Str.includes_char c t.
Proof.
  induction s as [|d s IH]; cbn [String.append Str.includes_char];
    [reflexivity|].
  now rewrite IH, orb_assoc.
Qed.

(** A replacement text without [$] is inserted as it is. *)
Lemma get_substitution_plain matched before after repl :
  Str.includes_char "$" repl = false ->
  get_substitution matched before after repl = repl.
Proof.
  induction repl as [|c r IH]; [reflexivity|].
  cbn [Str.includes_char]. intros [Hc Hr]%orb_false_elim.
  cbn [get_substitution]. rewrite Ascii.eqb_sym, Hc. now rewrite IH.
Qed.

(** [$&] in the replacement text stands for the text matched. *)
Lemma get_substitution_matched matched before after a b :
  Str.includes_char "$" a = false ->
  Str.includes_char "$" b = false ->
  get_substitution matched before after (a +:+ String "$" (String "&" b))
  = a +:+ matched +:+ b.
Proof.
  intros Ha Hb. induction a as [|c a IH].
  - cbn [String.append get_substitution].
    change (Ascii.eqb "$" "$") with true. change (Ascii.eqb "&" "$") with false.
    change (Ascii.eqb "&" "&") with true. cbv iota.
    now rewrite get_substitution_plain.
  - cbn [Str.includes_char] in Ha. apply orb_false_elim in Ha as [Hc Ha].
    cbn [String.append get_substitution]. rewrite Ascii.eqb_sym, Hc.
    now rewrite IH.
Qed.

Lemma canonicalize_brace c :
  Ascii.eqb (canonicalize "{") (canonicalize c) = Ascii.eqb "{" c.
Proof.
  destruct c as [[] [] [] [] [] [] [] []]; reflexivity.
Qed.

(** A pattern that opens with [{] does not match where another character
    stands. *)
Lemma matches_at_other pat c s :
  Ascii.eqb "{" c = false -> matches_at (String "{" pat) (String c s) = false.
Proof.
  intros H. cbn [matches_at]. now rewrite canonicalize_brace, H.
Qed.

Lemma canonicalize_dollar c :
  Ascii.eqb (canonicalize "$") (canonicalize c) = Ascii.eqb "$" c.
Proof.
  destruct c as [[] [] [] [] [] [] [] []]; reflexivity.
Qed.

(** Spellings of one text are matched by the same patterns and contain
    [{] and [$] at the same places. *)
Lemma spelling_matches pt pk q x :
  spelling pk q = true ->
  matches_at pt (q +:+ x) = matches_at pt (pk +:+ x).
Proof.
  unfold spelling. intros [Hm Hl]%andb_prop. apply Nat.eqb_eq in Hl.
  revert pt q Hm Hl.
  induction pk as [|a pk IH]; intros pt q Hm Hl.
  - destruct q; [reflexivity | discriminate].
  - destruct q as [|c q]; [discriminate|].
    cbn [matches_at] in Hm. apply andb_prop in Hm as [Hc Hm].
    apply Ascii.eqb_eq in Hc. injection Hl as Hl.
    destruct pt as [|b pt]; [reflexivity|].
    cbn [matches_at String.append]. rewrite Hc. f_equal. now apply IH.
Qed.

Lemma spelling_includes x pk q :
  (forall c, Ascii.eqb (canonicalize x) (canonicalize c) = Ascii.eqb x c) ->
  spelling pk q = true ->
  Str.includes_char x q = Str.includes_char x pk.
Proof.
  intros Hx. unfold spelling. intros [Hm Hl]%andb_prop.
  apply Nat.eqb_eq in Hl. revert q Hm Hl.
  induction pk as [|a pk IH]; intros q Hm Hl.
  - destruct q; [reflexivity | discriminate].
  - destruct q as [|c q]; [discriminate|].
    cbn [matches_at] in Hm. apply andb_prop in Hm as [Hc Hm].
    apply Ascii.eqb_eq in Hc. injection Hl as Hl.
    cbn [Str.includes_char]. rewrite (IH q Hm Hl). f_equal.
    rewrite <- (Hx c), <- (Hx a). now rewrite Hc.
Qed.

Lemma spelling_brace pk q :
  spelling pk q = true ->
  Str.includes_char "{" q = Str.includes_char "{" pk.
Proof. apply spelling_includes, canonicalize_brace. Qed.

Lemma spelling_dollar pk q :
  spelling pk q = true ->
  Str.includes_char "$" q = Str.includes_char "$" pk.
Proof. apply spelling_includes, canonicalize_dollar. Qed.

Lemma occurs_brace pt s :
  Str.includes_char "{" s = false -> occurs (String "{" pt) s = false.
Proof.
  induction s as [|c s IH]; [reflexivity|].
  cbn [Str.includes_char]. intros [Hc Hs]%orb_false_elim.
  cbn [occurs]. rewrite matches_at_other by exact Hc. now apply IH.
Qed.

Variables (pat' repl : string).
Let pat := String "{" pat'.

(** Characters passed over as part of a match. *)
Lemma replace_go_skip u : forall before x,
  replace_go pat repl (String.length u) before (u +:+ x)
  = replace_go pat repl 0 (before +:+ u) x.
Proof.
  induction u as [|c u IH]; intros before x.
  - cbn [String.length String.append]. now rewrite append_empty_r.
  - cbn [String.length String.append replace_go]. rewrite IH.
    now rewrite append_assoc.
Qed.

Lemma matches_at_app q x :
  matches_at pat q = true -> matches_at pat (q +:+ x) = true.
Proof.
  generalize pat. intros pt. revert q.
  induction pt as [|a pt IH]; intros q H; [now destruct q|].
  destruct q as [|c q]; [discriminate|].
  cbn [matches_at String.append] in *.
  apply andb_prop in H as [-> H]. cbn [andb]. now apply IH.
Qed.

Lemma take_app q x : take (String.length q) (q +:+ x) = q.
Proof. induction q as [|c q IH]; [now destruct x|]. cbn. now rewrite IH. Qed.

Lemma drop_app q x : drop (String.length q) (q +:+ x) = x.
Proof. induction q as [|c q IH]; [now destruct x|]. cbn. exact IH. Qed.

(** Text without [{] is copied by the scan. *)
Lemma replace_go_copy p x : forall before,
  Str.includes_char "{" p = false ->
  replace_go pat repl 0 before (p +:+ x)
  = p +:+ replace_go pat repl 0 (before +:+ p) x.
Proof.
  induction p as [|c p IH]; intros before Hp.
  - cbn [String.append]. now rewrite append_empty_r.
  - cbn [Str.includes_char] in Hp. apply orb_false_elim in Hp as [Hc Hp].
    cbn [String.append replace_go]. unfold pat at 1.
    rewrite matches_at_other by exact Hc. f_equal.
    rewrite IH by exact Hp. now rewrite append_assoc.
Qed.

(** A spelling of the pattern is replaced by the scan. *)
Lemma replace_go_match q x before :
  spelling pat q = true ->
  replace_go pat repl 0 before (q +:+ x)
  = get_substitution q before x repl
    +:+ replace_go pat repl 0 (before +:+ q) x.
Proof.
  unfold spelling. intros [Hm Hl]%andb_prop. apply Nat.eqb_eq in Hl.
  destruct q as [|c q]; [discriminate Hl|].
  cbn [String.append replace_go].
  change (String c (q +:+ x)) with (String c q +:+ x).
  rewrite (matches_at_app _ x Hm). rewrite <- Hl, take_app, drop_app.
  f_equal.
  replace (String.length (String c q) - 1)%nat with (String.length q)
    by (cbn [String.length]; lia).
  rewrite replace_go_skip. now rewrite append_assoc.
Qed.

(** A spelling of another placeholder is copied by the scan. *)
Lemma replace_go_keep pk' q x before :
  spelling (String "{" pk') q = true ->
  Str.includes_char "{" pk' = false ->
  (forall y, matches_at pat (String "{" pk' +:+ y) = false) ->
  replace_go pat repl 0 before (q +:+ x)
  = q +:+ replace_go pat repl 0 (before +:+ q) x.
Proof.
  intros Hq Hpk Hno.
  pose proof (spelling_matches pat _ _ x Hq) as Hsame. rewrite Hno in Hsame.
  pose proof Hq as Hq'. unfold spelling in Hq'.
  apply andb_prop in Hq' as [Hm Hl]. apply Nat.eqb_eq in Hl.
  destruct q as [|c q]; [discriminate|].
  cbn [matches_at] in Hm. apply andb_prop in Hm as [Hc Hm].
  rewrite canonicalize_brace in Hc. apply Ascii.eqb_eq in Hc. subst c.
  assert (Hfree : Str.includes_char "{" q = false).
  { injection Hl as Hl. rewrite (spelling_brace pk' q); [exact Hpk|].
    unfold spelling. now rewrite Hm, Hl, Nat.eqb_refl. }
  cbn [String.append replace_go].
  change (String "{" (q +:+ x)) with (String "{" q +:+ x).
  rewrite Hsame. f_equal. rewrite replace_go_copy by exact Hfree.
  now rewrite append_assoc.
Qed.

(** One placeholder between two texts without [{]: a pass for another
    placeholder leaves the text as it is, the pass for this one
    substitutes. *)
Lemma replace_all_keep pk' a q b :
  Str.includes_char "{" a = false ->
  Str.includes_char "{" b = false ->
  spelling (String "{" pk') q = true ->
  Str.includes_char "{" pk' = false ->
  (forall y, matches_at pat (String "{" pk' +:+ y) = false) ->
  replace_all pat repl (a +:+ q +:+ b) = a +:+ q +:+ b.
Proof.
  intros Ha Hb Hq Hpk Hno. unfold replace_all.
  rewrite replace_go_copy by exact Ha. f_equal.
  rewrite (replace_go_keep pk') by assumption. f_equal.
  apply replace_go_no_match, occurs_brace, Hb.
Qed.

Lemma replace_all_hit a q b :
  Str.includes_char "{" a = false ->
  Str.includes_char "{" b = false ->
  spelling pat q = true ->
  replace_all pat repl (a +:+ q +:+ b)
  = a +:+ get_substitution q a b repl +:+ b.
Proof.
  intros Ha Hb Hq. unfold replace_all.
  rewrite replace_go_copy by exact Ha. f_equal.
  rewrite replace_go_match by exact Hq. f_equal.
  apply replace_go_no_match, occurs_brace, Hb.
Qed.

Lemma replace_all_no_brace s :
  Str.includes_char "{" s = false -> replace_all pat repl s = s.
Proof. intros H. apply replace_all_no_match, occurs_brace, H. Qed.

Hypothesis repl_plain : Str.includes_char "$" repl = false.

(** With a replacement text without [$] the scan does not depend on what
    it has passed. *)
Lemma replace_go_before s : forall k before before',
  replace_go pat repl k before s = replace_go pat repl k before' s.
Proof.
  induction s as [|c s IH]; intros k before before'; [reflexivity|].
  cbn [replace_go]. destruct k as [|k]; [|apply IH].
  destruct (matches_at pat (String c s)).
  - rewrite !get_substitution_plain by exact repl_plain. f_equal. apply IH.
  - f_equal. apply IH.
Qed.

Lemma replace_go_through p x : forall before before',
  Str.includes_char "{" p = false ->
  replace_go pat repl 0 before (p +:+ x)
  = p +:+ replace_go pat repl 0 before' x.
Proof.
  induction p as [|c p IH]; intros before before' Hp;
    [apply replace_go_before|].
  cbn [Str.includes_char] in Hp. apply orb_false_elim in Hp as [Hc Hp].
  cbn [String.append replace_go]. unfold pat at 1.
  rewrite matches_at_other by exact Hc. f_equal. now apply IH.
Qed.

(** Text without [{] is copied. *)
Lemma replace_all_through p x :
  Str.includes_char "{" p = false ->
  replace_all pat repl (p +:+ x) = p +:+ replace_all pat repl x.
Proof. apply replace_go_through. Qed.

Lemma replace_all_plain p :
  Str.includes_char "{" p = false -> replace_all pat repl p = p.
Proof.
  intros Hp. rewrite <- (append_empty_r p) at 1.
  rewrite replace_all_through by exact Hp. now rewrite append_empty_r.
Qed.

(** A spelling of the pattern is replaced. *)
Lemma replace_all_spelling q x :
  spelling pat q = true ->
  replace_all pat repl (q +:+ x) = repl +:+ replace_all pat repl x.
Proof.
  intros Hq. unfold replace_all.
  rewrite replace_go_match, get_substitution_plain by assumption.
  f_equal. apply replace_go_before.
Qed.

(** A spelling of another placeholder is copied. *)
Lemma replace_all_other pk' q x :
  spelling (String "{" pk') q = true ->
  Str.includes_char "{" pk' = false ->
  (forall y, matches_at pat (String "{" pk' +:+ y) = false) ->
  replace_all pat repl (q +:+ x) = q +:+ replace_all pat repl x.
Proof.
  intros Hq Hpk Hno. unfold replace_all.
  rewrite (replace_go_keep pk') by assumption. f_equal.
  apply replace_go_before.
Qed.

End Replace.

(** The four passes on a contact whose fields are plain. *)
Section Passes.
Variable contact : Contact.
Hypothesis name_plain : plain (or_empty (c_name contact)) = true.
Hypothesis phone_plain : plain (or_empty (c_phone contact)) = true.

Lemma name_no_brace : Str.includes_char "{" (or_empty (c_name contact)) = false.
Proof.
  unfold plain in name_plain. apply andb_prop in name_plain as [H _].
  now apply negb_true_iff in H.
Qed.

Lemma name_no_dollar : Str.includes_char "$" (or_empty (c_name contact)) = false.
Proof.
  unfold plain in name_plain. apply andb_prop in name_plain as [_ H].
  now apply negb_true_iff in H.
Qed.

Lemma phone_no_brace : Str.includes_char "{" (or_empty (c_phone contact)) = false.
Proof.
  unfold plain in phone_plain. apply andb_prop in phone_plain as [H _].
  now apply negb_true_iff in H.
Qed.

Lemma phone_no_dollar : Str.includes_char "$" (or_empty (c_phone contact)) = false.
Proof.
  unfold plain in phone_plain. apply andb_prop in phone_plain as [_ H].
  now apply negb_true_iff in H.
Qed.

(** Each pass copies text without [{], whatever pass it is. *)
Lemma replaceVariables_through p x :
  Str.includes_char "{" p = false ->
  replaceVariables (p +:+ x) contact = p +:+ replaceVariables x contact.
Proof.
  intros Hp. unfold replaceVariables. cbv zeta.
  rewrite (replace_all_through _ _ name_no_dollar _ _ Hp).
  rewrite (replace_all_through _ _ name_no_dollar _ _ Hp).
  rewrite (replace_all_through _ _ phone_no_dollar _ _ Hp).
  now rewrite (replace_all_through _ _ phone_no_dollar _ _ Hp).
Qed.

Lemma pass_name q x :
  spelling "{name}" q = true ->
  replaceVariables (q +:+ x) contact
  = or_empty (c_name contact) +:+ replaceVariables x contact.
Proof.
  intros H. unfold replaceVariables. cbv zeta.
  rewrite (replace_all_spelling "name}" _ name_no_dollar q x H).
  rewrite (replace_all_through "nama}" _ name_no_dollar _ _ name_no_brace).
  rewrite (replace_all_through "phone}" _ phone_no_dollar _ _ name_no_brace).
  now rewrite (replace_all_through "nomor}" _ phone_no_dollar _ _ name_no_brace).
Qed.

Lemma pass_nama q x :
  spelling "{nama}" q = true ->
  replaceVariables (q +:+ x) contact
  = or_empty (c_name contact) +:+ replaceVariables x contact.
Proof.
  intros H. unfold replaceVariables. cbv zeta.
  rewrite (replace_all_other "name}" _ name_no_dollar "nama}" q x H eq_refl)
    by (intros y; reflexivity).
  rewrite (replace_all_spelling "nama}" _ name_no_dollar q _ H).
  rewrite (replace_all_through "phone}" _ phone_no_dollar _ _ name_no_brace).
  now rewrite (replace_all_through "nomor}" _ phone_no_dollar _ _ name_no_brace).
Qed.

Lemma pass_phone q x :
  spelling "{phone}" q = true ->
  replaceVariables (q +:+ x) contact
  = or_empty (c_phone contact) +:+ replaceVariables x contact.
Proof.
  intros H. unfold replaceVariables. cbv zeta.
  rewrite (replace_all_other "name}" _ name_no_dollar "phone}" q x H eq_refl)
    by (intros y; reflexivity).
  rewrite (replace_all_other "nama}" _ name_no_dollar "phone}" q _ H eq_refl)
    by (intros y; reflexivity).
  rewrite (replace_all_spelling "phone}" _ phone_no_dollar q _ H).
  now rewrite (replace_all_through "nomor}" _ phone_no_dollar _ _ phone_no_brace).
Qed.

Lemma pass_nomor q x :
  spelling "{nomor}" q = true ->
  replaceVariables (q +:+ x) contact
  = or_empty (c_phone contact) +:+ replaceVariables x contact.
Proof.
  intros H. unfold replaceVariables. cbv zeta.
  rewrite (replace_all_other "name}" _ name_no_dollar "nomor}" q x H eq_refl)
    by (intros y; reflexivity).
  rewrite (replace_all_other "nama}" _ name_no_dollar "nomor}" q _ H eq_refl)
    by (intros y; reflexivity).
  rewrite (replace_all_other "phone}" _ phone_no_dollar "nomor}" q _ H eq_refl)
    by (intros y; reflexivity).
  now rewrite (replace_all_spelling "nomor}" _ phone_no_dollar q _ H).
Qed.

End Passes.

(** X6. A placeholder in any spelling of upper and lower case, after
    text without a brace, is replaced by the contact's field and the rest
    of the template is personalized on its own, when the contact's name
    and number contain neither a brace nor a dollar sign: [{name}] and
    [{nama}] give the name, [{phone}] and [{nomor}] the number, and a
    field that is missing gives the empty text. *)
Theorem replaceVariables_placeholder (contact : Contact)
  (p q rest v : string) :
  plain (or_empty (c_name contact)) = true ->
  plain (or_empty (c_phone contact)) = true ->
  Str.includes_char "{" p = false ->
  placeholder_field q contact = Some v ->
  replaceVariables (p +:+ q +:+ rest) contact
  = p +:+ v +:+ replaceVariables rest contact.
Proof.
  intros Hn Hph Hp Hq.
  rewrite (replaceVariables_through contact Hn Hph) by exact Hp. f_equal.
  unfold placeholder_field, name_placeholder, phone_placeholder in Hq.
  destruct (spelling "{name}" q) eqn:H1.
  { injection Hq as <-. now apply pass_name. }
  destruct (spelling "{nama}" q) eqn:H2.
  { injection Hq as <-. now apply pass_nama. }
  cbn [orb] in Hq.
  destruct (spelling "{phone}" q) eqn:H3.
  { injection Hq as <-. now apply pass_phone. }
  destruct (spelling "{nomor}" q) eqn:H4; [|discriminate].
  injection Hq as <-. now apply pass_nomor.
Qed.

Lemma replaceVariables_placeholder_witness :
  replaceVariables ("Halo " +:+ "{NaMa}" +:+ ", nomor {nomor}")
    (mkContact (Some "6281234") (Some "Budi"))
  = "Halo " +:+ "Budi"
    +:+ replaceVariables ", nomor {nomor}"
          (mkContact (Some "6281234") (Some "Budi")).
Proof.
  apply (replaceVariables_placeholder
           (mkContact (Some "6281234") (Some "Budi"))
           "Halo " "{NaMa}" ", nomor {nomor}" "Budi");
    reflexivity.
Defined.

(** X7. A template without an opening brace is sent as it is, whatever
    the contact. *)
Theorem replaceVariables_no_brace (template : string) (contact : Contact) :
  Str.includes_char "{" template = false ->
  replaceVariables template contact = template.
Proof.
  intros H. apply replaceVariables_fixed. unfold has_placeholder.
  now rewrite !occurs_brace by exact H.
Qed.

Lemma replaceVariables_no_brace_witness :
  replaceVariables "Promo $& 50%" (mkContact (Some "0812") (Some "{name}$&"))
  = "Promo $& 50%".
Proof. apply replaceVariables_no_brace. reflexivity. Defined.

Lemma plain_brace s : plain s = true -> Str.includes_char "{" s = false.
Proof.
  unfold plain. intros [H _]%andb_prop. now apply negb_true_iff in H.
Qed.

Lemma plain_dollar s : plain s = true -> Str.includes_char "$" s = false.
Proof.
  unfold plain. intros [_ H]%andb_prop. now apply negb_true_iff in H.
Qed.

Lemma between_assoc (p a q b r : string) :
  p +:+ (a +:+ q +:+ b) +:+ r = (p +:+ a) +:+ q +:+ (b +:+ r).
Proof. now rewrite !append_assoc. Qed.

Lemma between_brace (p a : string) :
  Str.includes_char "{" p = false -> Str.includes_char "{" a = false ->
  Str.includes_char "{" (p +:+ a) = false.
Proof. intros Hp Ha. now rewrite includes_char_app, Hp, Ha. Qed.

Ltac pass_keep pt pk HA HB HQ :=
  rewrite (replace_all_keep pt _ pk _ _ _ HA HB HQ eq_refl)
    by (intros; reflexivity).

Ltac pass_hit pt HA HB HQ H :=
  rewrite (replace_all_hit pt _ _ _ _ HA HB HQ),
    (get_substitution_plain _ _ _ _ H).

(** X8. The passes run in the order name, nama, phone, nomor, each on the
    output of the one before.  So a number placeholder inside a contact's
    name is replaced by the contact's number, while a name placeholder
    inside a contact's number is sent as it stands. *)
Theorem replaceVariables_pass_order (p t r a q b v : string)
  (other : option string) :
  Str.includes_char "{" p = false ->
  Str.includes_char "{" r = false ->
  plain a = true -> plain b = true -> plain v = true ->
  (name_placeholder t = true -> phone_placeholder q = true ->
   replaceVariables (p +:+ t +:+ r)
     (mkContact (Some v) (Some (a +:+ q +:+ b)))
   = p +:+ (a +:+ v +:+ b) +:+ r)
  /\ (phone_placeholder t = true -> name_placeholder q = true ->
      replaceVariables (p +:+ t +:+ r)
        (mkContact (Some (a +:+ q +:+ b)) other)
      = p +:+ (a +:+ q +:+ b) +:+ r).
Proof.
  intros Hp Hr Ha Hb Hv.
  pose proof (plain_brace _ Ha) as Ha1. pose proof (plain_dollar _ Ha) as Ha2.
  pose proof (plain_brace _ Hb) as Hb1. pose proof (plain_dollar _ Hb) as Hb2.
  pose proof (plain_brace _ Hv) as Hv1. pose proof (plain_dollar _ Hv) as Hv2.
  pose proof (between_brace _ _ Hp Ha1) as HA.
  pose proof (between_brace _ _ Hb1 Hr) as HB.
  assert (HV : Str.includes_char "{" (p +:+ (a +:+ v +:+ b) +:+ r) = false).
  { now rewrite !includes_char_app, Hp, Ha1, Hv1, Hb1, Hr. }
  assert (HN : forall pk, spelling pk q = true ->
            Str.includes_char "$" pk = false ->
            Str.includes_char "$" (a +:+ q +:+ b) = false).
  { intros pk Hq Hpk.
    now rewrite !includes_char_app, Ha2, Hb2, (spelling_dollar pk q Hq), Hpk. }
  unfold name_placeholder, phone_placeholder.
  unfold replaceVariables; cbn [c_name c_phone or_empty]; cbv zeta.
  split; intros Ht Hq;
    apply orb_prop in Ht as [Ht|Ht]; apply orb_prop in Hq as [Hq|Hq];
    pose proof (HN _ Hq eq_refl) as HN'.
  - pass_hit "name}" Hp Hr Ht HN'. rewrite between_assoc.
    pass_keep "nama}" "phone}" HA HB Hq.
    pass_hit "phone}" HA HB Hq Hv2. rewrite <- between_assoc.
    now rewrite replace_all_no_brace.
  - pass_hit "name}" Hp Hr Ht HN'. rewrite between_assoc.
    pass_keep "nama}" "nomor}" HA HB Hq.
    pass_keep "phone}" "nomor}" HA HB Hq.
    pass_hit "nomor}" HA HB Hq Hv2. now rewrite <- between_assoc.
  - pass_keep "name}" "nama}" Hp Hr Ht.
    pass_hit "nama}" Hp Hr Ht HN'. rewrite between_assoc.
    pass_hit "phone}" HA HB Hq Hv2. rewrite <- between_assoc.
    now rewrite replace_all_no_brace.
  - pass_keep "name}" "nama}" Hp Hr Ht.
    pass_hit "nama}" Hp Hr Ht HN'. rewrite between_assoc.
    pass_keep "phone}" "nomor}" HA HB Hq.
    pass_hit "nomor}" HA HB Hq Hv2. now rewrite <- between_assoc.
  - pass_keep "name}" "phone}" Hp Hr Ht.
    pass_keep "nama}" "phone}" Hp Hr Ht.
    pass_hit "phone}" Hp Hr Ht HN'. rewrite between_assoc.
    pass_keep "nomor}" "name}" HA HB Hq. now rewrite <- between_assoc.
  - pass_keep "name}" "phone}" Hp Hr Ht.
    pass_keep "nama}" "phone}" Hp Hr Ht.
    pass_hit "phone}" Hp Hr Ht HN'. rewrite between_assoc.
    pass_keep "nomor}" "nama}" HA HB Hq. now rewrite <- between_assoc.
  - pass_keep "name}" "nomor}" Hp Hr Ht.
    pass_keep "nama}" "nomor}" Hp Hr Ht.
    pass_keep "phone}" "nomor}" Hp Hr Ht.
    pass_hit "nomor}" Hp Hr Ht HN'. reflexivity.
  - pass_keep "name}" "nomor}" Hp Hr Ht.
    pass_keep "nama}" "nomor}" Hp Hr Ht.
    pass_keep "phone}" "nomor}" Hp Hr Ht.
    pass_hit "nomor}" Hp Hr Ht HN'. reflexivity.
Qed.

Lemma replaceVariables_pass_order_witness :
  replaceVariables "Hi {name}!"
    (mkContact (Some "62811") (Some "Budi ({NOMOR})")) = "Hi Budi (62811)!"
  /\ replaceVariables "Call {phone}"
       (mkContact (Some "0811 {name}") (Some "Budi")) = "Call 0811 {name}".
Proof.
  split.
  - apply (proj1 (replaceVariables_pass_order
                    "Hi " "{name}" "!" "Budi (" "{NOMOR}" ")" "62811" None
                    eq_refl eq_refl eq_refl eq_refl eq_refl));
      reflexivity.
  - apply (proj2 (replaceVariables_pass_order
                    "Call " "{phone}" "" "0811 " "{name}" "" "" (Some "Budi")
                    eq_refl eq_refl eq_refl eq_refl eq_refl));
      reflexivity.
Defined.

(** X9. The replacement text is read as a pattern: [$&] in a contact's
    name stands for the text matched, so the placeholder comes back in
    the middle of the name. *)
Theorem replaceVariables_dollar_ampersand (p t r a b : string)
  (phone : option string) :
  Str.includes_char "{" p = false ->
  Str.includes_char "{" r = false ->
  plain a = true -> plain b = true ->
  name_placeholder t = true ->
  replaceVariables (p +:+ t +:+ r)
    (mkContact phone (Some (a +:+ "$&" +:+ b)))
  = p +:+ (a +:+ t +:+ b) +:+ r.
Proof.
  intros Hp Hr Ha Hb Ht.
  pose proof (plain_brace _ Ha) as Ha1. pose proof (plain_dollar _ Ha) as Ha2.
  pose proof (plain_brace _ Hb) as Hb1. pose proof (plain_dollar _ Hb) as Hb2.
  pose proof (between_brace _ _ Hp Ha1) as HA.
  pose proof (between_brace _ _ Hb1 Hr) as HB.
  unfold name_placeholder in Ht.
  unfold replaceVariables; cbn [c_name c_phone or_empty]; cbv zeta.
  change (or_empty (Some (a +:+ "$&" +:+ b)))
    with (a +:+ String "$" (String "&" b)).
  apply orb_prop in Ht as [Ht|Ht].
  - rewrite (replace_all_hit "name}" _ _ _ _ Hp Hr Ht).
    rewrite (get_substitution_matched t p r a b Ha2 Hb2). rewrite between_assoc.
    pass_keep "nama}" "name}" HA HB Ht.
    pass_keep "phone}" "name}" HA HB Ht.
    pass_keep "nomor}" "name}" HA HB Ht. reflexivity.
  - pass_keep "name}" "nama}" Hp Hr Ht.
    rewrite (replace_all_hit "nama}" _ _ _ _ Hp Hr Ht).
    rewrite (get_substitution_matched t p r a b Ha2 Hb2). rewrite between_assoc.
    pass_keep "phone}" "nama}" HA HB Ht.
    pass_keep "nomor}" "nama}" HA HB Ht. reflexivity.
Qed.

Lemma replaceVariables_dollar_ampersand_witness :
  replaceVariables "Halo {Name}, apa kabar?"
    (mkContact (Some "62811") (Some "A$&B"))
  = "Halo A{Name}B, apa kabar?".
Proof.
  apply (replaceVariables_dollar_ampersand
           "Halo " "{Name}" ", apa kabar?" "A" "B" (Some "62811"));
    reflexivity.
Defined.


(** ** The run, step by step *)

Lemma dispatched_app tr1 tr2 :
  dispatched (tr1 ++ tr2) = dispatched tr1 ++ dispatched tr2.
Proof.
  induction tr1 as [|e tr1 IH]; [reflexivity|].
  destruct e; cbn [dispatched app]; rewrite ?IH; reflexivity.
Qed.

Lemma closing_app tr1 tr2 :
  closing (tr1 ++ tr2) = (closing tr1 + closing tr2)%nat.
Proof.
  induction tr1 as [|e tr1 IH]; [reflexivity|].
  destruct e as [m|ev| | | | | |]; cbn [closing app]; rewrite ?IH;
    try reflexivity; [destruct m | destruct ev]; cbn [closing app];
    rewrite ?IH; reflexivity.
Qed.

Lemma silent_nil : silent [].
Proof. now repeat split. Qed.

Lemma silent_app s1 s2 : silent s1 -> silent s2 -> silent (s1 ++ s2).
Proof.
  intros (A1 & D1 & C1) (A2 & D2 & C2). unfold silent.
  rewrite attempts_app, dispatched_app, closing_app, A1, A2, D1, D2, C1, C2.
  now repeat split.
Qed.

Lemma restIfDue_exact e socket i st :
  exists suffix,
    restIfDue e socket i st
    = (Normal tt,
       (stopped (needsBatchRest (fst st) (Z.of_nat i) && env_stopDuringRest e)
          (fst st),
        snd st ++ suffix))
    /\ silent suffix.
Proof.
  destruct st as [s tr]. unfold restIfDue, stopped. rewrite bind_run.
  cbn [get fst snd]. destruct (needsBatchRest s (Z.of_nat i)); cbn [andb].
  - destruct socket; repeat run_step;
      unfold sleep; rewrite await_run; cbn [fst snd];
      rewrite <- ?app_assoc; eexists; (split; [reflexivity|]);
      repeat split.
  - exists []. rewrite app_nil_r. split; [reflexivity | apply silent_nil].
Qed.

Lemma waitBeforeNext_exact e socket i total st :
  exists suffix,
    waitBeforeNext e socket i total st
    = (Normal tt,
       (stopped ((Z.of_nat i <? Z.of_nat total - 1)
                 && sendingInProgress (fst st) && env_stopDuringDelay e)
          (fst st),
        snd st ++ suffix))
    /\ silent suffix.
Proof.
  destruct st as [s tr]. unfold waitBeforeNext, stopped. rewrite bind_run.
  cbn [get fst snd].
  destruct ((Z.of_nat i <? Z.of_nat total - 1) && sendingInProgress s);
    cbn [andb].
  - destruct (env_delayDraws e) as [[r1 r2] r3].
    destruct socket; repeat run_step;
      unfold sleep; rewrite await_run; cbn [fst snd];
      rewrite <- ?app_assoc; eexists; (split; [reflexivity|]);
      repeat split.
  - exists []. rewrite app_nil_r. split; [reflexivity | apply silent_nil].
Qed.

Lemma record_success_exact socket contact st j :
  currentJob (fst st) = Some j ->
  exists suffix,
    record_success socket contact st
    = (Normal tt,
       (set_currentJob
          (Some (push_result
                   (mkResult (c_phone contact) (c_name contact)
                      StatusSuccess None)
                   (incr_sent j)))
          (incr_sessionCounter (incr_count (fst st))),
        snd st ++ suffix))
    /\ silent suffix.
Proof.
  destruct st as [[ready st0 daily n flag job0 sock] tr].
  cbn [fst snd currentJob]. intros ->.
  destruct socket;
    cbv [record_success modify_job get_job mbind M_bind mret
         M_ret get modify effect log emit throw fst snd currentJob
         set_currentJob incr_sessionCounter incr_count set_sessionCounter
         set_dailyCounter];
    rewrite <- ?app_assoc; eexists; (split; [reflexivity|]); repeat split.
Qed.

Lemma record_failure_exact socket contact message st j :
  currentJob (fst st) = Some j ->
  exists suffix,
    record_failure socket contact message st
    = (Normal tt,
       (set_currentJob
          (Some (push_result
                   (mkResult (c_phone contact) (c_name contact)
                      StatusFailed (Some message))
                   (incr_failed j)))
          (fst st),
        snd st ++ suffix))
    /\ silent suffix.
Proof.
  destruct st as [[ready st0 daily n flag job0 sock] tr].
  cbn [fst snd currentJob]. intros ->.
  destruct socket;
    cbv [record_failure modify_job get_job mbind M_bind mret
         M_ret get modify effect log emit throw fst snd currentJob
         set_currentJob incr_sessionCounter incr_count set_sessionCounter
         set_dailyCounter];
    rewrite <- ?app_assoc; eexists; (split; [reflexivity|]); repeat split.
Qed.

Lemma simulateTyping_exact e chatId st :
  exists suffix,
    simulateTyping e chatId st = (Normal tt, (fst st, snd st ++ suffix))
    /\ silent suffix.
Proof.
  destruct st as [s tr]. unfold simulateTyping. rewrite bind_run.
  cbn [get fst snd]. destruct (negb _).
  - exists []. rewrite app_nil_r. split; [reflexivity | apply silent_nil].
  - unfold try_catch. rewrite await_run. cbn [fst snd].
    exists [CallTyping chatId].
    destruct (env_typing e) as [[]|message]; now repeat split.
Qed.

Lemma dispatch_exact e mediaPath phone text st :
  exists suffix,
    dispatch e mediaPath phone text st
    = (dispatch_outcome e mediaPath, (fst st, snd st ++ suffix))
    /\ attempts suffix = 0%nat
    /\ closing suffix = 0%nat
    /\ dispatched suffix
       = if truthy mediaPath && env_existsSync e then
           match env_fromFilePath e with
           | Normal _ => [phone]
           | Thrown _ => []
           end
         else [phone].
Proof.
  destruct st as [s tr]. unfold dispatch, dispatch_outcome.
  destruct mediaPath as [path|];
    [|cbn [truthy andb]; rewrite await_run; eexists; now repeat split].
  destruct (truthy (Some path) && env_existsSync e);
    [|rewrite await_run; eexists; now repeat split].
  rewrite bind_run, await_run. cbn [fst snd].
  destruct (env_fromFilePath e) as [[]|message];
    [|eexists; now repeat split].
  rewrite await_run. cbn [fst snd]. rewrite <- app_assoc.
  eexists; now repeat split.
Qed.

(** One attempt, whatever the transport answers. *)
Lemma attempt_exact e socket mediaPath contact phone text st j :
  currentJob (fst st) = Some j ->
  exists suffix,
    attempt e socket mediaPath contact phone text st
    = (Normal tt,
       (after_attempt e mediaPath contact j (fst st),
        snd st ++ CallIsRegisteredUser phone :: suffix))
    /\ attempts suffix = 0%nat
    /\ closing suffix = 0%nat
    /\ dispatched suffix
       = if handed_over e mediaPath then [phone] else [].
Proof.
  destruct st as [s tr]. cbn [fst snd]. intros Hj.
  unfold attempt, try_catch, after_attempt, expected_entry, attempt_failure,
    handed_over.
  rewrite bind_run, await_run. cbn [fst snd].
  change (if env_stopDuringSend e then set_sendingInProgress false s else s)
    with (stopped (env_stopDuringSend e) s).
  assert (Hj1 : currentJob (stopped (env_stopDuringSend e) s) = Some j).
  { unfold stopped. now destruct (env_stopDuringSend e). }
  set (s1 := stopped (env_stopDuringSend e) s) in *. clearbody s1.
  destruct (env_isRegisteredUser e) as [[|]|message].
  - cbn [negb]. rewrite bind_run. cbn [mret M_ret]. rewrite bind_run.
    destruct (simulateTyping_exact e phone
                (s1, tr ++ [CallIsRegisteredUser phone]))
      as (s2 & -> & A2 & D2 & C2).
    cbn [fst snd]. rewrite bind_run.
    destruct (dispatch_exact e mediaPath phone text
                (s1, (tr ++ [CallIsRegisteredUser phone]) ++ s2))
      as (s3 & -> & A3 & C3 & D3).
    cbn [fst snd].
    destruct (dispatch_outcome e mediaPath) as [[]|message].
    + destruct (record_success_exact socket contact
                  (s1, ((tr ++ [CallIsRegisteredUser phone]) ++ s2) ++ s3)
                  j Hj1) as (s4 & -> & A4 & D4 & C4).
      cbn [fst snd]. exists (s2 ++ s3 ++ s4).
      split; [now rewrite <- !app_assoc|].
      rewrite !attempts_app, !closing_app, !dispatched_app, A2, A3, A4, C2,
        C3, C4, D2, D3, D4, app_nil_r.
      repeat split. cbn [app].
      destruct (truthy mediaPath && env_existsSync e); [|reflexivity].
      now destruct (env_fromFilePath e).
    + destruct (record_failure_exact socket contact message
                  (s1, ((tr ++ [CallIsRegisteredUser phone]) ++ s2) ++ s3)
                  j Hj1) as (s4 & -> & A4 & D4 & C4).
      cbn [fst snd]. exists (s2 ++ s3 ++ s4).
      split; [now rewrite <- !app_assoc|].
      rewrite !attempts_app, !closing_app, !dispatched_app, A2, A3, A4, C2,
        C3, C4, D2, D3, D4, app_nil_r.
      repeat split. cbn [app].
      destruct (truthy mediaPath && env_existsSync e); [|reflexivity].
      now destruct (env_fromFilePath e).
  - cbn [negb]. rewrite bind_run. cbn [throw].
    destruct (record_failure_exact socket contact
                "Not registered on WhatsApp"
                (s1, tr ++ [CallIsRegisteredUser phone]) j Hj1)
      as (s4 & -> & A4 & D4 & C4).
    cbn [fst snd]. exists s4. rewrite <- app_assoc. now repeat split.
  - destruct (record_failure_exact socket contact message
                (s1, tr ++ [CallIsRegisteredUser phone]) j Hj1)
      as (s4 & -> & A4 & D4 & C4).
    cbn [fst snd]. exists s4. rewrite <- app_assoc. now repeat split.
Qed.

Lemma stopped_fields down s :
  settings (stopped down s) = settings s
  /\ isReady (stopped down s) = isReady s
  /\ hasSocket (stopped down s) = hasSocket s
  /\ dailyCounter (stopped down s) = dailyCounter s
  /\ sessionCounter (stopped down s) = sessionCounter s
  /\ currentJob (stopped down s) = currentJob s
  /\ sendingInProgress (stopped down s) = sendingInProgress s && negb down.
Proof.
  unfold stopped. destruct down; cbn; rewrite ?andb_true_r, ?andb_false_r;
    now repeat split.
Qed.

(** One iteration, whatever the transport answers: on a recipient with a
    number, under a request with a message text, it ends normally; on
    another it throws before the attempt. *)
Lemma iteration_exact env socket total tmpl media i contact st j :
  currentJob (fst st) = Some j ->
  match c_phone contact, tmpl with
  | Some p, Some t =>
      exists suffix,
        iteration env socket total tmpl media i contact st
        = (Normal tt,
           (after_iteration (env i) media total i contact j (fst st),
            snd st ++ suffix))
        /\ attempts suffix = 1%nat
        /\ closing suffix = 0%nat
        /\ dispatched suffix
           = if handed_over (env i) media then [formatPhoneNumber p] else []
  | _, _ =>
      exists message suffix,
        iteration env socket total tmpl media i contact st
        = (Thrown message,
           (stopped (needsBatchRest (fst st) (Z.of_nat i)
                     && env_stopDuringRest (env i)) (fst st),
            snd st ++ suffix))
        /\ silent suffix
  end.
Proof.
  destruct st as [s tr]. cbn [fst snd]. intros Hj.
  unfold iteration, after_iteration. rewrite bind_run.
  destruct (restIfDue_exact (env i) socket i (s, tr)) as (s1 & -> & S1).
  cbn [fst snd].
  set (sa := stopped _ s).
  assert (Hj1 : currentJob sa = Some j).
  { subst sa. now rewrite (proj1 (proj2 (proj2 (proj2 (proj2 (proj2
      (stopped_fields _ s))))))). }
  clearbody sa.
  destruct (c_phone contact) as [p|] eqn:Hp.
  2:{ exists "Cannot read properties of undefined (reading 'toString')", s1.
      now split. }
  rewrite bind_run. cbn [formatPhoneNumber_call mret M_ret].
  destruct tmpl as [t|].
  2:{ exists "Cannot read properties of undefined (reading 'replace')", s1.
      now split. }
  rewrite bind_run. cbn [replaceVariables_call mret M_ret]. rewrite bind_run.
  destruct (attempt_exact (env i) socket media contact (formatPhoneNumber p)
              (replaceVariables t contact) (sa, tr ++ s1) j Hj1)
    as (s2 & -> & A2 & C2 & D2).
  cbn [fst snd].
  destruct (waitBeforeNext_exact (env i) socket i total
              (after_attempt (env i) media contact j sa,
               (tr ++ s1) ++ CallIsRegisteredUser (formatPhoneNumber p) :: s2))
    as (s3 & -> & A3 & D3 & C3).
  cbn [fst snd].
  exists (s1 ++ CallIsRegisteredUser (formatPhoneNumber p) :: s2 ++ s3).
  split; [now rewrite <- !app_assoc|].
  destruct S1 as (A1 & D1 & C1).
  rewrite attempts_app, closing_app, dispatched_app. cbn [attempts closing
    dispatched]. rewrite attempts_app, closing_app, dispatched_app.
  rewrite A1, A2, A3, C1, C2, C3, D1, D2, D3, app_nil_r.
  now repeat split.
Qed.

(** The fields of the session after one iteration. *)
Lemma after_iteration_fields e media total i contact j s :
  let s' := after_iteration e media total i contact j s in
  let entry := expected_entry e media contact in
  settings s' = settings s
  /\ isReady s' = isReady s
  /\ hasSocket s' = hasSocket s
  /\ date (dailyCounter s') = date (dailyCounter s)
  /\ currentJob s' = Some (push_result entry (bump (r_status entry) j))
  /\ count (dailyCounter s')
     = count (dailyCounter s) + (sent (bump (r_status entry) j) - sent j)
  /\ sessionCounter s'
     = sessionCounter s + (sent (bump (r_status entry) j) - sent j).
Proof.
  destruct s as [ready st0 [d c] n flag job0 sock].
  unfold after_iteration. cbv zeta.
  match goal with
  | |- context [stopped ?b (after_attempt _ _ _ _ _)] =>
      generalize b; intros b3
  end.
  match goal with
  | |- context [after_attempt _ _ _ _ (stopped ?b _)] =>
      generalize b; intros b1
  end.
  unfold after_attempt, expected_entry, stopped.
  destruct b1, b3, (env_stopDuringSend e),
    (attempt_failure e media) as [reason|];
    cbn; repeat split; lia.
Qed.

Lemma after_iteration_flag e media total i contact j s :
  sendingInProgress (after_iteration e media total i contact j s)
  = sendingInProgress s
    && negb (needsBatchRest s (Z.of_nat i) && env_stopDuringRest e)
    && negb (env_stopDuringSend e)
    && negb ((Z.of_nat i <? Z.of_nat total - 1) && env_stopDuringDelay e).
Proof.
  destruct s as [ready st0 [d c] n flag job0 sock].
  unfold after_iteration. cbv zeta.
  generalize (Z.of_nat i <? Z.of_nat total - 1). intros b3.
  match goal with
  | |- context [after_attempt _ _ _ _ (stopped ?b _)] =>
      generalize b; intros b1
  end.
  unfold after_attempt, expected_entry, stopped.
  destruct b1, b3, flag, (env_stopDuringSend e), (env_stopDuringDelay e),
    (attempt_failure e media) as [reason|];
    reflexivity.
Qed.

Lemma checkDailyLimit_fields today s :
  let r := checkDailyLimit today s in
  settings (snd r) = settings s
  /\ isReady (snd r) = isReady s
  /\ hasSocket (snd r) = hasSocket s
  /\ currentJob (snd r) = currentJob s
  /\ sendingInProgress (snd r) = sendingInProgress s
  /\ (fst r = true ->
      count (dailyCounter (snd r)) < Settings.dailyLimit (settings s))
  /\ (0 <= Settings.dailyLimit (settings s) ->
      count (dailyCounter s) <= Settings.dailyLimit (settings s) ->
      count (dailyCounter (snd r)) <= Settings.dailyLimit (settings s))
  /\ (today = date (dailyCounter s) -> snd r = s).
Proof.
  unfold checkDailyLimit.
  destruct (String.eqb_spec (date (dailyCounter s)) today) as [E|E];
    cbn [negb fst snd]; destruct s as [ready st0 [d c] n flag job0 sock];
    cbn in *; repeat split; try lia; try congruence.
Qed.

(** The ledger of the loop, however it is left; the loop saves nothing
    and announces no completion. *)
Lemma loop_ledger env socket total tmpl media rest :
  forall i st j,
    currentJob (fst st) = Some j ->
    exists k j',
      ledger env media i rest st j
        (loop env socket total tmpl media i rest st) k j'
      /\ closing (snd (snd (loop env socket total tmpl media i rest st)))
         = closing (snd st).
Proof.
  induction rest as [|contact rest IH]; intros i st j Hj.
  { exists 0%nat, j. unfold ledger. cbn [loop mret M_ret fst snd firstn handed
      length]. rewrite app_nil_r. repeat split; try assumption; lia. }
  rewrite loop_cons.
  destruct (sendingInProgress (fst st)) eqn:Hflag; cbn [negb].
  2:{ exists 0%nat, j. unfold ledger. cbn [fst snd firstn handed length].
      rewrite closing_app, attempts_app, dispatched_app, app_nil_r.
      cbn [closing attempts dispatched]. rewrite app_nil_r.
      repeat split; try assumption; try lia; discriminate. }
  cbv zeta.
  destruct (checkDailyLimit_fields (env_today (env i)) (fst st))
    as (Hset & Hready & Hsock & Hjob & Hfl & Hlt & Hle & Hsame).
  set (s1 := snd (checkDailyLimit (env_today (env i)) (fst st))) in *.
  destruct (fst (checkDailyLimit (env_today (env i)) (fst st))); cbn [negb].
  2:{ exists 0%nat, j. unfold ledger. cbn [fst snd firstn handed length].
      rewrite !closing_app, !attempts_app, !dispatched_app, app_nil_r.
      cbn [closing attempts dispatched].
      repeat split; try assumption; try lia; try discriminate;
        try (destruct socket; cbn; rewrite ?app_nil_r; (lia || reflexivity));
        try congruence;
        match goal with
        | H : forall n, _ = _ |- _ => rewrite (Hsame (H i))
        end; (reflexivity || lia). }
  pose proof (iteration_exact env socket total tmpl media i contact
                (s1, snd st) j (eq_trans Hjob Hj)) as Hit.
  cbn [fst snd] in Hit.
  assert (Hthrown :
    forall m suffix,
      silent suffix ->
      exists k j',
        ledger env media i (contact :: rest) st j
          (Thrown m,
           (stopped (needsBatchRest s1 (Z.of_nat i)
                     && env_stopDuringRest (env i)) s1,
            snd st ++ suffix)) k j'
        /\ closing (snd st ++ suffix) = closing (snd st)).
  { intros m suffix (A & D & C).
    destruct (stopped_fields
                (needsBatchRest s1 (Z.of_nat i) && env_stopDuringRest (env i))
                s1) as (F1 & F2 & F3 & F4 & F5 & F6 & _).
    exists 0%nat, j. unfold ledger. cbn [fst snd firstn handed length].
    rewrite closing_app, attempts_app, dispatched_app, A, D, C, !app_nil_r,
      F1, F2, F3, F4, F5, F6.
    repeat split; try congruence; try lia; try discriminate;
      try (specialize (Hlt eq_refl); lia);
      match goal with
      | H : forall n, _ = _ |- _ => rewrite (Hsame (H i))
      end; (reflexivity || lia). }
  destruct (c_phone contact) as [p|] eqn:Hp.
  2:{ destruct Hit as (m & suffix & -> & Hs). now apply Hthrown. }
  destruct tmpl as [t|].
  2:{ destruct Hit as (m & suffix & -> & Hs). now apply Hthrown. }
  clear Hthrown.
  destruct Hit as (suffix & -> & A & C & D).
  destruct (after_iteration_fields (env i) media total i contact j s1)
    as (G1 & G2 & G3 & G4 & G5 & G6 & G7).
  set (s2 := after_iteration (env i) media total i contact j s1) in *.
  set (entry := expected_entry (env i) media contact) in *.
  destruct (IH (S i) (s2, snd st ++ suffix) _ G5) as (k & j' & L & L6).
  exists (S k), j'. revert L L6. unfold ledger. cbn [fst snd].
  set (r := loop env socket total (Some t) media (S i) rest _).
  intros (L1 & L2 & L3 & L4 & L5 & L7 & L8 & L9 & L10 & L11) L6.
  specialize (Hlt eq_refl).
  assert (Hd : 0 <= sent (bump (r_status entry) j) - sent j <= 1).
  { destruct (r_status entry); cbn; lia. }
  cbn [sent push_result] in *.
  rewrite closing_app, C in L6. rewrite attempts_app, A in L7.
  rewrite dispatched_app, D, <- app_assoc in L8.
  cbn [length firstn handed]. rewrite Hp. cbn [or_empty].
  split; [|lia].
  split; [lia|]. split; [exact L2|].
  split; [congruence|]. split; [congruence|]. split; [congruence|].
  split; [lia|]. split; [exact L8|].
  split; [intros E; rewrite (L9 E); reflexivity|].
  split.
  - intros H0 Hc. rewrite <- Hset, <- G1. apply L10; rewrite G1, Hset; lia.
  - intros Hday. pose proof (Hsame (Hday i)) as E.
    destruct L11 as (M1 & M2 & M3).
    { intros n. rewrite G4. fold s1. rewrite E. apply Hday. }
    rewrite E in *. repeat split; [congruence | lia | lia].
Qed.

(** The ledger of a run: when the end of [processBulkSend] is reached the
    flag is down and the session has been saved and the completion
    announced; when the run throws, nothing has been. *)
Lemma processBulkSend_ledger env contacts tmpl media st j :
  currentJob (fst st) = Some j ->
  exists k j',
    ledger env media 0 contacts st j
      (processBulkSend env contacts tmpl media st) k j'
    /\ match fst (processBulkSend env contacts tmpl media st) with
       | Normal _ =>
           sendingInProgress
             (fst (snd (processBulkSend env contacts tmpl media st))) = false
           /\ closing (snd (snd (processBulkSend env contacts tmpl media st)))
              = (closing (snd st) + if hasSocket (fst st) then 3 else 2)%nat
       | Thrown _ =>
           closing (snd (snd (processBulkSend env contacts tmpl media st)))
           = closing (snd st)
       end.
Proof.
  intros Hj. rewrite processBulkSend_run.
  destruct (loop_ledger env (hasSocket (fst st)) (length contacts) tmpl media
              contacts 0%nat
              (fst st,
               snd st ++ [Log (LogStarting (Z.of_nat (length contacts)))])
              j Hj) as (k & j' & L & C).
  exists k, j'. revert L C. unfold ledger. cbn [fst snd].
  destruct (loop _ _ _ _ _ _ _ _) as [[exit|message] [s1 tr1]].
  - cbn [fst snd]. cbv zeta.
    change (currentJob (set_sendingInProgress false s1))
      with (currentJob s1).
    rewrite !attempts_app, !dispatched_app, !closing_app. cbn [attempts
      dispatched closing]. rewrite !app_nil_r, !Nat.add_0_r.
    intros (L1 & L2 & L3 & L4 & L5 & L7 & L8 & L9 & L10 & L11) C.
    rewrite L2. cbn [fst snd].
    rewrite !attempts_app, !dispatched_app, !closing_app.
    destruct (hasSocket (fst st)); cbn [attempts dispatched closing];
      rewrite ?app_nil_r, ?Nat.add_0_r;
      (split; [|split; [reflexivity | lia]]);
      repeat split; try assumption; try lia;
      first [ apply L10; assumption | apply L11; assumption ].
  - cbn [fst snd].
    rewrite !attempts_app, !dispatched_app, !closing_app. cbn [attempts
      dispatched closing]. rewrite !app_nil_r, !Nat.add_0_r.
    intros L C. split; [|exact C].
    destruct L as (L1 & L2 & L3 & L4 & L5 & L7 & L8 & L9 & L10 & L11).
    repeat split; try assumption;
      first [ apply L10; assumption | apply L11; assumption ].
Qed.

(** ** Quota, counters and what is handed to the transport *)



(** X12. What a run hands to the transport: a message goes out for the
    recipients attempted whose registration check answered yes and, when
    media is used, whose media file was loaded, in their order and under
    their normalized numbers, and for no one else.  The recipients
    attempted are the first [k] ones, all of them when the loop runs to
    its end. *)
Theorem run_hands_over_to_registered_only (env : Env)
  (contacts : list Contact) (tmpl media : option string) (st : State)
  (j : Job) :
  currentJob (fst st) = Some j ->
  let r := processBulkSend env contacts tmpl media st in
  exists k,
    (k <= length contacts)%nat
    /\ attempts (snd (snd r)) = (attempts (snd st) + k)%nat
    /\ dispatched (snd (snd r))
       = dispatched (snd st) ++ handed env media 0 (firstn k contacts)
    /\ (fst r = Normal Completed -> k = length contacts).
Proof.
  intros Hj.
  destruct (processBulkSend_ledger env contacts tmpl media st j Hj)
    as (k & j' & (L1 & _ & _ & _ & _ & L7 & L8 & L9 & _) & _).
  cbv zeta. exists k. now repeat split.
Qed.

Lemma run_hands_over_to_registered_only_witness :
  let r :=
    processBulkSend unregistered_second_env three_contacts
      (Some "Hi {name}") None (started_session 3 sample_session, []) in
  exists k,
    (k <= 3)%nat
    /\ attempts (snd (snd r)) = (0 + k)%nat
    /\ dispatched (snd (snd r))
       = [] ++ handed unregistered_second_env None 0 (firstn k three_contacts)
    /\ (fst r = Normal Completed -> k = 3%nat).
Proof.
  apply (run_hands_over_to_registered_only unregistered_second_env
           three_contacts (Some "Hi {name}") None
           (started_session 3 sample_session, []) (mkJob 3 0 0 [])).
  reflexivity.
Defined.

Example run_hands_over_example :
  dispatched
    (snd (snd (processBulkSend unregistered_second_env three_contacts
                 (Some "Hi {name}") None
                 (started_session 3 sample_session, []))))
  = ["62811@c.us"; "62813@c.us"].
Proof. reflexivity. Qed.

(** ** Stop requests, further *)

(** X13. A stop request served while the attempt on recipient [i] is
    suspended, or during the wait after it, does not undo the attempt:
    the recipient is attempted, the message is handed over if the number
    is registered, and the loop is left as stopped at its next check,
    before the next recipient, when nothing raises the flag again
    meanwhile. *)
Theorem stop_during_attempt_or_wait (env : Env) (socket : bool)
  (total : nat) (tmpl media : option string) (i : nat)
  (contact next : Contact) (rest : list Contact) (st : State) (j : Job)
  (p t : string) :
  sendingInProgress (fst st) = true ->
  fst (checkDailyLimit (env_today (env i)) (fst st)) = true ->
  currentJob (fst st) = Some j ->
  c_phone contact = Some p ->
  tmpl = Some t ->
  env_stopDuringSend (env i)
  || (Z.of_nat i <? Z.of_nat total - 1) && env_stopDuringDelay (env i)
  = true ->
  exists st',
    loop env socket total tmpl media i (contact :: next :: rest) st
    = (Normal Stopped, st')
    /\ currentJob (fst st')
       = Some (push_result (expected_entry (env i) media contact)
                 (bump (r_status (expected_entry (env i) media contact)) j))
    /\ attempts (snd st') = S (attempts (snd st))
    /\ dispatched (snd st')
       = dispatched (snd st)
         ++ (if handed_over (env i) media then [formatPhoneNumber p] else [])
    /\ sendingInProgress (fst st') = false.
Proof.
  intros Hflag Hquota Hj Hp -> Hstop.
  rewrite loop_cons, Hflag. cbn [negb]. cbv zeta. rewrite Hquota. cbn [negb].
  destruct (checkDailyLimit_fields (env_today (env i)) (fst st))
    as (_ & _ & _ & Hjob & Hfl & _).
  set (s1 := snd (checkDailyLimit (env_today (env i)) (fst st))) in *.
  pose proof (iteration_exact env socket total (Some t) media i contact
                (s1, snd st) j (eq_trans Hjob Hj)) as Hit.
  rewrite Hp in Hit. cbn [fst snd] in Hit.
  destruct Hit as (suffix & -> & A & C & D).
  destruct (after_iteration_fields (env i) media total i contact j s1)
    as (_ & _ & _ & _ & G5 & _).
  pose proof (after_iteration_flag (env i) media total i contact j s1) as F.
  assert (Hoff : sendingInProgress
                   (after_iteration (env i) media total i contact j s1)
                 = false).
  { rewrite F. apply orb_prop in Hstop as [->|H].
    - cbn. now rewrite andb_false_r.
    - rewrite H. cbn. now rewrite andb_false_r. }
  rewrite loop_stopped by exact Hoff. eexists. split; [reflexivity|].
  cbn [fst snd]. split; [exact G5|].
  rewrite !attempts_app, !dispatched_app, A, D. cbn [attempts dispatched].
  rewrite app_nil_r. repeat split; [lia | exact Hoff].
Qed.

Lemma stop_during_attempt_or_wait_witness :
  exists st',
    loop stop_in_send_env true 3 (Some "Hi {name}") None 0
      (mkContact (Some "0811") (Some "Ani")
       :: mkContact (Some "0812") (Some "Budi")
       :: [mkContact (Some "0813") None])
      (started_session 3 sample_session, [])
    = (Normal Stopped, st')
    /\ currentJob (fst st')
       = Some (push_result
                 (mkResult (Some "0811") (Some "Ani") StatusSuccess None)
                 (incr_sent (mkJob 3 0 0 [])))
    /\ attempts (snd st') = 1%nat
    /\ dispatched (snd st') = ["62811@c.us"]
    /\ sendingInProgress (fst st') = false.
Proof.
  apply (stop_during_attempt_or_wait stop_in_send_env true 3
           (Some "Hi {name}") None 0 (mkContact (Some "0811") (Some "Ani"))
           (mkContact (Some "0812") (Some "Budi"))
           [mkContact (Some "0813") None]
           (started_session 3 sample_session, []) (mkJob 3 0 0 [])
           "0811" "Hi {name}");
    reflexivity.
Defined.

(** ** Starting a run, further *)

Lemma checkDailyLimit_started today n session :
  fst (checkDailyLimit today (started_session n session))
  = fst (checkDailyLimit today session)
  /\ snd (checkDailyLimit today (started_session n session))
     = started_session n (snd (checkDailyLimit today session)).
Proof.
  unfold checkDailyLimit, started_session.
  destruct session as [ready st0 [d c] k flag job0 sock]. cbn.
  now destruct (negb _).
Qed.

(** X14. The start request does not look at the quota: with the day's
    quota used up it is accepted all the same, and the run it sets off
    ends at its first check, with no recipient attempted, nothing handed
    to the transport, the job as it was created and the flag down. *)
Theorem start_at_exhausted_quota (env : Env) (sessionId : string)
  (body : BulkBody) (userSessions : Sessions) (session : Session) :
  userSessions !! sessionId = Some session ->
  refused session body = false ->
  fst (checkDailyLimit (env_today (env 0%nat)) session) = false ->
  let n := Z.of_nat (length (default [] (contacts body))) in
  fst (post_send_bulk sessionId body userSessions) = SendingStarted n
  /\ exists s' tr',
       background_run env sessionId body userSessions
       = Some (Normal QuotaExhausted, (s', tr'))
       /\ attempts tr' = 0%nat
       /\ dispatched tr' = []
       /\ currentJob s' = Some (mkJob n 0 0 [])
       /\ sendingInProgress s' = false
       /\ In (Log (LogLimitReached (Settings.dailyLimit (settings session))))
            tr'.
Proof.
  intros Hs Href Hquota. cbv zeta.
  unfold background_run.
  rewrite (post_send_bulk_accepted _ _ _ _ Hs Href), lookup_insert_eq.
  split; [reflexivity|].
  pose proof Href as (_ & _ & Hsome & _)%refused_false.
  unfold no_contacts in Hsome.
  destruct (contacts body) as [[|c rest]|]; try discriminate.
  change (default [] (Some (c :: rest))) with (c :: rest).
  set (n := Z.of_nat (length (c :: rest))).
  rewrite processBulkSend_run. cbn [fst snd]. rewrite loop_cons.
  cbn [fst snd].
  change (sendingInProgress (started_session n session)) with true.
  cbn [negb]. cbv zeta.
  destruct (checkDailyLimit_started (env_today (env 0%nat)) n session)
    as (-> & ->).
  rewrite Hquota. cbn [negb].
  destruct (checkDailyLimit_fields (env_today (env 0%nat)) session)
    as (Hset & _).
  set (s1 := snd (checkDailyLimit (env_today (env 0%nat)) session)) in *.
  change (settings (started_session n s1)) with (settings s1).
  change (currentJob (set_sendingInProgress false (started_session n s1)))
    with (Some (mkJob n 0 0 [])).
  cbv iota. eexists _, _. split; [reflexivity|].
  rewrite Hset.
  destruct (hasSocket (started_session n session));
    cbn; repeat split; auto.
Qed.

Lemma start_at_exhausted_quota_witness :
  fst (post_send_bulk "s1" sample_body sessions_at_limit) = SendingStarted 3
  /\ exists s' tr',
       background_run quiet_env "s1" sample_body sessions_at_limit
       = Some (Normal QuotaExhausted, (s', tr'))
       /\ attempts tr' = 0%nat
       /\ dispatched tr' = []
       /\ currentJob s' = Some (mkJob 3 0 0 [])
       /\ sendingInProgress s' = false
       /\ In (Log (LogLimitReached 300)) tr'.
Proof.
  apply (start_at_exhausted_quota quiet_env "s1" sample_body
           sessions_at_limit sample_session_at_limit);
    reflexivity.
Defined.

(** X15. A start request whose first recipient has no number, or that
    has media and no message text, is accepted; when the first quota
    check passes, the run it sets off throws before any attempt, outside
    the [try] block of the recipient: the job stays as it was created,
    without a result entry, nothing is saved, no completion is announced
    and the flag is up when the error leaves [processBulkSend].  The
    handler calls [processBulkSend] without [await] or [catch], so that
    nothing handles the error; what the runtime does with it is outside
    the model. *)
Theorem start_with_malformed_input (env : Env) (sessionId : string)
  (body : BulkBody) (userSessions : Sessions) (session : Session)
  (c : Contact) (rest : list Contact) :
  userSessions !! sessionId = Some session ->
  refused session body = false ->
  contacts body = Some (c :: rest) ->
  c_phone c = None \/ message body = None ->
  fst (checkDailyLimit (env_today (env 0%nat)) session) = true ->
  let n := Z.of_nat (length (c :: rest)) in
  fst (post_send_bulk sessionId body userSessions) = SendingStarted n
  /\ exists m s' tr',
       background_run env sessionId body userSessions
       = Some (Thrown m, (s', tr'))
       /\ attempts tr' = 0%nat
       /\ closing tr' = 0%nat
       /\ currentJob s' = Some (mkJob n 0 0 [])
       /\ sendingInProgress s' = true.
Proof.
  intros Hs Href Hc Hbad Hquota. cbv zeta.
  unfold background_run.
  rewrite (post_send_bulk_accepted _ _ _ _ Hs Href), lookup_insert_eq.
  rewrite Hc. change (default [] (Some (c :: rest))) with (c :: rest).
  split; [reflexivity|].
  set (n := Z.of_nat (length (c :: rest))).
  rewrite processBulkSend_run. cbn [fst snd]. rewrite loop_cons.
  cbn [fst snd].
  change (sendingInProgress (started_session n session)) with true.
  cbn [negb]. cbv zeta.
  destruct (checkDailyLimit_started (env_today (env 0%nat)) n session)
    as (-> & ->).
  rewrite Hquota. cbn [negb].
  set (s1 := snd (checkDailyLimit (env_today (env 0%nat)) session)) in *.
  pose proof (iteration_exact env (hasSocket (started_session n session))
                (length (c :: rest)) (message body) (mediaPath body) 0 c
                (started_session n s1,
                 [] ++ [Log (LogStarting (Z.of_nat (length (c :: rest))))])
                (mkJob n 0 0 []) eq_refl) as Hit.
  cbn [fst snd] in Hit.
  assert (Hthrown :
    (exists message0 suffix,
       iteration env (hasSocket (started_session n session))
         (length (c :: rest)) (message body) (mediaPath body) 0 c
         (started_session n s1,
          [] ++ [Log (LogStarting (Z.of_nat (length (c :: rest))))])
       = (Thrown message0,
          (stopped (needsBatchRest (started_session n s1) (Z.of_nat 0)
                    && env_stopDuringRest (env 0%nat))
             (started_session n s1),
           ([] ++ [Log (LogStarting (Z.of_nat (length (c :: rest))))])
           ++ suffix))
       /\ silent suffix)).
  { destruct (c_phone c) as [p|], (message body) as [t|]; try exact Hit.
    destruct Hbad; discriminate. }
  clear Hit. destruct Hthrown as (m & suffix & -> & A & D & C).
  exists m. eexists _, _. split; [reflexivity|].
  rewrite !attempts_app, !closing_app, A, C.
  split; [reflexivity|]. split; [reflexivity|]. split; reflexivity.
Qed.

Lemma start_with_malformed_input_witness :
  let n := Z.of_nat (length three_contacts) in
  fst (post_send_bulk "s1" body_without_message sample_sessions)
  = SendingStarted n
  /\ exists m s' tr',
       background_run quiet_env "s1" body_without_message sample_sessions
       = Some (Thrown m, (s', tr'))
       /\ attempts tr' = 0%nat
       /\ closing tr' = 0%nat
       /\ currentJob s' = Some (mkJob n 0 0 [])
       /\ sendingInProgress s' = true.
Proof.
  apply (start_with_malformed_input quiet_env "s1" body_without_message
           sample_sessions sample_session
           (mkContact (Some "0811") (Some "Ani"))
           [mkContact (Some "0812") (Some "Budi");
            mkContact (Some "0813") None]);
    [reflexivity | reflexivity | reflexivity | right; reflexivity
    | reflexivity].
Defined.




(** ** Requests and events, further *)

(** X17. A start, settings or stop request for one session leaves every
    other session of the server as it is. *)
Theorem requests_touch_one_session (sessionId other : string)
  (body : BulkBody) (settingsBody : SettingsBody) (userSessions : Sessions) :
  other <> sessionId ->
  snd (post_send_bulk sessionId body userSessions) !! other
  = userSessions !! other
  /\ snd (fst (post_settings sessionId settingsBody userSessions)) !! other
     = userSessions !! other
  /\ snd (post_stop sessionId userSessions) !! other = userSessions !! other.
Proof.
  intros Hne. unfold post_send_bulk, post_settings, post_stop.
  destruct (userSessions !! sessionId) as [session|];
    [|now repeat split].
  cbn [fst snd]. repeat split.
  - destruct (negb (isReady session)), (sendingInProgress session),
      (no_contacts body),
      (negb (truthy (message body)) && negb (truthy (mediaPath body)));
      cbn [fst snd]; try reflexivity.
    now apply lookup_insert_ne.
  - now apply lookup_insert_ne.
  - now apply lookup_insert_ne.
Qed.

Lemma requests_touch_one_session_witness :
  snd (post_send_bulk "s1" sample_body
         (<["s2" := sample_session_at_limit]> sample_sessions)) !! "s2"
  = (<["s2" := sample_session_at_limit]> sample_sessions) !! "s2"
  /\ snd (fst (post_settings "s1" (batchSize_body 5)
                 (<["s2" := sample_session_at_limit]> sample_sessions)))
     !! "s2"
     = (<["s2" := sample_session_at_limit]> sample_sessions) !! "s2"
  /\ snd (post_stop "s1"
            (<["s2" := sample_session_at_limit]> sample_sessions)) !! "s2"
     = (<["s2" := sample_session_at_limit]> sample_sessions) !! "s2".
Proof.
  apply (requests_touch_one_session "s1" "s2" sample_body (batchSize_body 5)
           (<["s2" := sample_session_at_limit]> sample_sessions)).
  discriminate.
Defined.

(** X18. A stop request makes a connected session startable again,
    whatever state its flag was in: the start request that follows with
    recipients and a message or media is accepted, and the job the
    session held is replaced by a fresh one. *)
Theorem stop_then_start (sessionId : string) (body : BulkBody)
  (userSessions : Sessions) (session : Session) :
  userSessions !! sessionId = Some session ->
  isReady session = true ->
  no_contacts body = false ->
  negb (truthy (message body)) && negb (truthy (mediaPath body)) = false ->
  let n := Z.of_nat (length (default [] (contacts body))) in
  fst (post_stop sessionId userSessions) = Success
  /\ post_send_bulk sessionId body (snd (post_stop sessionId userSessions))
     = (SendingStarted n,
        <[sessionId := started_session n session]> userSessions).
Proof.
  intros Hs Hready Hsome Hcontent. cbv zeta. unfold post_stop. rewrite Hs.
  cbn [fst snd]. split; [reflexivity|].
  rewrite (post_send_bulk_accepted sessionId body _
             (set_sendingInProgress false session));
    [| apply lookup_insert_eq
     | unfold refused; rewrite Hsome, Hcontent; cbn; now rewrite Hready].
  now rewrite insert_insert_eq.
Qed.

Lemma stop_then_start_witness :
  fst (post_stop "s1" {[ "s1" := started_session 3 sample_session ]})
  = Success
  /\ post_send_bulk "s1" sample_body
       (snd (post_stop "s1" {[ "s1" := started_session 3 sample_session ]}))
     = (SendingStarted 3,
        <["s1" := started_session 3 (started_session 3 sample_session)]>
          {[ "s1" := started_session 3 sample_session ]}).
Proof.
  apply (stop_then_start "s1" sample_body
           {[ "s1" := started_session 3 sample_session ]}
           (started_session 3 sample_session));
    reflexivity.
Defined.

Lemma default_default {A} (x : A) (o : option A) :
  default (default x o) o = default x o.
Proof. now destruct o. Qed.

Lemma spread_spread settings body :
  spread (spread settings body) body = spread settings body.
Proof.
  unfold spread. cbn. now rewrite !default_default.
Qed.

(** X19. A settings request changes the settings of the session and
    nothing else of it: connection, counters, flag and job stay as they
    are.  Repeating the request changes nothing further. *)
Theorem post_settings_only_settings (sessionId : string)
  (body : SettingsBody) (userSessions : Sessions) (session : Session) :
  userSessions !! sessionId = Some session ->
  let after := post_settings sessionId body userSessions in
  exists session',
    snd (fst after) !! sessionId = Some session'
    /\ fst (fst after) = SettingsUpdated (settings session')
    /\ settings session' = spread (settings session) body
    /\ isReady session' = isReady session
    /\ dailyCounter session' = dailyCounter session
    /\ sessionCounter session' = sessionCounter session
    /\ sendingInProgress session' = sendingInProgress session
    /\ currentJob session' = currentJob session
    /\ hasSocket session' = hasSocket session
    /\ post_settings sessionId body (snd (fst after)) = after.
Proof.
  intros Hs. cbv zeta. unfold post_settings at 1 2 3 4. rewrite Hs.
  cbn [fst snd]. eexists. split; [apply lookup_insert_eq|].
  repeat split. unfold post_settings. rewrite Hs. cbn [fst snd].
  rewrite lookup_insert_eq. cbn [settings set_settings dailyCounter].
  now rewrite spread_spread, insert_insert_eq.
Qed.

Lemma post_settings_only_settings_witness :
  let after := post_settings "s1" (batchSize_body 5) sample_sessions in
  exists session',
    snd (fst after) !! "s1" = Some session'
    /\ fst (fst after) = SettingsUpdated (settings session')
    /\ settings session' = spread (settings sample_session) (batchSize_body 5)
    /\ isReady session' = isReady sample_session
    /\ dailyCounter session' = dailyCounter sample_session
    /\ sessionCounter session' = sessionCounter sample_session
    /\ sendingInProgress session' = sendingInProgress sample_session
    /\ currentJob session' = currentJob sample_session
    /\ hasSocket session' = hasSocket sample_session
    /\ post_settings "s1" (batchSize_body 5) (snd (fst after)) = after.
Proof.
  apply (post_settings_only_settings "s1" (batchSize_body 5) sample_sessions
           sample_session).
  reflexivity.
Defined.



(** ** Saved data *)

(** X21. What is saved comes back: a session created from the document
    that [saveSessionData] wrote for [session] has the settings and the
    daily counter of [session], so it answers a quota check as [session]
    does, on whatever day; it is not connected, idle, without a job, and
    its warm-up starts anew.  A file that cannot be parsed is skipped
    without an error, which leaves the defaults and a count of zero. *)
Theorem saved_data_round_trip (session : Session) (today day : string) :
  let session' := createSession_loaded (FileData (saveSessionData session))
                    today in
  settings session' = settings session
  /\ dailyCounter session' = dailyCounter session
  /\ fst (checkDailyLimit day session') = fst (checkDailyLimit day session)
  /\ isReady session' = false
  /\ sendingInProgress session' = false
  /\ currentJob session' = None
  /\ sessionCounter session' = 0
  /\ createSession_loaded FileUnreadable today = createSession today.
Proof.
  destruct session as [ready [a b c d e f g h k l m] [dt ct] n flag job sock].
  cbv zeta. unfold checkDailyLimit. cbn. repeat split.
  now destruct (negb _).
Qed.

(** ** The announced warm-up *)



(** ** Contact files *)

Lemma js_or_is_Some a b : is_Some b -> is_Some (js_or a b).
Proof. unfold js_or. destruct a as [[|]|]; cbn; eauto. Qed.

Lemma parseContactsFile_numbers ext records :
  forallb (fun c => bool_decide (is_Some (c_phone c)))
    (parseContactsFile ext records) = true.
Proof.
  unfold parseContactsFile. cbv zeta.
  apply forallb_forall. intros c [_ Hc]%filter_In.
  apply bool_decide_eq_true. destruct (c_phone c); [eauto | discriminate].
Qed.

(** X23. Every contact that [parseContactsFile] returns has a number
    that is not empty, rows without one being left out, and a name that
    is present; a file of another kind gives no contacts.  So a run on
    the contacts of a file, with a message text, never throws: it reaches
    its end whatever the transport answers. *)
Theorem parsed_contacts_can_be_run (ext : string) (records : list FileRow)
  (env : Env) (t : string) (media : option string) (st : State) (j : Job) :
  currentJob (fst st) = Some j ->
  Forall (fun c => truthy (c_phone c) = true /\ is_Some (c_name c))
    (parseContactsFile ext records)
  /\ (length (parseContactsFile ext records) <= length records)%nat
  /\ (ext <> ".csv" -> ext <> ".xlsx" -> ext <> ".xls" ->
      parseContactsFile ext records = [])
  /\ exists exit st',
       processBulkSend env (parseContactsFile ext records) (Some t) media st
       = (Normal exit, st').
Proof.
  intros Hj. split; [|split; [|split]].
  - unfold parseContactsFile. cbv zeta. apply Forall_forall.
    intros c Hc%list_elem_of_In. apply filter_In in Hc as [Hin Hc].
    split; [exact Hc|].
    destruct (String.eqb ext ".csv");
      [|destruct (String.eqb ext ".xlsx" || String.eqb ext ".xls");
        [|destruct Hin]];
      apply in_map_iff in Hin as (r & <- & _);
      cbn [contact_of_row c_name]; repeat apply js_or_is_Some; eauto.
  - unfold parseContactsFile. cbv zeta.
    etransitivity; [apply filter_length_le|].
    destruct (String.eqb ext ".csv");
      [|destruct (String.eqb ext ".xlsx" || String.eqb ext ".xls")];
      rewrite ?length_map; cbn; lia.
  - intros H1 H2 H3. unfold parseContactsFile.
    apply String.eqb_neq in H1, H2, H3. now rewrite H1, H2, H3.
  - apply (processBulkSend_total env _ (Some t) media st j); [|exact Hj].
    unfold well_formed. rewrite parseContactsFile_numbers.
    apply andb_true_iff. split; [reflexivity|].
    apply bool_decide_eq_true. eauto.
Qed.

Example parseContactsFile_sample :
  parseContactsFile ".csv" sample_rows
  = [mkContact (Some "0811") (Some "Ani");
     mkContact (Some "0812") (Some "Budi")].
Proof. reflexivity. Qed.

Lemma parsed_contacts_can_be_run_witness :
  Forall (fun c => truthy (c_phone c) = true /\ is_Some (c_name c))
    (parseContactsFile ".csv" sample_rows)
  /\ (length (parseContactsFile ".csv" sample_rows) <= length sample_rows)%nat
  /\ (".csv" <> ".csv" -> ".csv" <> ".xlsx" -> ".csv" <> ".xls" ->
      parseContactsFile ".csv" sample_rows = [])
  /\ exists exit st',
       processBulkSend quiet_env (parseContactsFile ".csv" sample_rows)
         (Some "Hi {name}") None (started_session 2 sample_session, [])
       = (Normal exit, st').
Proof.
  apply (parsed_contacts_can_be_run ".csv" sample_rows quiet_env "Hi {name}"
           None (started_session 2 sample_session, []) (mkJob 2 0 0 [])).
  reflexivity.
Defined.


(** ** Why the loop is left *)

Lemma checkDailyLimit_refuses today s :
  fst (checkDailyLimit today s) = false ->
  Settings.dailyLimit (settings (snd (checkDailyLimit today s)))
  <= count (dailyCounter (snd (checkDailyLimit today s))).
Proof.
  unfold checkDailyLimit. cbn [fst snd]. intros H.
  apply Z.ltb_ge in H. exact H.
Qed.

(** The loop, entered with the flag up, is left as stopped only after a
    stop request was served during the iteration of a recipient it
    attempted, and as out of quota only with the day's count at the
    limit; what the transport answers plays no part. *)
Lemma loop_exit_reason env socket total t media rest :
  forallb (fun c => bool_decide (is_Some (c_phone c))) rest = true ->
  forall i st j exit st',
    currentJob (fst st) = Some j ->
    sendingInProgress (fst st) = true ->
    loop env socket total (Some t) media i rest st = (Normal exit, st') ->
    (exit = Stopped ->
     exists i', (i <= i')%nat
                /\ (i' - i < attempts (snd st') - attempts (snd st))%nat
                /\ stop_requested (env i') = true)
    /\ (exit = QuotaExhausted ->
        Settings.dailyLimit (settings (fst st'))
        <= count (dailyCounter (fst st'))).
Proof.
  induction rest as [|contact rest IH]; intros Hall i st j exit st' Hj Hflag Hrun.
  { injection Hrun as <- <-. split; discriminate. }
  cbn [forallb] in Hall. apply andb_prop in Hall as [Hc Hall].
  apply bool_decide_eq_true in Hc as [p Hp].
  rewrite loop_cons, Hflag in Hrun. cbn [negb] in Hrun. cbv zeta in Hrun.
  destruct (checkDailyLimit_fields (env_today (env i)) (fst st))
    as (Hset & _ & _ & Hjob & Hfl & _).
  pose proof (checkDailyLimit_refuses (env_today (env i)) (fst st)) as Hno.
  set (s1 := snd (checkDailyLimit (env_today (env i)) (fst st))) in *.
  destruct (fst (checkDailyLimit (env_today (env i)) (fst st)));
    cbn [negb] in Hrun.
  2:{ injection Hrun as <- <-. cbn [fst snd].
      split; [discriminate | intros _; now apply Hno]. }
  pose proof (iteration_exact env socket total (Some t) media i contact
                (s1, snd st) j (eq_trans Hjob Hj)) as Hit.
  rewrite Hp in Hit. cbn [fst snd] in Hit.
  destruct Hit as (suffix & Hit & A & _ & _). rewrite Hit in Hrun.
  destruct (after_iteration_fields (env i) media total i contact j s1)
    as (_ & _ & _ & _ & G5 & _).
  pose proof (after_iteration_flag (env i) media total i contact j s1) as F.
  set (s2 := after_iteration (env i) media total i contact j s1) in *.
  destruct (sendingInProgress s2) eqn:Hflag2.
  - destruct (IH Hall (S i) (s2, snd st ++ suffix) _ exit st' G5 Hflag2 Hrun)
      as [Hstop Hquota].
    split; [|exact Hquota].
    intros E. destruct (Hstop E) as (i' & Hle & Hlt & Hreq).
    exists i'. cbn [snd] in Hlt. rewrite attempts_app, A in Hlt.
    split; [lia|]. split; [lia | exact Hreq].
  - rewrite loop_stopped in Hrun by exact Hflag2.
    destruct rest as [|next rest]; injection Hrun as <- <-;
      (split; [|discriminate]); [discriminate|].
    intros _. exists i. cbn [fst snd].
    rewrite !attempts_app, A. cbn [attempts].
    split; [lia|]. split; [lia|].
    rewrite Hfl, Hflag in F. cbn [andb] in F. unfold stop_requested.
    destruct (env_stopDuringRest (env i)), (env_stopDuringSend (env i)),
      (env_stopDuringDelay (env i)); try reflexivity.
    rewrite !andb_false_r in F. cbn in F. discriminate.
Qed.

Lemma processBulkSend_exit_reason env contacts t media st j exit st' :
  forallb (fun c => bool_decide (is_Some (c_phone c))) contacts = true ->
  currentJob (fst st) = Some j ->
  sendingInProgress (fst st) = true ->
  processBulkSend env contacts (Some t) media st = (Normal exit, st') ->
  (exit = Stopped ->
   exists i, (i < attempts (snd st') - attempts (snd st))%nat
             /\ stop_requested (env i) = true)
  /\ (exit = QuotaExhausted ->
      Settings.dailyLimit (settings (fst st'))
      <= count (dailyCounter (fst st'))).
Proof.
  intros Hall Hj Hflag Hrun. rewrite processBulkSend_run in Hrun.
  destruct (loop _ _ _ _ _ _ _ _) as [[exit1|message] st1] eqn:Hloop;
    [|discriminate].
  destruct (loop_exit_reason _ _ _ _ _ _ Hall 0%nat
              (fst st,
               snd st ++ [Log (LogStarting (Z.of_nat (length contacts)))])
              j _ _ Hj Hflag Hloop) as [Hstop Hquota].
  cbv zeta in Hrun.
  destruct (currentJob (set_sendingInProgress false (fst st1)));
    [|discriminate].
  injection Hrun as <- <-. cbn [fst snd] in *.
  rewrite attempts_app in Hstop. cbn [attempts] in Hstop.
  split; [|exact Hquota].
  intros E. destruct (Hstop E) as (i & _ & Hlt & Hreq).
  exists i. split; [|exact Hreq].
  rewrite !attempts_app.
  destruct (hasSocket (fst st)); cbn [attempts app]; lia.
Qed.

(** ** Failures while a recipient is processed, as amended *)

(** C1, amended. For a start request that is accepted, whose recipients
    all carry a number and which carries a message text: whatever the
    transport answers and whenever a stop request arrives, nothing else
    being served meanwhile, the run reaches its end, where the flag is
    lowered, the settings and the day's count are saved, the completion
    event, which carries the final job, is sent to the session's socket
    and the completion is logged with the counts of the job. The result entries of the final job are those
    expected of the recipients attempted, in order: failed, with the
    reason, when the registration check throws or answers no or when the
    dispatch throws, and sent otherwise, a failure of the typing
    simulation being ignored. The run goes on to the next recipient
    after each of them: the loop is left before the last recipient only
    as stopped, after a stop request was served during the iteration of
    a recipient attempted, or as out of quota, with the day's count at
    the limit; otherwise it completes with every recipient attempted. *)
Theorem recipient_failures_are_contained (env : Env) (sessionId : string)
  (body : BulkBody) (userSessions : Sessions) (session : Session) :
  userSessions !! sessionId = Some session ->
  refused session body = false ->
  well_formed (default [] (contacts body)) (message body) = true ->
  exists exit st' job,
    background_run env sessionId body userSessions = Some (Normal exit, st')
    /\ currentJob (fst st') = Some job
    /\ results job
       = entries env (mediaPath body) 0
           (firstn (attempts (snd st')) (default [] (contacts body)))
    /\ (exit = Completed ->
        attempts (snd st') = length (default [] (contacts body)))
    /\ (exit = Stopped ->
        exists i, (i < attempts (snd st'))%nat
                  /\ stop_requested (env i) = true)
    /\ (exit = QuotaExhausted ->
        Settings.dailyLimit (settings (fst st'))
        <= count (dailyCounter (fst st')))
    /\ sendingInProgress (fst st') = false
    /\ In (SaveSessionData (settings (fst st')) (dailyCounter (fst st')))
         (snd st')
    /\ (hasSocket session = true ->
        In (Emit (bulk_complete (Some job))) (snd st'))
    /\ In (Log (LogCompleted (sent job) (failed job))) (snd st').
Proof.
  intros Hs Href Hwf.
  destruct (background_run_total env _ _ _ _ Hs Href Hwf)
    as (exit & st' & Hrun).
  destruct (background_run_unfold _ _ _ _ _ Hrun) as (session' & Hs' & _ & E).
  rewrite Hs in Hs'. injection Hs' as <-. symmetry in E.
  set (n := Z.of_nat (length (default [] (contacts body)))) in *.
  destruct (processBulkSend_accounted env _ _ _
              (started_session n session, []) (mkJob n 0 0 [])
              exit st' eq_refl E)
    as (k & job & Hk & (j0 & j1 & E0 & E1 & _ & _ & _ & _ & _ & Hatt)
        & Hdone & Hjob & Hflag & Hsave & Hemit & Hlog).
  destruct (processBulkSend_results env _ _ _
              (started_session n session, []) (mkJob n 0 0 [])
              exit st' eq_refl E)
    as (job' & Hjob' & Hres).
  rewrite Hjob in Hjob'. injection Hjob' as <-.
  cbn [fst snd results attempts app] in Hres, Hatt.
  rewrite Nat.sub_0_r in Hres.
  unfold well_formed in Hwf. apply andb_prop in Hwf as [Hall Htmpl].
  apply bool_decide_eq_true in Htmpl as [t Ht]. rewrite Ht in E.
  destruct (processBulkSend_exit_reason env _ t _
              (started_session n session, []) (mkJob n 0 0 [])
              exit st' Hall eq_refl eq_refl E) as [Hstop Hquota].
  cbn [snd attempts] in Hstop. rewrite Nat.sub_0_r in Hstop.
  exists exit, st', job. split; [exact Hrun|]. split; [exact Hjob|].
  split; [exact Hres|]. split; [intros Hc; rewrite Hatt; auto|].
  split; [exact Hstop|]. split; [exact Hquota|].
  split; [exact Hflag|]. split; [exact Hsave|].
  split; [exact Hemit | exact Hlog].
Qed.

Lemma recipient_failures_are_contained_witness :
  exists exit st' job,
    background_run unregistered_second_env "s1" sample_body sample_sessions
    = Some (Normal exit, st')
    /\ currentJob (fst st') = Some job
    /\ results job
       = entries unregistered_second_env (mediaPath sample_body) 0
           (firstn (attempts (snd st')) (default [] (contacts sample_body)))
    /\ (exit = Completed ->
        attempts (snd st') = length (default [] (contacts sample_body)))
    /\ (exit = Stopped ->
        exists i, (i < attempts (snd st'))%nat
                  /\ stop_requested (unregistered_second_env i) = true)
    /\ (exit = QuotaExhausted ->
        Settings.dailyLimit (settings (fst st'))
        <= count (dailyCounter (fst st')))
    /\ sendingInProgress (fst st') = false
    /\ In (SaveSessionData (settings (fst st')) (dailyCounter (fst st')))
         (snd st')
    /\ (hasSocket sample_session = true ->
        In (Emit (bulk_complete (Some job))) (snd st'))
    /\ In (Log (LogCompleted (sent job) (failed job))) (snd st').
Proof.
  apply (recipient_failures_are_contained unregistered_second_env "s1"
           sample_body sample_sessions sample_session);
    reflexivity.
Defined.


(** ** The run among other requests *)

Lemma same_refl {A} (m : M A) : same m m.
Proof. now intros st. Qed.

Lemma same_bind {A B} (m m' : M A) (k k' : A -> M B) :
  same m m' -> (forall a, same (k a) (k' a)) ->
  same (m ≫= k) (m' ≫= k').
Proof.
  intros Hm Hk st. rewrite !bind_run, Hm.
  destruct (m' st) as [[a|message] st']; [apply Hk | reflexivity].
Qed.

Lemma same_try_catch {A} (m m' : M A) (h : string -> M A) :
  same m m' -> same (try_catch m h) (try_catch m' h).
Proof. intros Hm st. unfold try_catch. now rewrite Hm. Qed.

Lemma await_among_stop {A} call b (answer : Completion A) :
  same (await_among call (stop_if b) answer) (await call b answer).
Proof. intros [s tr]. destruct b, answer; reflexivity. Qed.

Lemma await_among_alone {A} call (answer : Completion A) :
  same (await_among call (fun st => st) answer) (await call false answer).
Proof. intros [s tr]. destruct answer; reflexivity. Qed.

Lemma simulateTyping_among_stops env i chatId :
  same (simulateTyping_among (stops_only env i) (env i) chatId)
       (simulateTyping (env i) chatId).
Proof.
  unfold simulateTyping_among, simulateTyping.
  apply same_bind; [apply same_refl|]. intros session.
  destruct (negb _); [apply same_refl|].
  apply same_try_catch, await_among_alone.
Qed.

Lemma dispatch_among_stops env i mediaPath phone text :
  same (dispatch_among (stops_only env i) (env i) mediaPath phone text)
       (dispatch (env i) mediaPath phone text).
Proof.
  unfold dispatch_among, dispatch.
  destruct mediaPath as [path|]; [|apply await_among_alone].
  destruct (truthy (Some path) && env_existsSync (env i));
    [|apply await_among_alone].
  apply same_bind; [apply await_among_alone|]. intros _.
  apply await_among_alone.
Qed.

Lemma attempt_among_stops env i socket mediaPath contact phone text :
  same (attempt_among (stops_only env i) (env i) socket mediaPath contact
          phone text)
       (attempt (env i) socket mediaPath contact phone text).
Proof.
  unfold attempt_among, attempt. apply same_try_catch.
  apply same_bind; [apply await_among_stop|]. intros isRegistered.
  apply same_bind; [apply same_refl|]. intros _.
  apply same_bind; [apply simulateTyping_among_stops|]. intros _.
  apply same_bind; [apply dispatch_among_stops|]. intros _.
  apply same_refl.
Qed.

Lemma restIfDue_among_stops env i socket :
  same (restIfDue_among (stops_only env i) (env i) socket i)
       (restIfDue (env i) socket i).
Proof.
  unfold restIfDue_among, restIfDue.
  apply same_bind; [apply same_refl|]. intros session.
  destruct (needsBatchRest session (Z.of_nat i)); [|apply same_refl].
  apply same_bind; [apply same_refl|]. intros restDuration.
  apply same_bind; [apply same_refl|]. intros _.
  apply same_bind; [apply same_refl|]. intros _.
  apply await_among_stop.
Qed.

Lemma waitBeforeNext_among_stops env i socket total :
  same (waitBeforeNext_among (stops_only env i) (env i) socket i total)
       (waitBeforeNext (env i) socket i total).
Proof.
  unfold waitBeforeNext_among, waitBeforeNext.
  apply same_bind; [apply same_refl|]. intros session.
  destruct (_ && _); [|apply same_refl].
  destruct (env_delayDraws (env i)) as [[r1 r2] r3].
  apply same_bind; [apply same_refl|]. intros delay.
  apply same_bind; [apply same_refl|]. intros _.
  apply same_bind; [apply same_refl|]. intros _.
  apply await_among_stop.
Qed.

Lemma iteration_among_stops env socket total tmpl media i contact :
  same (iteration_among (stops_only env) env socket total tmpl media i
          contact)
       (iteration env socket total tmpl media i contact).
Proof.
  unfold iteration_among, iteration.
  apply same_bind; [apply restIfDue_among_stops|]. intros _.
  apply same_bind; [apply same_refl|]. intros phone.
  apply same_bind; [apply same_refl|]. intros text.
  apply same_bind; [apply attempt_among_stops|]. intros _.
  apply waitBeforeNext_among_stops.
Qed.

Lemma loop_among_stops env socket total tmpl media rest :
  forall i,
    same (loop_among (stops_only env) env socket total tmpl media i rest)
         (loop env socket total tmpl media i rest).
Proof.
  induction rest as [|contact rest IH]; intros i; [apply same_refl|].
  cbn [loop_among loop].
  apply same_bind; [apply same_refl|]. intros session.
  destruct (negb (sendingInProgress session)); [apply same_refl|].
  apply same_bind; [apply same_refl|]. intros allowed.
  destruct (negb allowed); [apply same_refl|].
  apply same_bind; [apply iteration_among_stops|]. intros _.
  apply IH.
Qed.

(** The run of above is the run among other requests in which nothing
    but stop requests is served meanwhile. *)
Lemma processBulkSend_among_stops env contacts tmpl media :
  same (processBulkSend_among (stops_only env) env contacts tmpl media)
       (processBulkSend env contacts tmpl media).
Proof.
  unfold processBulkSend_among, processBulkSend.
  apply same_bind; [apply same_refl|]. intros session. cbv zeta.
  apply same_bind; [apply same_refl|]. intros _.
  apply same_bind; [apply loop_among_stops|]. intros exit.
  apply same_refl.
Qed.

Lemma loop_among_cons world env socket total tmpl media i contact rest st :
  loop_among world env socket total tmpl media i (contact :: rest) st
  = if negb (sendingInProgress (fst st)) then
      (Normal Stopped, (fst st, snd st ++ [Log LogStopped]))
    else
      let session := snd (checkDailyLimit (env_today (env i)) (fst st)) in
      if negb (fst (checkDailyLimit (env_today (env i)) (fst st))) then
        (Normal QuotaExhausted,
         (session,
          (snd st
           ++ [Log (LogLimitReached (Settings.dailyLimit (settings session)))])
          ++ (if socket
              then [Emit (limit_reached
                            (Settings.dailyLimit (settings session)))]
              else [])))
      else
        match iteration_among world env socket total tmpl media i contact
                (session, snd st) with
        | (Normal _, st') =>
            loop_among world env socket total tmpl media (S i) rest st'
        | (Thrown message, st') => (Thrown message, st')
        end.
Proof.
  destruct st as [s tr]. cbn [loop_among]. run_step.
  destruct (sendingInProgress s); cbn [negb]; [|reflexivity].
  rewrite bind_run. unfold lift at 1. cbn [fst snd].
  destruct (checkDailyLimit (env_today (env i)) s) as [[|] s1];
    cbn [negb fst snd].
  - reflexivity.
  - destruct socket; repeat run_step; [reflexivity | now rewrite app_nil_r].
Qed.

(** ** The daily limit among other requests *)

Section Steady.

Lemma steady_ret {A} (a : A) : steady 0 (mret a).
Proof. intros st. cbn. repeat split; lia. Qed.

Lemma steady_throw {A} message : steady 0 (@throw A message).
Proof. intros st. cbn. repeat split; lia. Qed.

Lemma steady_get : steady 0 get.
Proof. intros st. cbn. repeat split; lia. Qed.

Lemma steady_gets {A} (f : Session -> A) : steady 0 (gets f).
Proof. intros st. cbn. repeat split; lia. Qed.

Lemma steady_effect e : steady 0 (effect e).
Proof. intros st. cbn. repeat split; lia. Qed.

Lemma steady_log message : steady 0 (log message).
Proof. apply steady_effect. Qed.

Lemma steady_emit socket event : steady 0 (emit socket event).
Proof. destruct socket; [apply steady_effect | apply steady_ret]. Qed.

Lemma steady_weaken {A} k k' (m : M A) : k <= k' -> steady k m -> steady k' m.
Proof.
  intros Hk Hm st. destruct (Hm st) as (H1 & H2 & H3).
  repeat split; try assumption; lia.
Qed.

Lemma steady_bind {A B} k1 k2 (m : M A) (f : A -> M B) :
  steady k1 m -> (forall a, steady k2 (f a)) -> 0 <= k2 ->
  steady (k1 + k2) (m ≫= f).
Proof.
  intros Hm Hf H0 st. rewrite bind_run.
  destruct (Hm st) as (H1 & H2 & H3).
  destruct (m st) as [[a|message] st1]; cbn [fst snd] in *.
  - destruct (Hf a st1) as (G1 & G2 & G3).
    repeat split; try congruence; lia.
  - repeat split; try assumption; lia.
Qed.

Lemma steady_try_catch {A} k1 k2 (m : M A) (h : string -> M A) :
  steady k1 m -> (forall message, steady k2 (h message)) -> 0 <= k2 ->
  steady (k1 + k2) (try_catch m h).
Proof.
  intros Hm Hh H0 st. unfold try_catch.
  destruct (Hm st) as (H1 & H2 & H3).
  destruct (m st) as [[a|message] st1]; cbn [fst snd] in *.
  - repeat split; try assumption; lia.
  - destruct (Hh message st1) as (G1 & G2 & G3).
    repeat split; try congruence; lia.
Qed.

Lemma steady_get_job : steady 0 get_job.
Proof.
  intros st. unfold get_job. rewrite bind_run. cbn [get fst snd].
  destruct (currentJob (fst st)); cbn; repeat split; lia.
Qed.

Lemma steady_modify_job f : steady 0 (modify_job f).
Proof.
  intros st. unfold modify_job. rewrite bind_run.
  unfold get_job. rewrite bind_run. cbn [get fst snd].
  destruct (currentJob (fst st)); cbn; repeat split; lia.
Qed.

Lemma steady_set_sendingInProgress b : steady 0 (modify (set_sendingInProgress b)).
Proof. intros st. cbn. repeat split; lia. Qed.

Lemma steady_record_success socket contact :
  steady 1 (record_success socket contact).
Proof.
  unfold record_success.
  apply (steady_bind 0 1); [apply steady_modify_job | intros _ | lia].
  apply (steady_bind 1 0); [| intros _ | lia].
  { intros st. cbn. repeat split; lia. }
  apply (steady_bind 0 0); [| intros _ | lia].
  { intros st. cbn. repeat split; lia. }
  apply (steady_bind 0 0); [apply steady_modify_job | intros _ | lia].
  apply (steady_bind 0 0); [apply steady_log | intros _ | lia].
  apply (steady_bind 0 0); [apply steady_get_job | intros job | lia].
  apply steady_emit.
Qed.

Lemma steady_record_failure socket contact message :
  steady 0 (record_failure socket contact message).
Proof.
  unfold record_failure.
  apply (steady_bind 0 0); [apply steady_modify_job | intros _ | lia].
  apply (steady_bind 0 0); [apply steady_modify_job | intros _ | lia].
  apply (steady_bind 0 0); [apply steady_log | intros _ | lia].
  apply (steady_bind 0 0); [apply steady_get_job | intros job | lia].
  apply steady_emit.
Qed.

Variable world : Meanwhile.
Hypothesis world_keeps : keeps_quota world.

Lemma steady_await_among {A} call i suspension (answer : Completion A) :
  steady 0 (await_among call (world i suspension) answer).
Proof.
  intros [s tr]. unfold await_among. rewrite bind_run.
  cbn [effect fst snd]. rewrite bind_run.
  destruct (world_keeps i suspension (s, tr ++ [call])) as [Hd Hs].
  cbn [fst snd] in *.
  destruct answer; cbn [mret M_ret throw fst snd]; rewrite Hd, Hs;
    repeat split; lia.
Qed.

Lemma steady_simulateTyping_among i e chatId :
  steady 0 (simulateTyping_among (world i) e chatId).
Proof.
  unfold simulateTyping_among.
  apply (steady_bind 0 0); [apply steady_get | intros session | lia].
  destruct (negb _); [apply steady_ret|].
  apply (steady_try_catch 0 0);
    [apply steady_await_among | intros _; apply steady_ret | lia].
Qed.

Lemma steady_dispatch_among i e mediaPath phone text :
  steady 0 (dispatch_among (world i) e mediaPath phone text).
Proof.
  unfold dispatch_among.
  destruct mediaPath as [path|]; [|apply steady_await_among].
  destruct (_ && _); [|apply steady_await_among].
  apply (steady_bind 0 0);
    [apply steady_await_among | intros _; apply steady_await_among | lia].
Qed.

Lemma steady_attempt_among i e socket mediaPath contact phone text :
  steady 1 (attempt_among (world i) e socket mediaPath contact phone text).
Proof.
  unfold attempt_among.
  apply (steady_try_catch 1 0);
    [| intros message; apply steady_record_failure | lia].
  apply (steady_bind 0 1); [apply steady_await_among | intros b | lia].
  apply (steady_bind 0 1); [| intros _ | lia].
  { destruct (negb b); [apply steady_throw | apply steady_ret]. }
  apply (steady_bind 0 1);
    [apply steady_simulateTyping_among | intros _ | lia].
  apply (steady_bind 0 1); [apply steady_dispatch_among | intros _ | lia].
  apply steady_record_success.
Qed.

Lemma steady_restIfDue_among i e socket :
  steady 0 (restIfDue_among (world i) e socket i).
Proof.
  unfold restIfDue_among.
  apply (steady_bind 0 0); [apply steady_get | intros session | lia].
  destruct (needsBatchRest _ _); [|apply steady_ret].
  apply (steady_bind 0 0); [apply steady_gets | intros d | lia].
  apply (steady_bind 0 0); [apply steady_log | intros _ | lia].
  apply (steady_bind 0 0); [apply steady_emit | intros _ | lia].
  apply steady_await_among.
Qed.

Lemma steady_waitBeforeNext_among i e socket total :
  steady 0 (waitBeforeNext_among (world i) e socket i total).
Proof.
  unfold waitBeforeNext_among.
  apply (steady_bind 0 0); [apply steady_get | intros session | lia].
  destruct (_ && _); [|apply steady_ret].
  destruct (env_delayDraws e) as [[r1 r2] r3].
  apply (steady_bind 0 0); [apply steady_gets | intros d | lia].
  apply (steady_bind 0 0); [apply steady_log | intros _ | lia].
  apply (steady_bind 0 0); [apply steady_emit | intros _ | lia].
  apply steady_await_among.
Qed.

Lemma steady_iteration_among env socket total tmpl media i contact :
  steady 1 (iteration_among world env socket total tmpl media i contact).
Proof.
  unfold iteration_among.
  apply (steady_bind 0 1); [apply steady_restIfDue_among | intros _ | lia].
  apply (steady_bind 0 1); [| intros phone | lia].
  { unfold formatPhoneNumber_call.
    destruct (c_phone contact); [apply steady_ret | apply steady_throw]. }
  apply (steady_bind 0 1); [| intros text | lia].
  { unfold replaceVariables_call.
    destruct tmpl; [apply steady_ret | apply steady_throw]. }
  apply (steady_bind 1 0);
    [apply steady_attempt_among | intros _ | lia].
  apply steady_waitBeforeNext_among.
Qed.

(** The loop among requests that leave the quota alone: the settings stay
    and the day's count stays within the limit. *)
Lemma loop_among_quota env socket total tmpl media rest :
  forall i st,
    0 <= Settings.dailyLimit (settings (fst st)) ->
    count (dailyCounter (fst st)) <= Settings.dailyLimit (settings (fst st)) ->
    settings (fst (snd (loop_among world env socket total tmpl media i rest
                          st)))
    = settings (fst st)
    /\ count (dailyCounter
                (fst (snd (loop_among world env socket total tmpl media i
                             rest st))))
       <= Settings.dailyLimit (settings (fst st)).
Proof.
  induction rest as [|contact rest IH]; intros i st H0 Hc.
  { cbn. split; [reflexivity | exact Hc]. }
  rewrite loop_among_cons.
  destruct (sendingInProgress (fst st)); cbn [negb].
  2:{ cbn [fst snd]. split; [reflexivity | exact Hc]. }
  cbv zeta.
  destruct (checkDailyLimit_fields (env_today (env i)) (fst st))
    as (Hset & _ & _ & _ & _ & Hlt & Hle & _).
  set (s1 := snd (checkDailyLimit (env_today (env i)) (fst st))) in *.
  destruct (fst (checkDailyLimit (env_today (env i)) (fst st)));
    cbn [negb].
  2:{ cbn [fst snd]. split; [exact Hset | now apply Hle]. }
  specialize (Hlt eq_refl).
  destruct (steady_iteration_among env socket total tmpl media i contact
              (s1, snd st)) as (G1 & G2 & G3).
  destruct (iteration_among world env socket total tmpl media i contact
              (s1, snd st)) as [[u|message] st2]; cbn [fst snd] in *.
  - destruct (IH (S i) st2) as [I1 I2].
    + rewrite G1, Hset. exact H0.
    + rewrite G1, Hset. lia.
    + rewrite G1, Hset in I1, I2. split; assumption.
  - split; [congruence | lia].
Qed.

End Steady.

Lemma stops_only_keeps_quota env : keeps_quota (stops_only env).
Proof.
  intros i suspension st. unfold stops_only, stop_if.
  destruct suspension; try (split; reflexivity);
    match goal with |- context [if ?b then _ else _] => destruct b end;
    split; reflexivity.
Qed.

(** X10. A run during whose suspensions nothing changes the daily counter
    or the settings of the session never takes the day's count above the
    daily limit, and leaves the settings as they are: with a limit that
    is not negative and a count within it at the start, the count is
    within it at the end, however the run ends and also across a change
    of date.  Stop requests are of that kind; a second run on the session
    is not. *)
Theorem run_respects_dailyLimit (world : Meanwhile) (env : Env)
  (contacts : list Contact) (tmpl media : option string) (st : State) :
  keeps_quota world ->
  0 <= Settings.dailyLimit (settings (fst st)) ->
  count (dailyCounter (fst st)) <= Settings.dailyLimit (settings (fst st)) ->
  let s' :=
    fst (snd (processBulkSend_among world env contacts tmpl media st)) in
  settings s' = settings (fst st)
  /\ count (dailyCounter s') <= Settings.dailyLimit (settings s').
Proof.
  intros Hw H0 Hc. cbv zeta. destruct st as [s tr]. cbn [fst snd] in *.
  unfold processBulkSend_among. run_step. cbv zeta. run_step.
  rewrite bind_run.
  destruct (loop_among_quota world Hw env (hasSocket s) (length contacts)
              tmpl media contacts 0%nat
              (s, tr ++ [Log (LogStarting (Z.of_nat (length contacts)))])
              H0 Hc) as [L1 L2].
  cbn [fst snd] in L1, L2.
  destruct (loop_among _ _ _ _ _ _ _ _ _) as [[exit|message] [s1 tr1]];
    cbn [fst snd] in *; [|rewrite L1; split; [reflexivity | exact L2]].
  assert (Hrest :
    steady 0
      (modify (set_sendingInProgress false) ;;
       session ← get;
       effect (SaveSessionData (settings session) (dailyCounter session)) ;;
       emit (hasSocket s) (bulk_complete (currentJob session)) ;;
       job ← get_job;
       log (LogCompleted (sent job) (failed job)) ;;
       mret exit)).
  { apply (steady_bind 0 0);
      [apply steady_set_sendingInProgress | intros _ | lia].
    apply (steady_bind 0 0); [apply steady_get | intros session | lia].
    apply (steady_bind 0 0); [apply steady_effect | intros _ | lia].
    apply (steady_bind 0 0); [apply steady_emit | intros _ | lia].
    apply (steady_bind 0 0); [apply steady_get_job | intros job | lia].
    apply (steady_bind 0 0); [apply steady_log | intros _ | lia].
    apply steady_ret. }
  destruct (Hrest (s1, tr1)) as (R1 & _ & R3). cbn [fst snd] in R1, R3.
  rewrite R1, L1. split; [reflexivity | lia].
Qed.

Lemma run_respects_dailyLimit_witness :
  let s' :=
    fst (snd (processBulkSend_among (stops_only stop_in_send_env)
                stop_in_send_env three_contacts (Some "Hi {name}") None
                (started_session 3 sample_session_near_limit, []))) in
  settings s' = settings (started_session 3 sample_session_near_limit)
  /\ count (dailyCounter s') <= Settings.dailyLimit (settings s').
Proof.
  apply (run_respects_dailyLimit (stops_only stop_in_send_env)
           stop_in_send_env three_contacts (Some "Hi {name}") None
           (started_session 3 sample_session_near_limit, []));
    [| vm_compute; discriminate | vm_compute; discriminate].
  intros i suspension st. unfold stops_only, stop_if.
  destruct suspension; try (split; reflexivity);
    match goal with |- context [if ?b then _ else _] => destruct b end;
    split; reflexivity.
Defined.

(** With a second run on the session the limit does not hold: one message
    is left of the quota of 300 when the first run passes its quota check;
    while its registration check is pending the second run passes the
    same check and sends, and the first run sends all the same. *)
Example second_start_exceeds_limit :
  let run :=
    processBulkSend_among second_start quiet_env three_contacts
      (Some "Hi {name}") None
      (started_session 3 sample_session_near_limit, []) in
  count (dailyCounter (started_session 3 sample_session_near_limit)) = 299
  /\ Settings.dailyLimit (settings (fst (snd run))) = 300
  /\ count (dailyCounter (fst (snd run))) = 301.
Proof. vm_compute. repeat split. Qed.

(** ** The accounting among other requests *)

(** C8. The accounting of the final job does not hold of every run. A
    start request for three recipients is accepted; while the
    registration check of the first is pending a stop request is served
    and then a start request for one recipient, which is accepted since
    the flag is down, replaces the job, and whose run goes to its end.
    The first run resumes, counts its message in the job of the second,
    and halts as stopped with two recipients never attempted: the job it
    announces has [total] 1, [sent] 2 and [total - sent - failed] -1. *)
Theorem second_start_breaks_accounting :
  post_send_bulk "s1" sample_body sample_sessions
  = (SendingStarted 3,
     <["s1" := started_session 3 sample_session]> sample_sessions)
  /\ fst (post_send_bulk "s1" second_body
            {[ "s1" := fst (serve_stop "s1"
                              (started_session 3 sample_session, [])) ]})
     = SendingStarted 1
  /\ fst second_start_run = Normal Stopped
  /\ currentJob (fst (snd second_start_run)) = Some second_start_job
  /\ In (Emit (bulk_complete (Some second_start_job)))
       (snd (snd second_start_run))
  /\ total second_start_job = 1
  /\ sent second_start_job = 2
  /\ failed second_start_job = 0
  /\ length (results second_start_job) = 2%nat
  /\ total second_start_job <> Z.of_nat (length three_contacts)
  /\ total second_start_job - sent second_start_job
     - failed second_start_job = -1
  /\ attempts (snd (snd second_start_run)) = 2%nat
  /\ dispatched (snd (snd second_start_run)) = ["62899@c.us"; "62811@c.us"].
Proof.
  split; [reflexivity|]. split; [reflexivity|].
  split; [vm_compute; reflexivity|].
  split; [vm_compute; reflexivity|].
  split; [vm_compute; tauto|].
  split; [reflexivity|]. split; [reflexivity|]. split; [reflexivity|].
  split; [reflexivity|]. split; [discriminate|]. split; [reflexivity|].
  split; vm_compute; reflexivity.
Qed.
